(** * Tenant account link table: the three event handlers and the creation script

    A shallow embedding of
    - [src/handlers/provision-product/index.ts]   (module [ProvisionProduct]),
    - the CreateManagedAccount handler            (module [CreateAccount]),
    - the StackSet status handler                 (module [StacksetStatus]),
    - [src/local/test-account-creation.ts]        (module [AccountCreation]),
    over an explicit model of the services they talk to: the DynamoDB link
    table, the Organizations directory, Service Catalog and the console.

    Conventions of the embedding.
    - A DynamoDB item is its map of attributes; every attribute the code
      reads or writes is a string.  The table maps the primary key (PK, SK)
      to the remaining attributes of the item stored under it.
    - A JavaScript value of type [string] that may be [undefined] is an
      [option string]; the operators [||], [!] and template literals are
      written out ([or_else], [falsy], [tpl]).
    - An [async] function is a computation in the monad [M]: it threads the
      [World] and ends either normally ([Ok]) or with an exception
      ([Throw]); [try_catch] is [try { } catch (error) { }].
    - Every [client.send] may throw: the world carries a schedule of
      faults, one entry consumed per call.
    - [new Date().toISOString()] is the parameter [now] of an invocation.
    - The fields a handler reads from its event have the types it casts
      them to: each is a string (or an object, or an array of key/value
      pairs) or is absent.
    - A scan returns every item that satisfies its filter (the table fits
      in one page of results); module [Paged] has the scan of a larger
      table, which stops at the end of its first page. *)

From Stdlib Require Import Ascii String.
From stdpp Require Import gmap strings list fin_maps.

Local Open Scope string_scope.

(** ** JavaScript primitives used by the handlers *)

Module Js.

(** [!x] for a value of type [string | undefined]. *)
Definition falsy (x : option string) : bool :=
  match x with
  | None => true
  | Some s => String.eqb s ""
  end.

(** [x || d] for a value of type [string | undefined]. *)
Definition or_else (x : option string) (d : string) : string :=
  match x with
  | None => d
  | Some s => if String.eqb s "" then d else s
  end.

(** [x || y] where both sides are [string | undefined]. *)
Definition or_opt (x y : option string) : option string :=
  if falsy x then y else x.

(** [`${x}`] for a value of type [string | undefined]. *)
Definition tpl (x : option string) : string :=
  match x with
  | None => "undefined"
  | Some s => s
  end.

(** [x === y] where [y] is a string and [x] may be [undefined]. *)
Definition strict_eq (x : option string) (y : string) : bool :=
  match x with
  | None => false
  | Some s => String.eqb s y
  end.

(** [s.split(sep)] for a one-character separator. *)
Fixpoint split (sep : Ascii.ascii) (s : string) : list string :=
  match s with
  | EmptyString => [""]
  | String c rest =>
      if Ascii.eqb c sep then "" :: split sep rest
      else match split sep rest with
           | seg :: segs => String c seg :: segs
           | [] => [String c ""]
           end
  end.

(** [parts[i]] : [undefined] past the end. *)
Definition index (parts : list string) (i : nat) : option string :=
  nth_error parts i.

End Js.

(** ** The services *)

Definition Err := string.

(** *** DynamoDB *)

Abbreviation Key := (string * string)%type.
Abbreviation Attrs := (gmap string string).
Abbreviation Table := (gmap Key Attrs).

(** An item as a scan returns it: the key attributes and the others. *)
Abbreviation Item := (Key * Attrs)%type.

Definition PK (item : Item) : string := item.1.1.
Definition SK (item : Item) : string := item.1.2.

(** [item.a] for any attribute name, key attributes included. *)
Definition attr (item : Item) (a : string) : option string :=
  if String.eqb a "PK" then Some (PK item)
  else if String.eqb a "SK" then Some (SK item)
  else item.2 !! a.

(** A [FilterExpression] of the form [a = :v]. *)
Definition matches (a v : string) (item : Item) : bool :=
  Js.strict_eq (attr item a) v.

Definition scan_items (a v : string) (t : Table) : list Item :=
  List.filter (matches a v) (map_to_list t).

(** An [UpdateExpression] [SET a1 = :v1, a2 = :v2, ...] together with its
    [ExpressionAttributeValues], as the list of assignments. *)
Abbreviation Sets := (list (string * string)).

Definition apply_sets (sets : Sets) (old : Attrs) : Attrs :=
  foldl (λ acc kv, <[kv.1 := kv.2]> acc) old sets.

(** UpdateItem creates the item when the key is absent. *)
Definition update_item (k : Key) (sets : Sets) (t : Table) : Table :=
  <[k := apply_sets sets (default ∅ (t !! k))]> t.

(** The fragment of condition expressions the code uses. *)
Inductive Cond :=
| attribute_not_exists (a : string)
| AND (c1 c2 : Cond).

(** A condition is evaluated on the item stored under the key, if any. *)
Fixpoint eval_cond (c : Cond) (existing : option Item) : bool :=
  match c with
  | attribute_not_exists a =>
      match existing with
      | None => true
      | Some item => match attr item a with None => true | Some _ => false end
      end
  | AND c1 c2 => eval_cond c1 existing && eval_cond c2 existing
  end.

(** *** Organizations *)

Record Account := { Name : option string }.

(** *** Service Catalog *)

Record ProvisioningArtifactDetail := { Id : option string; Active : option bool }.

Record ServiceCatalog := {
  ProvisioningArtifactDetails : option (list ProvisioningArtifactDetail);
  RecordDetailStatus : option string
}.

(** ** Event payloads, typed as the handlers cast them *)

Record KeyValue := { key : string; value : string }.

Record RequestParameters := {
  tags : option (list KeyValue);
  provisioningParameters : option (list KeyValue)
}.

Record RecordDetail := { status : option string }.

Record ResponseElements := { recordDetail : option RecordDetail }.

Record ProvisionDetail := {
  pp_eventName : option string;
  requestParameters : option RequestParameters;
  responseElements : option ResponseElements
}.

Record ManagedAccount := {
  accountId : option string;
  accountName : option string
}.

Record CreateManagedAccountStatus := {
  state : option string;
  account : option ManagedAccount
}.

Record ServiceEventDetails := {
  createManagedAccountStatus : option CreateManagedAccountStatus
}.

Record CreateAccountDetail := {
  ca_eventName : option string;
  serviceEventDetails : option ServiceEventDetails
}.

Record StatusDetails := {
  detailed_status : option string;
  sd_status : option string
}.

Record StackSetDetail := {
  stack_id : option string;
  status_details : option StatusDetails
}.

(** The EventBridge envelope; [detail] is [None] when the field is
    [undefined] or [null]. *)
Record EventBridgeEvent (D : Type) := {
  source : string;
  detail_type : string;
  detail : option D
}.
Arguments source {D} _.
Arguments detail_type {D} _.
Arguments detail {D} _.

(** The empty object [{}] of each shape, the right operand of [x || {}]. *)
Definition no_requestParameters : RequestParameters :=
  {| tags := None; provisioningParameters := None |}.
Definition no_responseElements : ResponseElements := {| recordDetail := None |}.
Definition no_recordDetail : RecordDetail := {| status := None |}.
Definition no_serviceEventDetails : ServiceEventDetails :=
  {| createManagedAccountStatus := None |}.
Definition no_createManagedAccountStatus : CreateManagedAccountStatus :=
  {| state := None; account := None |}.
Definition no_account : ManagedAccount :=
  {| accountId := None; accountName := None |}.
Definition no_statusDetails : StatusDetails :=
  {| detailed_status := None; sd_status := None |}.

(** ** The console *)

Inductive Level := LOG | ERROR.

(** One constructor per [console.log] / [console.error] call of the
    sources, carrying the values the message interpolates. *)
Inductive Message :=
| EventReceived
| ProvisioningStarted
| AccountCreationCompleted
| StackSetStatusChange
| UnexpectedEvent (src : string) (what : option string)
| TagsFound (ts : list KeyValue)
| ExtractedAccountId (v : option string)
| ExtractedEnvironment (v : option string)
| MissingRequiredTags
| RequestParametersDump (rp : RequestParameters)
| UpdatedProvision (pk sk st name : string)
| ErrorHandlingProvisionProduct (e : Err)
| NoItemForName (name : string)
| FoundManyItems (n : nat) (name : string)
| UpdatedAccount (pk sk awsAccountId st : string)
| AccountCreationProcessed (awsAccountId st name : string)
| ErrorHandlingCreateManagedAccount (e : Err)
| InvalidStackId (stackId : string)
| NoAccountName (acct : option string)
| NoItemForAccount (name : string) (acct : option string)
| RoleAlreadyDeployed (pk sk : string)
| UpdatedRole (pk sk roleStatus : string)
| StackSetProcessed (acct : option string) (name stackSetStatus roleStatus : string)
| ErrorHandlingStackSet (e : Err)
| CreatingAccount (id : string)
| BlankLine.

Abbreviation Line := (Level * Message)%type.

(** ** The world and the monad of asynchronous computations *)

(** A request sent to a service. *)
Inductive Call :=
| DescribeAccountCommand (AccountId : option string)
| ScanCommand (attribute v : string)
| UpdateCommand (k : Key) (sets : Sets)
| PutCommand (k : Key) (item : Attrs) (cond : option Cond)
| ListProvisioningArtifactsCommand
| ProvisionProductCommand (ProductId ProvisioningArtifactId
                           ProvisionedProductName : string)
                          (ProvisioningParameters Tags : list KeyValue).

Record World := {
  table : Table;
  organizations : option string → option Account;
  catalog : ServiceCatalog;
  faults : list (option Err);
  calls : list Call;
  console : list Line
}.

Inductive Result (A : Type) :=
| Ok (a : A)
| Throw (e : Err).
Arguments Ok {A} _.
Arguments Throw {A} _.

Definition M (A : Type) : Type := World → Result A * World.

#[global] Instance M_ret : MRet M := λ A a w, (Ok a, w).

#[global] Instance M_bind : MBind M := λ A B f m w,
  match m w with
  | (Ok a, w') => f a w'
  | (Throw e, w') => (Throw e, w')
  end.

Definition throw {A} (e : Err) : M A := λ w, (Throw e, w).

Definition try_catch {A} (body : M A) (handle : Err → M A) : M A := λ w,
  match body w with
  | (Ok a, w') => (Ok a, w')
  | (Throw e, w') => handle e w'
  end.

Definition set_table (t : Table) (w : World) : World :=
  {| table := t; organizations := organizations w; catalog := catalog w;
     faults := faults w; calls := calls w; console := console w |}.

Definition print (l : Line) : M unit := λ w,
  (Ok (),
   {| table := table w; organizations := organizations w; catalog := catalog w;
      faults := faults w; calls := calls w; console := console w ++ [l] |}).

Definition console_log (m : Message) : M unit := print (LOG, m).
Definition console_error (m : Message) : M unit := print (ERROR, m).

(** Recording the request and taking the next entry of the fault schedule. *)
Definition issue (c : Call) (w : World) : option Err * World :=
  (match faults w with Some e :: _ => Some e | _ => None end,
   {| table := table w; organizations := organizations w; catalog := catalog w;
      faults := tail (faults w); calls := calls w ++ [c]; console := console w |}).

(** [await client.send(c)]: the request is recorded; it throws when the
    schedule says so and otherwise has the effect [op]. *)
Definition send {A} (c : Call) (op : M A) : M A := λ w,
  match issue c w with
  | (Some e, w') => (Throw e, w')
  | (None, w') => op w'
  end.

(** Reading a property of a value that may be [undefined]. *)
Definition prop {D A} (o : option D) (f : D → A) : M A :=
  match o with
  | Some d => mret (f d)
  | None => throw "TypeError"
  end.

(** *** The clients *)

Definition dynamo_update (k : Key) (sets : Sets) : M unit :=
  send (UpdateCommand k sets) (λ w, (Ok (), set_table (update_item k sets (table w)) w)).

Definition dynamo_scan (a v : string) : M (list Item) :=
  send (ScanCommand a v) (λ w, (Ok (scan_items a v (table w)), w)).

Definition dynamo_put (k : Key) (item : Attrs) (cond : option Cond) : M unit :=
  send (PutCommand k item cond) (λ w,
    let existing := (λ a, (k, a)) <$> (table w !! k) in
    if match cond with Some c => eval_cond c existing | None => true end
    then (Ok (), set_table (<[k := item]> (table w)) w)
    else (Throw "ConditionalCheckFailedException", w)).

Definition org_describe_account (id : option string) : M (option Account) :=
  send (DescribeAccountCommand id) (λ w, (Ok (organizations w id), w)).

(** ** src/handlers/provision-product/index.ts *)

Module ProvisionProduct.

Definition handleProvisionProduct (now : string)
    (eventDetail : option ProvisionDetail) : M unit :=
  try_catch
    (rp ← prop eventDetail requestParameters;
     let requestParameters := default no_requestParameters rp in
     re ← prop eventDetail responseElements;
     let responseElements := default no_responseElements re in
     let recordDetail := default no_recordDetail (recordDetail responseElements) in
     let tags := default [] (tags requestParameters) in
     console_log (TagsFound tags);;
     let psAccountId :=
       value <$> List.find (λ t, String.eqb (key t) "ps:accountId") tags in
     let environment :=
       value <$> List.find (λ t, String.eqb (key t) "ps:environment") tags in
     console_log (ExtractedAccountId psAccountId);;
     console_log (ExtractedEnvironment environment);;
     if Js.falsy psAccountId || Js.falsy environment then
       console_error MissingRequiredTags;;
       console_error (RequestParametersDump requestParameters)
     else
       let provisioningParameters :=
         default [] (provisioningParameters requestParameters) in
       let accountName :=
         Js.or_else
           (value <$> List.find (λ p, String.eqb (key p) "AccountName")
                                provisioningParameters) "" in
       let rawStatus := Js.or_else (status recordDetail) "UNKNOWN" in
       let status :=
         if String.eqb rawStatus "CREATED" then "IN_PROGRESS" else rawStatus in
       let pk := "PS#" +:+ Js.tpl psAccountId in
       let sk := "ENV#" +:+ Js.tpl environment in
       dynamo_update (pk, sk)
         [("AwsAccountStatus", status);
          ("AwsAccountName", accountName);
          ("LastModified", now)];;
       console_log (UpdatedProvision pk sk status accountName))
    (λ error, console_error (ErrorHandlingProvisionProduct error)).

Definition handler (now : string)
    (event : EventBridgeEvent ProvisionDetail) : M unit :=
  console_log EventReceived;;
  let eventDetail := detail event in
  expected ←
    (if String.eqb (source event) "aws.servicecatalog"
     then eventName ← prop eventDetail pp_eventName;
          mret (Js.strict_eq eventName "ProvisionProduct")
     else mret false);
  if expected : bool then
    console_log ProvisioningStarted;;
    handleProvisionProduct now eventDetail
  else
    eventName ← prop eventDetail pp_eventName;
    console_log (UnexpectedEvent (source event) eventName).

End ProvisionProduct.

(** ** The CreateManagedAccount handler *)

Module CreateAccount.

Definition handleCreateManagedAccount (now : string)
    (eventDetail : option CreateAccountDetail) : M unit :=
  try_catch
    (sed ← prop eventDetail serviceEventDetails;
     let serviceEventDetails := default no_serviceEventDetails sed in
     let createManagedAccountStatus :=
       default no_createManagedAccountStatus
               (createManagedAccountStatus serviceEventDetails) in
     let account := default no_account (account createManagedAccountStatus) in
     let state := Js.or_else (state createManagedAccountStatus) "" in
     let awsAccountId := Js.or_else (accountId account) "" in
     let accountName := Js.or_else (accountName account) "" in
     let awsAccountStatus :=
       if String.eqb state "SUCCEEDED" then "READY" else state in
     results ← dynamo_scan "AwsAccountName" accountName;
     if Nat.eqb (length results) 0 then
       console_error (NoItemForName accountName)
     else if Nat.ltb 1 (length results) then
       console_error (FoundManyItems (length results) accountName)
     else
       item ← prop (head results) id;
       dynamo_update (PK item, SK item)
         [("AwsAccountId", awsAccountId);
          ("AwsAccountStatus", awsAccountStatus);
          ("LastModified", now)];;
       console_log (UpdatedAccount (PK item) (SK item) awsAccountId awsAccountStatus);;
       console_log (AccountCreationProcessed awsAccountId awsAccountStatus accountName))
    (λ error, console_error (ErrorHandlingCreateManagedAccount error)).

Definition handler (now : string)
    (event : EventBridgeEvent CreateAccountDetail) : M unit :=
  console_log EventReceived;;
  let eventDetail := detail event in
  expected ←
    (if String.eqb (source event) "aws.controltower"
     then eventName ← prop eventDetail ca_eventName;
          mret (Js.strict_eq eventName "CreateManagedAccount")
     else mret false);
  if expected : bool then
    console_log AccountCreationCompleted;;
    handleCreateManagedAccount now eventDetail
  else
    eventName ← prop eventDetail ca_eventName;
    console_log (UnexpectedEvent (source event) eventName).

End CreateAccount.

(** ** The StackSet instance status handler *)

Module StacksetStatus.

(** [`arn:aws:iam::${accountId}:role/PageSuiteRole`] *)
Definition roleArn (accountId : option string) : string :=
  "arn:aws:iam::" +:+ Js.tpl accountId +:+ ":role/PageSuiteRole".

Definition handleStackSetInstanceStatusChange (now : string)
    (eventDetail : option StackSetDetail) : M unit :=
  try_catch
    (sid ← prop eventDetail stack_id;
     let stackId := Js.or_else sid "" in
     sd ← prop eventDetail status_details;
     let statusDetails := default no_statusDetails sd in
     let stackIdParts := Js.split ":"%char stackId in
     if Nat.ltb (length stackIdParts) 5 then
       console_error (InvalidStackId stackId)
     else
       let accountId := Js.index stackIdParts 4 in
       let stackSetStatus :=
         Js.or_else (Js.or_opt (detailed_status statusDetails)
                               (sd_status statusDetails)) "" in
       Account ← org_describe_account accountId;
       match Account ≫= Name with
       | None => console_error (NoAccountName accountId)
       | Some AccountName =>
         if String.eqb AccountName "" then
           console_error (NoAccountName accountId)
         else
           results ← dynamo_scan "AwsAccountName" AccountName;
           if Nat.eqb (length results) 0 then
             console_log (NoItemForAccount AccountName accountId)
           else if Nat.ltb 1 (length results) then
             console_error (FoundManyItems (length results) AccountName)
           else
             item ← prop (head results) id;
             let roleStatus :=
               if String.eqb stackSetStatus "SUCCEEDED" then "READY"
               else stackSetStatus in
             if String.eqb roleStatus "READY"
                && Js.strict_eq (attr item "PageSuiteRoleStatus") "READY"
                && negb (Js.falsy (attr item "PageSuiteRoleArn"))
             then
               console_log (RoleAlreadyDeployed (PK item) (SK item))
             else
               let sets :=
                 if String.eqb roleStatus "READY" then
                   [("PageSuiteRoleArn", roleArn accountId);
                    ("PageSuiteRoleStatus", roleStatus);
                    ("LastModified", now)]
                 else
                   [("PageSuiteRoleStatus", roleStatus);
                    ("LastModified", now)] in
               dynamo_update (PK item, SK item) sets;;
               console_log (UpdatedRole (PK item) (SK item) roleStatus);;
               console_log (StackSetProcessed accountId AccountName
                                              stackSetStatus roleStatus)
       end)
    (λ error, console_error (ErrorHandlingStackSet error)).

Definition handler (now : string)
    (event : EventBridgeEvent StackSetDetail) : M unit :=
  console_log EventReceived;;
  let eventDetail := detail event in
  if String.eqb (source event) "aws.cloudformation"
     && String.eqb (detail_type event)
                   "CloudFormation StackSet StackInstance Status Change"
  then
    console_log StackSetStatusChange;;
    handleStackSetInstanceStatusChange now eventDetail
  else
    console_log (UnexpectedEvent (source event) (Some (detail_type event))).

End StacksetStatus.

(** ** src/local/test-account-creation.ts *)

Module AccountCreation.

Inductive Environment := Prod | UAT | Dev.

(** The string a template literal makes of an [Environment]. *)
Definition Environment_str (e : Environment) : string :=
  match e with
  | Prod => "Prod"
  | UAT => "UAT"
  | Dev => "Dev"
  end.

Definition ACCOUNT_FACTORY_PRODUCT_ID : string := "prod-6f6q5myc3kzmy".
Definition ENVIRONMENT : Environment := Dev.

Definition getOrganizationalUnitForEnvironment (environment : Environment) : string :=
  match environment with
  | Prod => "Clients-Prod (ou-s4i4-4lggmwqt)"
  | UAT => "Clients-UAT (ou-s4i4-hrdijbmg)"
  | Dev => "Clients-Dev (ou-s4i4-0t2m7sl7)"
  end.

Record Outcome := { success : bool; message : string }.

Record RequestAwsAccountParams := {
  product_id : string;
  provisioning_artifactId : string;
  provisioning_productName : string;
  parameters_accountName : string;
  parameters_accountEmail : string;
  parameters_ssoUserEmail : string;
  parameters_ssoUserFirstName : string;
  parameters_ssoUserLastName : string;
  parameters_managedOrganizationalUnit : string;
  pageSuite_accountId : string;
  pageSuite_environment : string
}.

Definition requestAwsAccount (params : RequestAwsAccountParams) : M Outcome :=
  try_catch
    (st ← send
       (ProvisionProductCommand
          (product_id params)
          (provisioning_artifactId params)
          (provisioning_productName params)
          [ {| key := "AccountName"; value := parameters_accountName params |};
            {| key := "AccountEmail"; value := parameters_accountEmail params |};
            {| key := "SSOUserEmail"; value := parameters_ssoUserEmail params |};
            {| key := "SSOUserFirstName";
               value := parameters_ssoUserFirstName params |};
            {| key := "SSOUserLastName";
               value := parameters_ssoUserLastName params |};
            {| key := "ManagedOrganizationalUnit";
               value := parameters_managedOrganizationalUnit params |} ]
          [ {| key := "ps:accountId"; value := pageSuite_accountId params |};
            {| key := "ps:environment"; value := pageSuite_environment params |} ])
       (λ w, (Ok (RecordDetailStatus (catalog w)), w));
     let status := Js.or_else st "UNKNOWN" in
     mret {| success := String.eqb status "CREATED"
                        || String.eqb status "IN_PROGRESS";
             message := "Account provisioning status: " +:+ status |})
    (λ error,
     mret {| success := false;
             message := "Failed to provision account: " +:+ error |}).

Definition getLatestActiveArtifactId : M string :=
  details ← send ListProvisioningArtifactsCommand
                 (λ w, (Ok (ProvisioningArtifactDetails (catalog w)), w));
  let activeArtifact :=
    details ≫= List.find (λ artifact,
      match Active artifact with Some true => true | _ => false end) in
  match activeArtifact ≫= Id with
  | None => throw "No active provisioning artifact found for the product"
  | Some id =>
      if String.eqb id ""
      then throw "No active provisioning artifact found for the product"
      else mret id
  end.

(** The link entry [main] creates first. *)
Definition initial_item (now : string) : Attrs :=
  <["AwsAccountStatus" := "PENDING"]>
  (<["AwsAccountId" := ""]>
  (<["AwsAccountName" := ""]>
  (<["PageSuiteRoleStatus" := "PENDING"]>
  (<["PageSuiteRoleArn" := ""]>
  (<["LastModified" := now]> ∅))))).

(** [PAGESUITE_ACCOUNT_ID] is a fresh UUID of the run: a parameter here. *)
Definition main (PAGESUITE_ACCOUNT_ID now : string) : M unit :=
  console_log (CreatingAccount PAGESUITE_ACCOUNT_ID);;
  dynamo_put ("PS#" +:+ PAGESUITE_ACCOUNT_ID,
              "ENV#" +:+ Environment_str ENVIRONMENT)
             (initial_item now)
             (Some (AND (attribute_not_exists "PK") (attribute_not_exists "SK")));;
  let organizationalUnit := getOrganizationalUnitForEnvironment ENVIRONMENT in
  artifactId ← getLatestActiveArtifactId;
  newAccount ← requestAwsAccount
    {| product_id := ACCOUNT_FACTORY_PRODUCT_ID;
       provisioning_artifactId := artifactId;
       provisioning_productName :=
         PAGESUITE_ACCOUNT_ID +:+ "_" +:+ Environment_str ENVIRONMENT;
       parameters_accountName :=
         PAGESUITE_ACCOUNT_ID +:+ "_" +:+ Environment_str ENVIRONMENT;
       parameters_accountEmail :=
         "clients+" +:+ PAGESUITE_ACCOUNT_ID +:+ "+root@pagesuite.com";
       parameters_ssoUserEmail :=
         "clients+" +:+ PAGESUITE_ACCOUNT_ID +:+ "+admin@pagesuite.com";
       parameters_ssoUserFirstName := "Admin";
       parameters_ssoUserLastName := "acc_" +:+ PAGESUITE_ACCOUNT_ID;
       parameters_managedOrganizationalUnit := organizationalUnit;
       pageSuite_accountId := PAGESUITE_ACCOUNT_ID;
       pageSuite_environment := Environment_str ENVIRONMENT |};
  console_log BlankLine.

End AccountCreation.

(** ** Sequences of deliveries *)

(** One invocation of one of the three functions, with its clock reading. *)
Inductive Delivery :=
| ToProvisionProduct (now : string) (event : EventBridgeEvent ProvisionDetail)
| ToCreateAccount (now : string) (event : EventBridgeEvent CreateAccountDetail)
| ToStacksetStatus (now : string) (event : EventBridgeEvent StackSetDetail).

Definition deliver (d : Delivery) : M unit :=
  match d with
  | ToProvisionProduct now event => ProvisionProduct.handler now event
  | ToCreateAccount now event => CreateAccount.handler now event
  | ToStacksetStatus now event => StacksetStatus.handler now event
  end.

(** Invocations are independent: the outcome of one is not seen by the next. *)
Definition run (ds : list Delivery) (w : World) : World :=
  foldl (λ w d, (deliver d w).2) w ds.

(** ** Predicates on records *)

(** [roleArn] is set. *)
Definition has_roleArn (a : Attrs) : bool :=
  negb (Js.falsy (a !! "PageSuiteRoleArn")).

Definition role_ready (a : Attrs) : bool :=
  Js.strict_eq (a !! "PageSuiteRoleStatus") "READY".

(** The direction of the [roleArn] invariant the handlers maintain. *)
Definition ready_has_arn (t : Table) : Prop :=
  ∀ k a, t !! k = Some a → role_ready a = true → has_roleArn a = true.

(** The invariant as the data model words it. *)
Definition arn_iff_ready (t : Table) : Prop :=
  ∀ k a, t !! k = Some a → has_roleArn a = role_ready a.

(** No [UpdateCommand] and no [PutCommand] among the requests. *)
Definition is_write (c : Call) : bool :=
  match c with
  | UpdateCommand _ _ | PutCommand _ _ _ => true
  | _ => false
  end.

Definition writes (w : World) : list Call := List.filter is_write (calls w).

(** ** The values a handler extracts from its event

    The same expressions as in the handlers, named after the variables
    that hold them, for use in statements. *)

Module Signal.

(** [xs.find(x => x.key === k)?.value] *)
Definition find_value (k : string) (xs : list KeyValue) : option string :=
  value <$> List.find (λ x, String.eqb (key x) k) xs.

Definition tags_of (d : ProvisionDetail) : list KeyValue :=
  default [] (tags (default no_requestParameters (requestParameters d))).

Definition psAccountId (d : ProvisionDetail) : option string :=
  find_value "ps:accountId" (tags_of d).

Definition environment (d : ProvisionDetail) : option string :=
  find_value "ps:environment" (tags_of d).

Definition provisionedName (d : ProvisionDetail) : string :=
  Js.or_else
    (find_value "AccountName"
       (default [] (provisioningParameters
                      (default no_requestParameters (requestParameters d))))) "".

Definition rawStatus (d : ProvisionDetail) : string :=
  Js.or_else
    (status (default no_recordDetail
       (recordDetail (default no_responseElements (responseElements d)))))
    "UNKNOWN".

(** [status], the value written to [AwsAccountStatus]. *)
Definition accountStatus (d : ProvisionDetail) : string :=
  if String.eqb (rawStatus d) "CREATED" then "IN_PROGRESS" else rawStatus d.

Definition managedAccountStatus (d : CreateAccountDetail) : CreateManagedAccountStatus :=
  default no_createManagedAccountStatus
    (createManagedAccountStatus
       (default no_serviceEventDetails (serviceEventDetails d))).

Definition managedAccount (d : CreateAccountDetail) : ManagedAccount :=
  default no_account (account (managedAccountStatus d)).

Definition rawState (d : CreateAccountDetail) : string :=
  Js.or_else (state (managedAccountStatus d)) "".

Definition awsAccountStatus (d : CreateAccountDetail) : string :=
  if String.eqb (rawState d) "SUCCEEDED" then "READY" else rawState d.

Definition awsAccountId (d : CreateAccountDetail) : string :=
  Js.or_else (accountId (managedAccount d)) "".

Definition createdName (d : CreateAccountDetail) : string :=
  Js.or_else (accountName (managedAccount d)) "".

Definition stackId (d : StackSetDetail) : string :=
  Js.or_else (stack_id d) "".

Definition stackIdParts (d : StackSetDetail) : list string :=
  Js.split ":"%char (stackId d).

Definition cloudAccountId (d : StackSetDetail) : option string :=
  Js.index (stackIdParts d) 4.

Definition stackSetStatus (d : StackSetDetail) : string :=
  let statusDetails := default no_statusDetails (status_details d) in
  Js.or_else (Js.or_opt (detailed_status statusDetails)
                        (sd_status statusDetails)) "".

Definition roleStatus (d : StackSetDetail) : string :=
  if String.eqb (stackSetStatus d) "SUCCEEDED" then "READY"
  else stackSetStatus d.

(** The account name the directory gives for an account identifier, when
    it gives one the handler accepts ([Account] and [Account.Name] truthy). *)
Definition resolveAccountName (w : World) (id : option string) : option string :=
  match organizations w id ≫= Name with
  | Some n => if String.eqb n "" then None else Some n
  | None => None
  end.

End Signal.

(** The events each function is subscribed to. *)
Definition is_ProvisionProduct (event : EventBridgeEvent ProvisionDetail) : Prop :=
  source event = "aws.servicecatalog" ∧
  (detail event ≫= pp_eventName) = Some "ProvisionProduct".

Definition is_CreateManagedAccount (event : EventBridgeEvent CreateAccountDetail) : Prop :=
  source event = "aws.controltower" ∧
  (detail event ≫= ca_eventName) = Some "CreateManagedAccount".

Definition is_StackSetStatusChange (event : EventBridgeEvent StackSetDetail) : Prop :=
  source event = "aws.cloudformation" ∧
  detail_type event = "CloudFormation StackSet StackInstance Status Change".

(** The next [n] requests are answered, none throws. *)
Definition answered (n : nat) (w : World) : bool :=
  forallb (λ f, match f with None => true | Some _ => false end)
          (take n (faults w)).

(** The exceptions thrown by the requests made between [w] and [w']. *)
Definition thrown (w w' : World) : list Err :=
  omap id (take (length (calls w') - length (calls w)) (faults w)).

(** The line the [catch] block of each function prints. *)
Definition caught (d : Delivery) (e : Err) : Line :=
  match d with
  | ToProvisionProduct _ _ => (ERROR, ErrorHandlingProvisionProduct e)
  | ToCreateAccount _ _ => (ERROR, ErrorHandlingCreateManagedAccount e)
  | ToStacksetStatus _ _ => (ERROR, ErrorHandlingStackSet e)
  end.

Definition has_detail (d : Delivery) : Prop :=
  match d with
  | ToProvisionProduct _ event => is_Some (detail event)
  | ToCreateAccount _ event => is_Some (detail event)
  | ToStacksetStatus _ event => is_Some (detail event)
  end.

Definition nonempty (x : option string) : Prop := Js.falsy x = false.

(** The signal of a delivery carries a non-empty account name (it is not
    a provisioning event without an [AccountName] parameter). *)
Definition carries_accountName (d : Delivery) : Prop :=
  match d with
  | ToProvisionProduct _ event =>
      ∀ dd, detail event = Some dd → Signal.provisionedName dd ≠ ""
  | _ => True
  end.

(** The signal of a delivery carries a non-empty account identifier (it
    is not an account-creation event without an [accountId]). *)
Definition carries_accountId (d : Delivery) : Prop :=
  match d with
  | ToCreateAccount _ event =>
      ∀ dd, detail event = Some dd → Signal.awsAccountId dd ≠ ""
  | _ => True
  end.

(** The delivery is an account-creation or a role-deployment signal that
    is correlated through the account name [n]. *)
Definition references (w : World) (d : Delivery) (n : string) : Prop :=
  match d with
  | ToProvisionProduct _ _ => False
  | ToCreateAccount _ event =>
      is_CreateManagedAccount event ∧
      ∃ dd, detail event = Some dd ∧ Signal.createdName dd = n
  | ToStacksetStatus _ event =>
      is_StackSetStatusChange event ∧
      ∃ dd, detail event = Some dd ∧
            (5 ≤ length (Signal.stackIdParts dd))%nat ∧
            Signal.resolveAccountName w (Signal.cloudAccountId dd) = Some n
  end.

(** ** The end-to-end scenario: tenant t1, environment Dev *)

Module Scenario.

Definition t1_key : Key := ("PS#t1", "ENV#Dev").

Definition directory (id : option string) : option Account :=
  if Js.strict_eq id "111" then Some {| Name := Some "n1" |} else None.

Definition no_catalog : ServiceCatalog :=
  {| ProvisioningArtifactDetails := None; RecordDetailStatus := None |}.

(** A world whose table is [t] and whose services answer every request. *)
Definition world (t : Table) : World :=
  {| table := t; organizations := directory; catalog := no_catalog;
     faults := []; calls := []; console := [] |}.

(** The same world with a schedule of faults for its requests. *)
Definition faulty (t : Table) (fs : list (option Err)) : World :=
  {| table := t; organizations := directory; catalog := no_catalog;
     faults := fs; calls := []; console := [] |}.

(** The table right after the creation script ran for tenant t1. *)
Definition created : Table := {[ t1_key := AccountCreation.initial_item "t0" ]}.

Definition provisionDetail (rawStatus : string) (params : list KeyValue)
    : ProvisionDetail :=
  {| pp_eventName := Some "ProvisionProduct";
     requestParameters := Some
       {| tags := Some [ {| key := "ps:accountId"; value := "t1" |};
                         {| key := "ps:environment"; value := "Dev" |} ];
          provisioningParameters := Some params |};
     responseElements := Some
       {| recordDetail := Some {| status := Some rawStatus |} |} |}.

Definition provisionRequested (rawStatus : string) (params : list KeyValue)
    : EventBridgeEvent ProvisionDetail :=
  {| source := "aws.servicecatalog";
     detail_type := "AWS API Call via CloudTrail";
     detail := Some (provisionDetail rawStatus params) |}.

Definition accountDetail (id : option string) (name rawState : string)
    : CreateAccountDetail :=
  {| ca_eventName := Some "CreateManagedAccount";
     serviceEventDetails := Some
       {| createManagedAccountStatus := Some
            {| state := Some rawState;
               account := Some {| accountId := id;
                                  accountName := Some name |} |} |} |}.

Definition accountCreated (id : option string) (name rawState : string)
    : EventBridgeEvent CreateAccountDetail :=
  {| source := "aws.controltower";
     detail_type := "AWS Service Event via CloudTrail";
     detail := Some (accountDetail id name rawState) |}.

Definition stackSetDetail (stackId rawStatus : string) : StackSetDetail :=
  {| stack_id := Some stackId;
     status_details := Some {| detailed_status := Some rawStatus;
                               sd_status := Some "CURRENT" |} |}.

Definition roleDeployed (stackId rawStatus : string)
    : EventBridgeEvent StackSetDetail :=
  {| source := "aws.cloudformation";
     detail_type := "CloudFormation StackSet StackInstance Status Change";
     detail := Some (stackSetDetail stackId rawStatus) |}.

(** A status change that carries no [detailed-status]. *)
Definition statusOnly (stackId st : string) : EventBridgeEvent StackSetDetail :=
  {| source := "aws.cloudformation";
     detail_type := "CloudFormation StackSet StackInstance Status Change";
     detail := Some
       {| stack_id := Some stackId;
          status_details := Some {| detailed_status := None;
                                    sd_status := Some st |} |} |}.

Definition stack111 : string :=
  "arn:aws:cloudformation:eu-west-1:111:stack/StackSet-PageSuiteRole/0a1b".

Definition name_n1 : list KeyValue := [ {| key := "AccountName"; value := "n1" |} ].

(** The three signals of the scenario, in order. *)
Definition signals : list Delivery :=
  [ ToProvisionProduct "t1" (provisionRequested "CREATED" name_n1);
    ToCreateAccount "t2" (accountCreated (Some "111") "n1" "SUCCEEDED");
    ToStacksetStatus "t3" (roleDeployed stack111 "SUCCEEDED") ].

(** The record once the scenario has run. *)
Definition ready_item : Attrs :=
  <["AwsAccountStatus" := "READY"]>
  (<["AwsAccountId" := "111"]>
  (<["AwsAccountName" := "n1"]>
  (<["PageSuiteRoleStatus" := "READY"]>
  (<["PageSuiteRoleArn" := "arn:aws:iam::111:role/PageSuiteRole"]>
  (<["LastModified" := "t3"]> ∅))))).

(** Two tenants whose records carry the same account name. *)
Definition t2_key : Key := ("PS#t2", "ENV#Dev").
Definition clash : Table := <[t2_key := ready_item]> {[ t1_key := ready_item ]}.

End Scenario.

(** ** The table after a delivery, as a function

    What each handler writes when every request it sends is answered:
    the same conditions and the same [UpdateCommand] as in the handler,
    without the requests, the console and the exceptions. *)

Definition transition (d : Delivery) (w : World) : Table :=
  match d with
  | ToProvisionProduct now event =>
      match detail event with
      | Some dd =>
          if String.eqb (source event) "aws.servicecatalog"
             && Js.strict_eq (pp_eventName dd) "ProvisionProduct"
             && negb (Js.falsy (Signal.psAccountId dd)
                      || Js.falsy (Signal.environment dd))
          then update_item
                 ("PS#" +:+ Js.tpl (Signal.psAccountId dd),
                  "ENV#" +:+ Js.tpl (Signal.environment dd))
                 [("AwsAccountStatus", Signal.accountStatus dd);
                  ("AwsAccountName", Signal.provisionedName dd);
                  ("LastModified", now)]
                 (table w)
          else table w
      | None => table w
      end
  | ToCreateAccount now event =>
      match detail event with
      | Some dd =>
          if String.eqb (source event) "aws.controltower"
             && Js.strict_eq (ca_eventName dd) "CreateManagedAccount"
          then match scan_items "AwsAccountName" (Signal.createdName dd) (table w) with
               | [(k, _)] =>
                   update_item k
                     [("AwsAccountId", Signal.awsAccountId dd);
                      ("AwsAccountStatus", Signal.awsAccountStatus dd);
                      ("LastModified", now)]
                     (table w)
               | _ => table w
               end
          else table w
      | None => table w
      end
  | ToStacksetStatus now event =>
      match detail event with
      | Some dd =>
          if String.eqb (source event) "aws.cloudformation"
             && String.eqb (detail_type event)
                  "CloudFormation StackSet StackInstance Status Change"
             && negb (Nat.ltb (length (Signal.stackIdParts dd)) 5)
          then match Signal.resolveAccountName w (Signal.cloudAccountId dd) with
               | Some n =>
                   match scan_items "AwsAccountName" n (table w) with
                   | [(k, a)] =>
                       if String.eqb (Signal.roleStatus dd) "READY"
                          && role_ready a && has_roleArn a
                       then table w
                       else update_item k
                              (if String.eqb (Signal.roleStatus dd) "READY"
                               then [("PageSuiteRoleArn",
                                      StacksetStatus.roleArn (Signal.cloudAccountId dd));
                                     ("PageSuiteRoleStatus", Signal.roleStatus dd);
                                     ("LastModified", now)]
                               else [("PageSuiteRoleStatus", Signal.roleStatus dd);
                                     ("LastModified", now)])
                              (table w)
                   | _ => table w
                   end
               | None => table w
               end
          else table w
      | None => table w
      end
  end.

(** The clock reading of a delivery. *)
Definition clock (d : Delivery) : string :=
  match d with
  | ToProvisionProduct now _ | ToCreateAccount now _ | ToStacksetStatus now _ => now
  end.

(** The number of occurrences of a character in a string. *)
Fixpoint occurrences (c : Ascii.ascii) (s : string) : nat :=
  match s with
  | EmptyString => 0
  | String x rest => (if Ascii.eqb x c then 1 else 0) + occurrences c rest
  end.

(** The attributes the [UpdateExpression] of each function can assign. *)
Definition assigned (d : Delivery) : list string :=
  match d with
  | ToProvisionProduct _ _ => ["AwsAccountStatus"; "AwsAccountName"; "LastModified"]
  | ToCreateAccount _ _ => ["AwsAccountId"; "AwsAccountStatus"; "LastModified"]
  | ToStacksetStatus _ _ => ["PageSuiteRoleArn"; "PageSuiteRoleStatus"; "LastModified"]
  end.

(** The event is one the function handles (the condition of the [if] in
    its [handler]). *)
Definition subscribed (d : Delivery) : Prop :=
  match d with
  | ToProvisionProduct _ event => is_ProvisionProduct event
  | ToCreateAccount _ event => is_CreateManagedAccount event
  | ToStacksetStatus _ event => is_StackSetStatusChange event
  end.

(** The second value the [UnexpectedEvent] line interpolates. *)
Definition unexpected_what (d : Delivery) : option string :=
  match d with
  | ToProvisionProduct _ event => detail event ≫= pp_eventName
  | ToCreateAccount _ event => detail event ≫= ca_eventName
  | ToStacksetStatus _ event => Some (detail_type event)
  end.

Definition source_of (d : Delivery) : string :=
  match d with
  | ToProvisionProduct _ event => source event
  | ToCreateAccount _ event => source event
  | ToStacksetStatus _ event => source event
  end.

(** What each correlating function prints when its scan finds no record
    of the name [n]: an error in the account-creation function, a plain
    log line in the StackSet function. *)
Definition not_found_line (d : Delivery) (n : string) : option Line :=
  match d with
  | ToProvisionProduct _ _ => None
  | ToCreateAccount _ _ => Some (ERROR, NoItemForName n)
  | ToStacksetStatus _ event =>
      Some (LOG, NoItemForAccount n (detail event ≫= Signal.cloudAccountId))
  end.

(** The identifier [getLatestActiveArtifactId] finds in the catalog: the
    [Id] of the first artifact marked active, when it is not empty. *)
Definition activeArtifactId (w : World) : option string :=
  match (ProvisioningArtifactDetails (catalog w) ≫=
           List.find (λ artifact,
             match Active artifact with Some true => true | _ => false end))
        ≫= Id with
  | Some id => if String.eqb id "" then None else Some id
  | None => None
  end.

(** The key the creation script writes for a tenant identifier. *)
Definition link_key (id : string) : Key := ("PS#" +:+ id, "ENV#Dev").

(** The CloudTrail event of a [ProvisionProduct] request, as far as the
    provisioning function reads it: the tags and provisioning parameters
    of the request and the status of the response. *)
Definition provisioning_event_of (c : Call) (rawStatus : option string)
    : option (EventBridgeEvent ProvisionDetail) :=
  match c with
  | ProvisionProductCommand _ _ _ params tags =>
      Some {| source := "aws.servicecatalog";
              detail_type := "AWS API Call via CloudTrail";
              detail := Some
                {| pp_eventName := Some "ProvisionProduct";
                   requestParameters := Some
                     {| tags := Some tags; provisioningParameters := Some params |};
                   responseElements := Some
                     {| recordDetail := Some {| status := rawStatus |} |} |} |}
  | _ => None
  end.

(** A world for the creation script: an empty table and a catalog with one
    retired and one active artifact. *)
Definition script_world (fs : list (option Err)) : World :=
  {| table := ∅; organizations := Scenario.directory;
     catalog := {| ProvisioningArtifactDetails := Some
                     [ {| Id := Some "pa-old"; Active := Some false |};
                       {| Id := Some "pa-new"; Active := Some true |} ];
                   RecordDetailStatus := Some "CREATED" |};
     faults := fs; calls := []; console := [] |}.

(** Two tables hold the same records and agree on every attribute of
    every record, except possibly the attribute [x0]. *)
Definition agree_but (x0 : string) (t1 t2 : Table) : Prop :=
  ∀ k : Key,
    (is_Some (t1 !! k) ↔ is_Some (t2 !! k)) ∧
    ∀ x : string, x ≠ x0 → (t1 !! k ≫= (.!! x)) = (t2 !! k ≫= (.!! x)).

(** ** The role-chain test script

    [testRoleChain] and [main] of the script that assumes the client
    access role with SSO credentials, then the PageSuite role with the
    credentials of the first, and probes S3, EC2, IAM and STS with the
    credentials of the second.  The script talks to other services than
    the handlers, so it has a state and a monad of its own, built like
    [World] and [M]: what the services answer, the fault schedule, the
    requests sent and the console. *)

Module RoleChain.

Inductive Environment := Prod | UAT | Dev.

Record EnvConfig := { accountId : string; ssoProfile : string }.

Definition ENVIRONMENTS (environment : Environment) : EnvConfig :=
  match environment with
  | Prod => {| accountId := "230905834734"; ssoProfile := "production" |}
  | UAT => {| accountId := "966849848650"; ssoProfile := "uat" |}
  | Dev => {| accountId := "403416458870"; ssoProfile := "development" |}
  end.

(** [Credentials] of an [AssumeRole] response. *)
Record Credentials := {
  AccessKeyId : option string;
  SecretAccessKey : option string;
  SessionToken : option string
}.

(** The [credentials] a client is constructed with. *)
Inductive ClientCredentials :=
| fromSSO (profile : string)
| static (accessKeyId secretAccessKey sessionToken : option string).

Inductive Command :=
| AssumeRoleCommand (RoleArn RoleSessionName : string)
| ListBucketsCommand
| DescribeInstancesCommand
| ListUsersCommand
| GetCallerIdentityCommand.

Inductive Service := STS | S3 | EC2 | IAM.

(** A request: the client it is sent with and the command. *)
Record Request := {
  service : Service;
  credentials : ClientCredentials;
  command : Command
}.

Record Bucket := { BucketName : option string }.

(** What the services answer to a request that does not throw. *)
Record Aws := {
  assumeRole : ClientCredentials → string → option Credentials;
  listBuckets : ClientCredentials → option (list Bucket);
  callerIdentity : ClientCredentials → option string
}.

Inductive Message :=
| TestingRoleChain (environment : Environment) (pageSuiteRoleArn : string)
| UsingSsoProfile (profile : string)
| AssumingClientAccessRole
| AssumingPageSuiteRole
| TestingPermissions
| TestingS3
| S3Success (found : nat)
| FirstBucket (name : option string)
| S3Failed (e : Err)
| TestingEC2
| EC2UnexpectedSuccess
| EC2Denied (e : Err)
| TestingIAM
| IAMUnexpectedSuccess
| IAMDenied (e : Err)
| TestingSTS
| CurrentIdentity (arn : option string)
| STSFailed (e : Err)
| Summary
| ErrorMessage (e : Err)
| SsoTip
| SsoLogin (profile : string)
| TestingWith (environment : Environment)
| TargetRole (arn : string).

Record State := {
  aws : Aws;
  faults : list (option Err);
  sent : list Request;
  console : list (Level * Message)
}.

Definition R (A : Type) : Type := State → Result A * State.

#[global] Instance R_ret : MRet R := λ A a s, (Ok a, s).

#[global] Instance R_bind : MBind R := λ A B f m s,
  match m s with
  | (Ok a, s') => f a s'
  | (Throw e, s') => (Throw e, s')
  end.

Definition throw {A} (e : Err) : R A := λ s, (Throw e, s).

Definition try_catch {A} (body : R A) (handle : Err → R A) : R A := λ s,
  match body s with
  | (Ok a, s') => (Ok a, s')
  | (Throw e, s') => handle e s'
  end.

Definition print (l : Level * Message) : R unit := λ s,
  (Ok (),
   {| aws := aws s; faults := faults s; sent := sent s;
      console := console s ++ [l] |}).

Definition console_log (m : Message) : R unit := print (LOG, m).
Definition console_error (m : Message) : R unit := print (ERROR, m).

(** [await client.send(command)]: the request is recorded; it throws when
    the schedule says so and otherwise returns the answer of the service. *)
Definition send {A} (sv : Service) (c : ClientCredentials) (cmd : Command)
    (answer : Aws → A) : R A := λ s,
  let s' := {| aws := aws s; faults := tail (faults s);
               sent := sent s ++ [{| service := sv; credentials := c;
                                     command := cmd |}];
               console := console s |} in
  match faults s with
  | Some e :: _ => (Throw e, s')
  | _ => (Ok (answer (aws s)), s')
  end.

(** [s.includes(sub)] *)
Fixpoint includes (sub s : string) : bool :=
  String.prefix sub s ||
  match s with
  | EmptyString => false
  | String _ rest => includes sub rest
  end.

(** The credentials object built from an [AssumeRole] response. *)
Definition of_response (c : Credentials) : ClientCredentials :=
  static (AccessKeyId c) (SecretAccessKey c) (SessionToken c).

(** [`arn:aws:iam::${envConfig.accountId}:role/ClientAccessRole`] *)
Definition clientAccessRoleArn (environment : Environment) : string :=
  "arn:aws:iam::" +:+ accountId (ENVIRONMENTS environment)
                  +:+ ":role/ClientAccessRole".

Definition testRoleChain (environment : Environment) (pageSuiteRoleArn : string)
    : R unit :=
  console_log (TestingRoleChain environment pageSuiteRoleArn);;
  try_catch
    (let envConfig := ENVIRONMENTS environment in
     console_log (UsingSsoProfile (ssoProfile envConfig));;
     let stsClient := fromSSO (ssoProfile envConfig) in
     console_log AssumingClientAccessRole;;
     let clientAccessRoleArn := clientAccessRoleArn environment in
     clientAccessResponse ←
       send STS stsClient
            (AssumeRoleCommand clientAccessRoleArn "test-client-access-session")
            (λ a, assumeRole a stsClient clientAccessRoleArn);
     match clientAccessResponse with
     | None => throw "Failed to get credentials from ClientAccessRole"
     | Some clientAccessCredentials =>
       let clientAccessSts := of_response clientAccessCredentials in
       console_log AssumingPageSuiteRole;;
       pageSuiteResponse ←
         send STS clientAccessSts
              (AssumeRoleCommand pageSuiteRoleArn "test-pagesuite-session")
              (λ a, assumeRole a clientAccessSts pageSuiteRoleArn);
       match pageSuiteResponse with
       | None => throw "Failed to get credentials from PageSuiteRole"
       | Some pageSuiteResponseCredentials =>
         let pageSuiteCredentials := of_response pageSuiteResponseCredentials in
         console_log TestingPermissions;;
         console_log TestingS3;;
         try_catch
           (Buckets ← send S3 pageSuiteCredentials ListBucketsCommand
                           (λ a, listBuckets a pageSuiteCredentials);
            console_log (S3Success (length (default [] Buckets)));;
            match Buckets with
            | Some (first :: _) => console_log (FirstBucket (BucketName first))
            | _ => mret ()
            end)
           (λ error, console_log (S3Failed error));;
         console_log TestingEC2;;
         try_catch
           (send EC2 pageSuiteCredentials DescribeInstancesCommand (λ _, ());;
            console_log EC2UnexpectedSuccess)
           (λ error, console_log (EC2Denied error));;
         console_log TestingIAM;;
         try_catch
           (send IAM pageSuiteCredentials ListUsersCommand (λ _, ());;
            console_log IAMUnexpectedSuccess)
           (λ error, console_log (IAMDenied error));;
         console_log TestingSTS;;
         try_catch
           (Arn ← send STS pageSuiteCredentials GetCallerIdentityCommand
                       (λ a, callerIdentity a pageSuiteCredentials);
            console_log (CurrentIdentity Arn))
           (λ error, console_log (STSFailed error));;
         console_log Summary
       end
     end)
    (λ error,
     console_error (ErrorMessage error);;
     if includes "SSO" error then
       console_log SsoTip;;
       console_log (SsoLogin (ssoProfile (ENVIRONMENTS environment)))
     else mret ()).

Definition main : R unit :=
  let ENVIRONMENT := Dev in
  let PAGE_SUITE_ROLE_ARN := "arn:aws:iam::575935530000:role/PageSuiteRole" in
  console_log (TestingWith ENVIRONMENT);;
  console_log (TargetRole PAGE_SUITE_ROLE_ARN);;
  testRoleChain ENVIRONMENT PAGE_SUITE_ROLE_ARN.

(** The part of [testRoleChain] that follows the two role assumptions:
    the four probes made with the credentials of the PageSuite role. *)
Definition probes (pageSuiteCredentials : ClientCredentials) : R unit :=
  console_log TestingPermissions;;
  console_log TestingS3;;
  try_catch
    (Buckets ← send S3 pageSuiteCredentials ListBucketsCommand
                    (λ a, listBuckets a pageSuiteCredentials);
     console_log (S3Success (length (default [] Buckets)));;
     match Buckets with
     | Some (first :: _) => console_log (FirstBucket (BucketName first))
     | _ => mret ()
     end)
    (λ error, console_log (S3Failed error));;
  console_log TestingEC2;;
  try_catch
    (send EC2 pageSuiteCredentials DescribeInstancesCommand (λ _, ());;
     console_log EC2UnexpectedSuccess)
    (λ error, console_log (EC2Denied error));;
  console_log TestingIAM;;
  try_catch
    (send IAM pageSuiteCredentials ListUsersCommand (λ _, ());;
     console_log IAMUnexpectedSuccess)
    (λ error, console_log (IAMDenied error));;
  console_log TestingSTS;;
  try_catch
    (Arn ← send STS pageSuiteCredentials GetCallerIdentityCommand
                (λ a, callerIdentity a pageSuiteCredentials);
     console_log (CurrentIdentity Arn))
    (λ error, console_log (STSFailed error));;
  console_log Summary.

(** A computation that always ends normally, sends exactly the requests
    [reqs] and uses one entry of the fault schedule for each. *)
Definition runs (reqs : list Request) (m : R unit) : Prop :=
  ∀ s, (m s).1 = Ok () ∧
       sent (m s).2 = (sent s ++ reqs)%list ∧
       faults (m s).2 = drop (length reqs) (faults s) ∧
       aws (m s).2 = aws s.

(** The six requests of a complete run, given the two sets of credentials
    the role assumptions returned. *)
Definition chain (environment : Environment) (pageSuiteRoleArn : string)
    (c1 c2 : Credentials) : list Request :=
  [ {| service := STS; credentials := fromSSO (ssoProfile (ENVIRONMENTS environment));
       command := AssumeRoleCommand (clientAccessRoleArn environment)
                                    "test-client-access-session" |};
    {| service := STS; credentials := of_response c1;
       command := AssumeRoleCommand pageSuiteRoleArn "test-pagesuite-session" |};
    {| service := S3; credentials := of_response c2; command := ListBucketsCommand |};
    {| service := EC2; credentials := of_response c2;
       command := DescribeInstancesCommand |};
    {| service := IAM; credentials := of_response c2; command := ListUsersCommand |};
    {| service := STS; credentials := of_response c2;
       command := GetCallerIdentityCommand |} ].

(** The next [n] requests are answered, none throws. *)
Definition answered (n : nat) (s : State) : bool :=
  forallb (λ f, match f with None => true | Some _ => false end)
          (take n (faults s)).

(** A deployment in which both roles can be assumed; every request is
    answered unless the schedule [fs] says otherwise. *)
Definition granting (fs : list (option Err)) : State :=
  {| aws := {| assumeRole := λ c arn,
                 Some {| AccessKeyId := Some ("AKIA-" +:+ arn);
                         SecretAccessKey := Some "secret";
                         SessionToken := Some "token" |};
               listBuckets := λ _, Some [ {| BucketName := Some "editions" |} ];
               callerIdentity := λ _, Some "arn:aws:sts::575935530000:assumed-role/PageSuiteRole/test-pagesuite-session" |};
     faults := fs; sent := []; console := [] |}.

End RoleChain.

(** ** Scans that stop at the first page

    A [ScanCommand] reads one page of the table (at most 1 MB of items)
    and filters what it read; the rest of the table is reached only by
    sending further commands with the [LastEvaluatedKey] of the response.
    The two correlating handlers send a single command and use its
    [Items].  In this module the page holds the first [limit] items of the
    scan order, and the handlers are the text of [CreateAccount] and
    [StacksetStatus] over that scan; [dynamo_scan] above is the case of a
    table that fits in one page. *)

Module Paged.

Definition scan_page (limit : nat) (a v : string) (t : Table) : list Item :=
  List.filter (matches a v) (take limit (map_to_list t)).

Definition dynamo_scan (limit : nat) (a v : string) : M (list Item) :=
  send (ScanCommand a v) (λ w, (Ok (scan_page limit a v (table w)), w)).

Module CreateAccount.

Definition handleCreateManagedAccount (limit : nat) (now : string)
    (eventDetail : option CreateAccountDetail) : M unit :=
  try_catch
    (sed ← prop eventDetail serviceEventDetails;
     let serviceEventDetails := default no_serviceEventDetails sed in
     let createManagedAccountStatus :=
       default no_createManagedAccountStatus
               (createManagedAccountStatus serviceEventDetails) in
     let account := default no_account (account createManagedAccountStatus) in
     let state := Js.or_else (state createManagedAccountStatus) "" in
     let awsAccountId := Js.or_else (accountId account) "" in
     let accountName := Js.or_else (accountName account) "" in
     let awsAccountStatus :=
       if String.eqb state "SUCCEEDED" then "READY" else state in
     results ← dynamo_scan limit "AwsAccountName" accountName;
     if Nat.eqb (length results) 0 then
       console_error (NoItemForName accountName)
     else if Nat.ltb 1 (length results) then
       console_error (FoundManyItems (length results) accountName)
     else
       item ← prop (head results) id;
       dynamo_update (PK item, SK item)
         [("AwsAccountId", awsAccountId);
          ("AwsAccountStatus", awsAccountStatus);
          ("LastModified", now)];;
       console_log (UpdatedAccount (PK item) (SK item) awsAccountId awsAccountStatus);;
       console_log (AccountCreationProcessed awsAccountId awsAccountStatus accountName))
    (λ error, console_error (ErrorHandlingCreateManagedAccount error)).

Definition handler (limit : nat) (now : string)
    (event : EventBridgeEvent CreateAccountDetail) : M unit :=
  console_log EventReceived;;
  let eventDetail := detail event in
  expected ←
    (if String.eqb (source event) "aws.controltower"
     then eventName ← prop eventDetail ca_eventName;
          mret (Js.strict_eq eventName "CreateManagedAccount")
     else mret false);
  if expected : bool then
    console_log AccountCreationCompleted;;
    handleCreateManagedAccount limit now eventDetail
  else
    eventName ← prop eventDetail ca_eventName;
    console_log (UnexpectedEvent (source event) eventName).

End CreateAccount.

Module StacksetStatus.

Definition handleStackSetInstanceStatusChange (limit : nat) (now : string)
    (eventDetail : option StackSetDetail) : M unit :=
  try_catch
    (sid ← prop eventDetail stack_id;
     let stackId := Js.or_else sid "" in
     sd ← prop eventDetail status_details;
     let statusDetails := default no_statusDetails sd in
     let stackIdParts := Js.split ":"%char stackId in
     if Nat.ltb (length stackIdParts) 5 then
       console_error (InvalidStackId stackId)
     else
       let accountId := Js.index stackIdParts 4 in
       let stackSetStatus :=
         Js.or_else (Js.or_opt (detailed_status statusDetails)
                               (sd_status statusDetails)) "" in
       Account ← org_describe_account accountId;
       match Account ≫= Name with
       | None => console_error (NoAccountName accountId)
       | Some AccountName =>
         if String.eqb AccountName "" then
           console_error (NoAccountName accountId)
         else
           results ← dynamo_scan limit "AwsAccountName" AccountName;
           if Nat.eqb (length results) 0 then
             console_log (NoItemForAccount AccountName accountId)
           else if Nat.ltb 1 (length results) then
             console_error (FoundManyItems (length results) AccountName)
           else
             item ← prop (head results) id;
             let roleStatus :=
               if String.eqb stackSetStatus "SUCCEEDED" then "READY"
               else stackSetStatus in
             if String.eqb roleStatus "READY"
                && Js.strict_eq (attr item "PageSuiteRoleStatus") "READY"
                && negb (Js.falsy (attr item "PageSuiteRoleArn"))
             then
               console_log (RoleAlreadyDeployed (PK item) (SK item))
             else
               let sets :=
                 if String.eqb roleStatus "READY" then
                   [("PageSuiteRoleArn", StacksetStatus.roleArn accountId);
                    ("PageSuiteRoleStatus", roleStatus);
                    ("LastModified", now)]
                 else
                   [("PageSuiteRoleStatus", roleStatus);
                    ("LastModified", now)] in
               dynamo_update (PK item, SK item) sets;;
               console_log (UpdatedRole (PK item) (SK item) roleStatus);;
               console_log (StackSetProcessed accountId AccountName
                                              stackSetStatus roleStatus)
       end)
    (λ error, console_error (ErrorHandlingStackSet error)).

Definition handler (limit : nat) (now : string)
    (event : EventBridgeEvent StackSetDetail) : M unit :=
  console_log EventReceived;;
  let eventDetail := detail event in
  if String.eqb (source event) "aws.cloudformation"
     && String.eqb (detail_type event)
                   "CloudFormation StackSet StackInstance Status Change"
  then
    console_log StackSetStatusChange;;
    handleStackSetInstanceStatusChange limit now eventDetail
  else
    console_log (UnexpectedEvent (source event) (Some (detail_type event))).

End StacksetStatus.

End Paged.

(** Two tenants whose accounts were requested under the same name and are
    still being provisioned. *)
Definition requested_item : Attrs :=
  <["AwsAccountStatus" := "IN_PROGRESS"]>
  (<["AwsAccountName" := "n1"]>
  (<["LastModified" := "t1"]> ∅)).

Definition same_name : Table :=
  <[Scenario.t2_key := requested_item]> {[ Scenario.t1_key := requested_item ]}.

(** ** The identifiers a signal carries for the record

    The account name a provisioning event writes, the account identifier
    an account-creation event writes; no other delivery has one. *)

Definition signal_accountName (d : Delivery) : option string :=
  match d with
  | ToProvisionProduct _ event => Signal.provisionedName <$> detail event
  | _ => None
  end.

Definition signal_accountId (d : Delivery) : option string :=
  match d with
  | ToCreateAccount _ event => Signal.awsAccountId <$> detail event
  | _ => None
  end.

(** * Properties *)

#[local] Arguments Js.falsy : simpl never.
#[local] Arguments Js.or_else : simpl never.
#[local] Arguments Js.or_opt : simpl never.
#[local] Arguments Js.tpl : simpl never.
#[local] Arguments Js.strict_eq : simpl never.
#[local] Arguments Js.split : simpl never.
#[local] Arguments Js.index : simpl never.
#[local] Arguments String.eqb : simpl never.
#[local] Arguments String.append : simpl never.
#[local] Arguments Nat.ltb : simpl never.
#[local] Arguments Nat.eqb : simpl never.
#[local] Arguments scan_items : simpl never.
#[local] Arguments Paged.scan_page : simpl never.
#[local] Arguments update_item : simpl never.
#[local] Arguments apply_sets : simpl never.
#[local] Arguments attr : simpl never.
#[local] Arguments StacksetStatus.roleArn : simpl never.
#[local] Arguments answered : simpl never.

(** ** Tactics for stepping through a handler *)

Ltac unfold_M :=
  unfold mbind, M_bind, mret, M_ret, try_catch, throw, prop,
         console_log, console_error, print,
         dynamo_update, dynamo_scan, dynamo_put, org_describe_account,
         send, issue, set_table in *.

Ltac unfold_views :=
  unfold Signal.resolveAccountName, Signal.roleStatus, Signal.stackSetStatus,
         Signal.cloudAccountId, Signal.stackIdParts, Signal.stackId,
         Signal.awsAccountStatus, Signal.rawState,
         Signal.createdName, Signal.awsAccountId, Signal.managedAccount,
         Signal.managedAccountStatus,
         Signal.accountStatus, Signal.rawStatus, Signal.provisionedName,
         Signal.environment, Signal.psAccountId, Signal.tags_of,
         Signal.find_value in *.

Ltac norm_writes :=
  unfold writes; simpl; rewrite ?List.filter_app; simpl; rewrite ?app_nil_r.

Ltac no_write := left; norm_writes; done.

Ltac cases_faults w :=
  destruct (faults w) as [|[?|] [|[?|] [|[?|] ?]]] eqn:?; simpl.

(** ** The table *)

Lemma attr_role_status (k : Key) (a : Attrs) :
  attr (k, a) "PageSuiteRoleStatus" = a !! "PageSuiteRoleStatus".
Proof. reflexivity. Qed.

Lemma attr_role_arn (k : Key) (a : Attrs) :
  attr (k, a) "PageSuiteRoleArn" = a !! "PageSuiteRoleArn".
Proof. reflexivity. Qed.

Lemma attr_account_name (k : Key) (a : Attrs) :
  attr (k, a) "AwsAccountName" = a !! "AwsAccountName".
Proof. reflexivity. Qed.

Lemma update_item_lookup (k : Key) (sets : Sets) (t : Table) :
  update_item k sets t !! k = Some (apply_sets sets (default ∅ (t !! k))).
Proof. unfold update_item. apply lookup_insert_eq. Qed.

Lemma update_item_lookup_ne (k k' : Key) (sets : Sets) (t : Table) :
  k ≠ k' → update_item k sets t !! k' = t !! k'.
Proof. intros. unfold update_item. by apply lookup_insert_ne. Qed.

Lemma apply_sets_lookup_other (sets : Sets) (a : Attrs) (x : string) :
  x ∉ sets.*1 → apply_sets sets a !! x = a !! x.
Proof.
  unfold apply_sets. revert a.
  induction sets as [|[y v] sets IH]; intros a Hx; simpl; [done|].
  apply not_elem_of_cons in Hx as [Hy Hx]. simpl in Hy.
  rewrite IH by done. by apply lookup_insert_ne.
Qed.

Lemma scan_items_elem (a v : string) (t : Table) (item : Item) :
  item ∈ scan_items a v t ↔ t !! item.1 = Some item.2 ∧ matches a v item = true.
Proof.
  unfold scan_items. rewrite list_elem_of_In, List.filter_In, <- list_elem_of_In.
  destruct item as [k x]. by rewrite elem_of_map_to_list.
Qed.

Lemma scan_items_NoDup (a v : string) (t : Table) : NoDup (scan_items a v t).
Proof.
  unfold scan_items. apply NoDup_ListNoDup, List.NoDup_filter, NoDup_ListNoDup.
  apply NoDup_map_to_list.
Qed.

Lemma matches_name (n : string) (k : Key) (a : Attrs) :
  matches "AwsAccountName" n (k, a) = true ↔ a !! "AwsAccountName" = Some n.
Proof.
  unfold matches. rewrite attr_account_name. unfold Js.strict_eq.
  destruct (a !! "AwsAccountName") as [s|]; [|split; done].
  rewrite String.eqb_eq. split; congruence.
Qed.

(** Two records with the same name make the scan return at least two items. *)
Lemma scan_items_shared (n : string) (t : Table) (k1 k2 : Key) (a1 a2 : Attrs) :
  k1 ≠ k2 →
  t !! k1 = Some a1 → a1 !! "AwsAccountName" = Some n →
  t !! k2 = Some a2 → a2 !! "AwsAccountName" = Some n →
  (2 ≤ length (scan_items "AwsAccountName" n t))%nat.
Proof.
  intros Hne H1 Hn1 H2 Hn2.
  assert (E1 : (k1, a1) ∈ scan_items "AwsAccountName" n t)
    by (apply scan_items_elem; split; [done | by apply matches_name]).
  assert (E2 : (k2, a2) ∈ scan_items "AwsAccountName" n t)
    by (apply scan_items_elem; split; [done | by apply matches_name]).
  destruct (scan_items "AwsAccountName" n t) as [|i1 [|i2 rest]]; simpl; [| |lia].
  - by apply elem_of_nil in E1.
  - apply list_elem_of_singleton in E1, E2. congruence.
Qed.

(** One record with the name and no other: the scan returns just it. *)
Lemma scan_items_unique (n : string) (t : Table) (k : Key) (a : Attrs) :
  t !! k = Some a → a !! "AwsAccountName" = Some n →
  (∀ k' a', k' ≠ k → t !! k' = Some a' → a' !! "AwsAccountName" ≠ Some n) →
  scan_items "AwsAccountName" n t = [(k, a)].
Proof.
  intros Hk Hn Huniq.
  assert (E : (k, a) ∈ scan_items "AwsAccountName" n t)
    by (apply scan_items_elem; split; [done | by apply matches_name]).
  assert (All : ∀ i, i ∈ scan_items "AwsAccountName" n t → i = (k, a)).
  { intros [k' a'] [Hl Hm]%scan_items_elem. simpl in *.
    apply matches_name in Hm.
    destruct (decide (k' = k)) as [->|Hne]; [congruence|].
    by destruct (Huniq k' a' Hne Hl). }
  pose proof (scan_items_NoDup "AwsAccountName" n t) as ND.
  destruct (scan_items "AwsAccountName" n t) as [|i1 [|i2 rest]].
  - by apply elem_of_nil in E.
  - f_equal. apply All, elem_of_cons. by left.
  - exfalso. assert (i1 = (k, a)) by (apply All, elem_of_cons; by left).
    assert (i2 = (k, a))
      by (apply All, elem_of_cons; right; apply elem_of_cons; by left).
    subst. apply NoDup_cons in ND as [ND _].
    apply ND, elem_of_cons. by left.
Qed.

(** ** What one delivery does to the table

    Each function either leaves the table alone or sends one
    [UpdateCommand]; the update takes effect unless the request throws. *)

Lemma provision_effect now event w :
  let w' := (ProvisionProduct.handler now event w).2 in
  (table w' = table w ∧ writes w' = writes w) ∨
  (∃ d,
     detail event = Some d ∧
     let k := ("PS#" +:+ Js.tpl (Signal.psAccountId d),
               "ENV#" +:+ Js.tpl (Signal.environment d)) in
     let sets := [("AwsAccountStatus", Signal.accountStatus d);
                  ("AwsAccountName", Signal.provisionedName d);
                  ("LastModified", now)] in
     writes w' = (writes w ++ [UpdateCommand k sets])%list ∧
     (table w' = table w ∨ table w' = update_item k sets (table w))).
Proof.
  unfold ProvisionProduct.handler, ProvisionProduct.handleProvisionProduct.
  unfold_views. unfold_M. simpl.
  destruct (String.eqb (source event) _); simpl.
  all: destruct (detail event) as [d|] eqn:Hd; simpl; [|no_write..].
  all: try destruct (Js.strict_eq (pp_eventName d) _); simpl; try no_write.
  destruct (Js.falsy _ || Js.falsy _) eqn:Hvalid; simpl; [no_write|].
  right. exists d. split; [done|].
  cases_faults w; norm_writes; auto.
Qed.

Lemma account_effect now event w :
  let w' := (CreateAccount.handler now event w).2 in
  (table w' = table w ∧ writes w' = writes w) ∨
  (∃ d k a,
     detail event = Some d ∧
     scan_items "AwsAccountName" (Signal.createdName d) (table w) = [(k, a)] ∧
     let sets := [("AwsAccountId", Signal.awsAccountId d);
                  ("AwsAccountStatus", Signal.awsAccountStatus d);
                  ("LastModified", now)] in
     writes w' = (writes w ++ [UpdateCommand k sets])%list ∧
     (table w' = table w ∨ table w' = update_item k sets (table w))).
Proof.
  unfold CreateAccount.handler, CreateAccount.handleCreateManagedAccount.
  unfold_views. unfold_M. simpl.
  destruct (String.eqb (source event) _); simpl.
  all: destruct (detail event) as [d|] eqn:Hd; simpl; [|no_write..].
  all: try destruct (Js.strict_eq (ca_eventName d) _); simpl; try no_write.
  cases_faults w; try no_write.
  all: destruct (scan_items "AwsAccountName" _ (table w))
         as [|[[pk sk] a] [|i2 rest]] eqn:Hscan; simpl; try no_write.
  all: right; exists d, (pk, sk), a; unfold PK, SK; simpl.
  all: repeat split; try done; norm_writes; auto.
Qed.

Lemma stackset_effect now event w :
  let w' := (StacksetStatus.handler now event w).2 in
  (table w' = table w ∧ writes w' = writes w) ∨
  (∃ d n k a,
     detail event = Some d ∧
     Signal.resolveAccountName w (Signal.cloudAccountId d) = Some n ∧
     scan_items "AwsAccountName" n (table w) = [(k, a)] ∧
     String.eqb (Signal.roleStatus d) "READY" && role_ready a && has_roleArn a
       = false ∧
     let sets :=
       if String.eqb (Signal.roleStatus d) "READY"
       then [("PageSuiteRoleArn", StacksetStatus.roleArn (Signal.cloudAccountId d));
             ("PageSuiteRoleStatus", Signal.roleStatus d);
             ("LastModified", now)]
       else [("PageSuiteRoleStatus", Signal.roleStatus d);
             ("LastModified", now)] in
     writes w' = (writes w ++ [UpdateCommand k sets])%list ∧
     (table w' = table w ∨ table w' = update_item k sets (table w))).
Proof.
  unfold StacksetStatus.handler, StacksetStatus.handleStackSetInstanceStatusChange.
  unfold_views. unfold_M. simpl.
  destruct (_ && _) eqn:Hev; simpl; [|no_write].
  destruct (detail event) as [d|] eqn:Hd; simpl; [|no_write].
  destruct (Nat.ltb _ 5) eqn:Hlen; simpl; [no_write|].
  cases_faults w; try no_write.
  all: destruct (option_bind _ _ Name _) as [n|] eqn:Hn; simpl; [|no_write].
  all: destruct (String.eqb n "") eqn:Hne; simpl; [no_write|].
  all: try no_write.
  all: destruct (scan_items "AwsAccountName" n (table w))
         as [|[[pk sk] a] [|i2 rest]] eqn:Hscan; simpl; try no_write.
  all: rewrite attr_role_status, attr_role_arn;
       fold (role_ready a); fold (has_roleArn a).
  all: destruct (_ && _ && _) eqn:Hguard; simpl; [no_write|].
  all: right; exists d, n, (pk, sk), a; rewrite Hn, Hne; unfold PK, SK.
  all: repeat split; try done.
  all: destruct (String.eqb _ "READY"); simpl; norm_writes; auto.
Qed.

(** ** What a delivery does when it reaches its update *)

Lemma answered_faults n w :
  answered n w = true →
  ∀ i e, (i < n)%nat → faults w !! i ≠ Some (Some e).
Proof.
  unfold answered. rewrite forallb_forall. intros H i e Hi Hl.
  assert (In (Some e) (take n (faults w))) as HIn.
  { apply list_elem_of_In, list_elem_of_lookup. exists i.
    by rewrite lookup_take_lt. }
  by apply H in HIn.
Qed.

Ltac use_answered H :=
  match type of H with
  | answered _ ?w = true =>
      let F := fresh "F" in
      pose proof (answered_faults _ _ H) as F;
      destruct (faults w) as [|[?|] [|[?|] [|[?|] ?]]] eqn:?; simpl;
      try (exfalso; by eapply (F 0%nat); [lia|]);
      try (exfalso; by eapply (F 1%nat); [lia|]);
      try (exfalso; by eapply (F 2%nat); [lia|]);
      clear F
  end.

Lemma provision_applies now event d w :
  is_ProvisionProduct event →
  detail event = Some d →
  nonempty (Signal.psAccountId d) →
  nonempty (Signal.environment d) →
  answered 1 w = true →
  let r := ProvisionProduct.handler now event w in
  let k := ("PS#" +:+ Js.tpl (Signal.psAccountId d),
            "ENV#" +:+ Js.tpl (Signal.environment d)) in
  let sets := [("AwsAccountStatus", Signal.accountStatus d);
               ("AwsAccountName", Signal.provisionedName d);
               ("LastModified", now)] in
  r.1 = Ok () ∧
  table r.2 = update_item k sets (table w) ∧
  organizations r.2 = organizations w ∧
  faults r.2 = drop 1 (faults w).
Proof.
  intros [Hsrc Hname] Hd Hid Henv Hans. rewrite Hd in Hname. simpl in Hname.
  unfold ProvisionProduct.handler, ProvisionProduct.handleProvisionProduct.
  unfold nonempty in *. unfold_views. unfold_M. simpl.
  rewrite Hsrc, Hd. simpl. rewrite Hname. simpl.
  rewrite Hid, Henv. simpl.
  use_answered Hans; done.
Qed.

Lemma account_applies now event d k a w :
  is_CreateManagedAccount event →
  detail event = Some d →
  scan_items "AwsAccountName" (Signal.createdName d) (table w) = [(k, a)] →
  answered 2 w = true →
  let r := CreateAccount.handler now event w in
  let sets := [("AwsAccountId", Signal.awsAccountId d);
               ("AwsAccountStatus", Signal.awsAccountStatus d);
               ("LastModified", now)] in
  r.1 = Ok () ∧
  table r.2 = update_item k sets (table w) ∧
  organizations r.2 = organizations w ∧
  faults r.2 = drop 2 (faults w).
Proof.
  intros [Hsrc Hname] Hd Hscan Hans. rewrite Hd in Hname. simpl in Hname.
  unfold CreateAccount.handler, CreateAccount.handleCreateManagedAccount.
  unfold_views. unfold_M. simpl.
  rewrite Hsrc, Hd. simpl. rewrite Hname. simpl.
  destruct k as [pk sk].
  use_answered Hans; rewrite Hscan; simpl; done.
Qed.

Lemma stackset_applies now event d n k a w :
  is_StackSetStatusChange event →
  detail event = Some d →
  (5 ≤ length (Signal.stackIdParts d))%nat →
  Signal.resolveAccountName w (Signal.cloudAccountId d) = Some n →
  scan_items "AwsAccountName" n (table w) = [(k, a)] →
  String.eqb (Signal.roleStatus d) "READY" && role_ready a && has_roleArn a
    = false →
  answered 3 w = true →
  let r := StacksetStatus.handler now event w in
  let sets :=
    if String.eqb (Signal.roleStatus d) "READY"
    then [("PageSuiteRoleArn", StacksetStatus.roleArn (Signal.cloudAccountId d));
          ("PageSuiteRoleStatus", Signal.roleStatus d);
          ("LastModified", now)]
    else [("PageSuiteRoleStatus", Signal.roleStatus d);
          ("LastModified", now)] in
  r.1 = Ok () ∧
  table r.2 = update_item k sets (table w) ∧
  organizations r.2 = organizations w ∧
  faults r.2 = drop 3 (faults w).
Proof.
  intros [Hsrc Hty] Hd Hlen Hn Hscan Hguard Hans.
  unfold StacksetStatus.handler, StacksetStatus.handleStackSetInstanceStatusChange.
  unfold_views. unfold_M. simpl in *.
  rewrite Hsrc, Hty, Hd. simpl.
  apply Nat.ltb_ge in Hlen. rewrite Hlen. simpl.
  destruct (option_bind _ _ Name _) as [n'|] eqn:Hn'; [|done].
  destruct (String.eqb n' "") eqn:Hne; [done|]. injection Hn as ->.
  destruct k as [pk sk].
  use_answered Hans; rewrite Hn'; simpl; rewrite Hne; simpl; rewrite Hscan; simpl.
  all: rewrite attr_role_status, attr_role_arn;
       fold (role_ready a); fold (has_roleArn a); rewrite Hguard; simpl.
  all: destruct (String.eqb _ "READY"); done.
Qed.

(** ** Malformed resource identifiers *)

(** C7. A role-deployment event whose [stack-id] splits into fewer than
    five colon-delimited segments is reported as an invalid stack-id and
    dropped: the invocation ends normally, the table is unchanged, and no
    request at all is sent (no directory lookup, no scan, no update). *)
Theorem malformed_stack_id_dropped now event d w :
  is_StackSetStatusChange event →
  detail event = Some d →
  (length (Signal.stackIdParts d) < 5)%nat →
  let r := StacksetStatus.handler now event w in
  r.1 = Ok () ∧
  table r.2 = table w ∧
  calls r.2 = calls w ∧
  faults r.2 = faults w ∧
  console r.2 =
    (console w ++ [(LOG, EventReceived); (LOG, StackSetStatusChange);
                   (ERROR, InvalidStackId (Signal.stackId d))])%list.
Proof.
  intros [Hsrc Hty] Hd Hlen.
  unfold StacksetStatus.handler, StacksetStatus.handleStackSetInstanceStatusChange.
  unfold_views. unfold_M. simpl.
  rewrite Hsrc, Hty, Hd. simpl.
  apply Nat.ltb_lt in Hlen. rewrite Hlen. simpl.
  by rewrite <- !app_assoc.
Qed.

Lemma malformed_stack_id_dropped_witness :
  let event := Scenario.roleDeployed "arn:aws:cloudformation:eu-west-1" "SUCCEEDED" in
  let w := Scenario.world Scenario.created in
  let r := StacksetStatus.handler "t3" event w in
  (length (Js.split ":" "arn:aws:cloudformation:eu-west-1") < 5)%nat ∧
  r.1 = Ok () ∧ table r.2 = table w ∧ calls r.2 = [] ∧ faults r.2 = [] ∧
  console r.2 =
    [(LOG, EventReceived); (LOG, StackSetStatusChange);
     (ERROR, InvalidStackId "arn:aws:cloudformation:eu-west-1")].
Proof.
  split; [vm_compute; lia|].
  apply (malformed_stack_id_dropped "t3"
           (Scenario.roleDeployed "arn:aws:cloudformation:eu-west-1" "SUCCEEDED")
           (Scenario.stackSetDetail "arn:aws:cloudformation:eu-west-1" "SUCCEEDED")
           (Scenario.world Scenario.created)).
  - split; reflexivity.
  - reflexivity.
  - vm_compute; lia.
Defined.

(** ** The provisioning status remap *)

(** C4. A provisioning event that carries both tags makes the handler
    write the record under [(PS#tenant, ENV#environment)]; when the raw
    status is [CREATED] the [AwsAccountStatus] written is [IN_PROGRESS],
    and any other raw status is written as it is. *)
Theorem provision_status_remap now event d w :
  is_ProvisionProduct event →
  detail event = Some d →
  nonempty (Signal.psAccountId d) →
  nonempty (Signal.environment d) →
  answered 1 w = true →
  let w' := (ProvisionProduct.handler now event w).2 in
  ∃ a : Attrs,
    table w' !! ("PS#" +:+ Js.tpl (Signal.psAccountId d),
                 "ENV#" +:+ Js.tpl (Signal.environment d)) = Some a ∧
    (Signal.rawStatus d = "CREATED" →
       a !! "AwsAccountStatus" = Some "IN_PROGRESS") ∧
    (Signal.rawStatus d ≠ "CREATED" →
       a !! "AwsAccountStatus" = Some (Signal.rawStatus d)).
Proof.
  intros Hev Hd Hid Henv Hans.
  destruct (provision_applies now event d w Hev Hd Hid Henv Hans)
    as (_ & Ht & _).
  simpl. rewrite Ht, update_item_lookup. eexists; split; [done|].
  assert (L : ∀ (v1 v2 v3 : string) (a : Attrs),
            apply_sets [("AwsAccountStatus", v1); ("AwsAccountName", v2);
                        ("LastModified", v3)] a !! "AwsAccountStatus" = Some v1).
  { intros. unfold apply_sets. simpl.
    rewrite !lookup_insert_ne by done. apply lookup_insert_eq. }
  rewrite L. unfold Signal.accountStatus. split.
  - intros ->. reflexivity.
  - intros Hne. apply String.eqb_neq in Hne. by rewrite Hne.
Qed.

Lemma provision_status_remap_witness :
  let w' := (ProvisionProduct.handler "t1"
               (Scenario.provisionRequested "CREATED" Scenario.name_n1)
               (Scenario.world Scenario.created)).2 in
  ∃ a : Attrs,
    table w' !! ("PS#t1", "ENV#Dev") = Some a ∧
    ("CREATED" = "CREATED" → a !! "AwsAccountStatus" = Some "IN_PROGRESS") ∧
    ("CREATED" ≠ "CREATED" → a !! "AwsAccountStatus" = Some "CREATED").
Proof.
  apply (provision_status_remap "t1"
           (Scenario.provisionRequested "CREATED" Scenario.name_n1)
           (Scenario.provisionDetail "CREATED" Scenario.name_n1)
           (Scenario.world Scenario.created)).
  - split; reflexivity.
  - reflexivity.
  - reflexivity.
  - reflexivity.
  - reflexivity.
Defined.

(** ** The roleArn invariant *)

Lemma role_ready_empty : role_ready ∅ = false.
Proof. reflexivity. Qed.

(** An update keeps [ready_has_arn] when its assignments do on every record. *)
Lemma ready_has_arn_update (t : Table) (k : Key) (sets : Sets) :
  ready_has_arn t →
  (∀ a : Attrs,
     (role_ready a = true → has_roleArn a = true) →
     role_ready (apply_sets sets a) = true →
     has_roleArn (apply_sets sets a) = true) →
  ready_has_arn (update_item k sets t).
Proof.
  intros Hinv Hsets k' a'.
  destruct (decide (k = k')) as [<-|Hne].
  - rewrite update_item_lookup. intros [= <-].
    apply Hsets. destruct (t !! k) as [a0|] eqn:Hk; simpl.
    + by apply (Hinv k).
    + by rewrite role_ready_empty.
  - rewrite update_item_lookup_ne by done. apply Hinv.
Qed.

Lemma apply_sets_role_untouched (sets : Sets) (a : Attrs) :
  "PageSuiteRoleStatus" ∉ sets.*1 → "PageSuiteRoleArn" ∉ sets.*1 →
  role_ready (apply_sets sets a) = role_ready a ∧
  has_roleArn (apply_sets sets a) = has_roleArn a.
Proof.
  intros H1 H2. unfold role_ready, has_roleArn.
  by rewrite !apply_sets_lookup_other.
Qed.

Ltac not_in_list :=
  simpl; rewrite ?not_elem_of_cons; repeat split;
  solve [discriminate | apply not_elem_of_nil].

Lemma roleArn_nonempty id : Js.falsy (Some (StacksetStatus.roleArn id)) = false.
Proof. reflexivity. Qed.

Lemma deliver_keeps_ready_has_arn d w :
  ready_has_arn (table w) → ready_has_arn (table (deliver d w).2).
Proof.
  intros Hinv. destruct d as [now event|now event|now event]; simpl.
  - destruct (provision_effect now event w) as [[-> _]|(d & _ & _ & [->| ->])];
      try done.
    apply ready_has_arn_update; [done|]. intros a Ha.
    destruct (apply_sets_role_untouched
      [("AwsAccountStatus", Signal.accountStatus d);
       ("AwsAccountName", Signal.provisionedName d); ("LastModified", now)] a)
      as [-> ->]; [not_in_list..|done].
  - destruct (account_effect now event w)
      as [[-> _]|(d & k & a0 & _ & _ & _ & [->| ->])]; try done.
    apply ready_has_arn_update; [done|]. intros a Ha.
    destruct (apply_sets_role_untouched
      [("AwsAccountId", Signal.awsAccountId d);
       ("AwsAccountStatus", Signal.awsAccountStatus d); ("LastModified", now)] a)
      as [-> ->]; [not_in_list..|done].
  - destruct (stackset_effect now event w)
      as [[-> _]|(d & n & k & a0 & _ & _ & _ & _ & _ & [->| ->])]; try done.
    apply ready_has_arn_update; [done|]. intros a Ha.
    destruct (String.eqb (Signal.roleStatus d) "READY") eqn:Hrs.
    + intros _. unfold has_roleArn, apply_sets. simpl.
      rewrite !lookup_insert_ne by done. rewrite lookup_insert_eq.
      by rewrite roleArn_nonempty.
    + unfold role_ready, apply_sets. simpl.
      rewrite lookup_insert_ne by done. rewrite lookup_insert_eq.
      unfold Js.strict_eq. by rewrite Hrs.
Qed.

(** C1 (as the handlers implement it). Over every sequence of deliveries,
    a table in which each record with [PageSuiteRoleStatus = READY] has a
    non-empty [PageSuiteRoleArn] stays such a table. *)
Theorem ready_has_arn_preserved ds w :
  ready_has_arn (table w) → ready_has_arn (table (run ds w)).
Proof.
  revert w. induction ds as [|d ds IH]; intros w Hinv; simpl; [done|].
  apply IH. by apply deliver_keeps_ready_has_arn.
Qed.

Lemma ready_has_arn_preserved_witness :
  ready_has_arn (table (run Scenario.signals (Scenario.world Scenario.created))).
Proof.
  apply (ready_has_arn_preserved Scenario.signals (Scenario.world Scenario.created)).
  intros k a. simpl. unfold Scenario.created.
  intros [<- <-]%lookup_singleton_Some. vm_compute. discriminate.
Defined.

(** C1 (as the spec words it) fails: the record of the finished scenario
    satisfies "roleArn is set iff roleStatus is READY"; one more
    role-deployment event with detailed status FAILED leaves the roleArn
    in place and moves the status away from READY.  The same happens with
    an event that has no detailed status and the plain status CURRENT. *)
Lemma arn_iff_ready_broken :
  let w := Scenario.world {[ Scenario.t1_key := Scenario.ready_item ]} in
  let w' := run [ToStacksetStatus "t4"
                   (Scenario.roleDeployed Scenario.stack111 "FAILED")] w in
  let w'' := run [ToStacksetStatus "t4"
                    (Scenario.statusOnly Scenario.stack111 "CURRENT")] w in
  arn_iff_ready (table w) ∧
  (∃ a : Attrs,
     table w' !! Scenario.t1_key = Some a ∧
     a !! "PageSuiteRoleStatus" = Some "FAILED" ∧
     a !! "PageSuiteRoleArn" = Some "arn:aws:iam::111:role/PageSuiteRole") ∧
  ¬ arn_iff_ready (table w') ∧
  (∃ a : Attrs,
     table w'' !! Scenario.t1_key = Some a ∧
     a !! "PageSuiteRoleStatus" = Some "CURRENT" ∧
     a !! "PageSuiteRoleArn" = Some "arn:aws:iam::111:role/PageSuiteRole") ∧
  ¬ arn_iff_ready (table w'').
Proof.
  assert (E : ∀ st event,
            event = Scenario.roleDeployed Scenario.stack111 "FAILED" ∧ st = "FAILED" ∨
            event = Scenario.statusOnly Scenario.stack111 "CURRENT" ∧ st = "CURRENT" →
            table (run [ToStacksetStatus "t4" event]
                     (Scenario.world {[ Scenario.t1_key := Scenario.ready_item ]}))
              !! Scenario.t1_key
            = Some (<["LastModified" := "t4"]>
                   (<["PageSuiteRoleStatus" := st]> Scenario.ready_item)))
    by (intros st event [[-> ->]|[-> ->]]; vm_compute; reflexivity).
  split; [|split; [|split; [|split]]].
  - intros k a. simpl. intros [<- <-]%lookup_singleton_Some. reflexivity.
  - eexists. split; [apply (E "FAILED"); by left|]. split; reflexivity.
  - intros H. specialize (H _ _ (E "FAILED" _ (or_introl (conj eq_refl eq_refl)))).
    discriminate H.
  - eexists. split; [apply (E "CURRENT"); by right|]. split; reflexivity.
  - intros H. specialize (H _ _ (E "CURRENT" _ (or_intror (conj eq_refl eq_refl)))).
    discriminate H.
Qed.

(** ** The account identifier and the account name *)

Ltac sets_lookup :=
  unfold apply_sets; simpl;
  repeat (rewrite lookup_insert_ne by done); rewrite ?lookup_insert_eq.

Lemma update_item_cases (t : Table) (k k' : Key) (sets : Sets) (a : Attrs) :
  t !! k' = Some a →
  ∃ a' : Attrs,
    update_item k sets t !! k' = Some a' ∧
    (a' = a ∨ (k = k' ∧ a' = apply_sets sets a)).
Proof.
  intros Hk'. destruct (decide (k = k')) as [<-|Hne].
  - rewrite update_item_lookup, Hk'. simpl. eauto.
  - rewrite update_item_lookup_ne by done. eauto.
Qed.

Lemma nonempty_Some (v : string) : v ≠ "" → nonempty (Some v).
Proof. intros H. unfold nonempty, Js.falsy. by apply String.eqb_neq. Qed.

(** C5 (as the handlers implement it). No delivery removes a record.
    [AwsAccountName] keeps its value, or the delivery is a provisioning
    event and the attribute is now the account name of that event (the
    empty string when the event has no [AccountName] parameter);
    [AwsAccountId] keeps its value, or the delivery is an account-creation
    event and the attribute is now the account identifier of that event
    (the empty string when the event has none).  So a role-deployment
    event changes neither, a provisioning event does not change the
    identifier, an account-creation event does not change the name, and a
    non-empty attribute stays non-empty unless the signal itself carries
    an empty value for it. *)
Theorem identifiers_kept d w (k : Key) (a : Attrs) :
  table w !! k = Some a →
  ∃ a' : Attrs,
    table (deliver d w).2 !! k = Some a' ∧
    (a' !! "AwsAccountName" = a !! "AwsAccountName" ∨
     ∃ n, signal_accountName d = Some n ∧ a' !! "AwsAccountName" = Some n) ∧
    (a' !! "AwsAccountId" = a !! "AwsAccountId" ∨
     ∃ i, signal_accountId d = Some i ∧ a' !! "AwsAccountId" = Some i) ∧
    (carries_accountName d →
       nonempty (a !! "AwsAccountName") → nonempty (a' !! "AwsAccountName")) ∧
    (carries_accountId d →
       nonempty (a !! "AwsAccountId") → nonempty (a' !! "AwsAccountId")).
Proof.
  intros Hk. destruct d as [now event|now event|now event]; simpl.
  - destruct (provision_effect now event w)
      as [[-> _]|(d & Hd & _ & [->| ->])]; eauto 10.
    destruct (update_item_cases (table w)
      ("PS#" +:+ Js.tpl (Signal.psAccountId d),
       "ENV#" +:+ Js.tpl (Signal.environment d)) k
      [("AwsAccountStatus", Signal.accountStatus d);
       ("AwsAccountName", Signal.provisionedName d); ("LastModified", now)]
      a Hk) as (a' & -> & [->|[_ ->]]); eauto 10.
    eexists; split; [done|]. rewrite Hd. simpl. split; [|split; [|split]].
    + right. eexists; split; [done|]. by sets_lookup.
    + left. by sets_lookup.
    + intros Hc _. sets_lookup. apply nonempty_Some. by apply Hc.
    + intros _. by sets_lookup.
  - destruct (account_effect now event w)
      as [[-> _]|(d & k0 & a0 & Hd & _ & _ & [->| ->])]; eauto 10.
    destruct (update_item_cases (table w) k0 k
      [("AwsAccountId", Signal.awsAccountId d);
       ("AwsAccountStatus", Signal.awsAccountStatus d); ("LastModified", now)]
      a Hk) as (a' & -> & [->|[_ ->]]); eauto 10.
    eexists; split; [done|]. rewrite Hd. simpl. split; [|split; [|split]].
    + left. by sets_lookup.
    + right. eexists; split; [done|]. by sets_lookup.
    + intros _. by sets_lookup.
    + intros Hc _. sets_lookup. apply nonempty_Some. by apply Hc.
  - destruct (stackset_effect now event w)
      as [[-> _]|(d & n & k0 & a0 & _ & _ & _ & _ & _ & [->| ->])]; eauto 10.
    match goal with
    | |- context [update_item k0 ?sets (table w)] =>
        destruct (update_item_cases (table w) k0 k sets a Hk)
          as (a' & -> & [->|[_ ->]]); eauto 10
    end.
    eexists; split; [done|].
    destruct (String.eqb _ "READY").
    all: split; [|split; [|split]]; try left; try intros _; by sets_lookup.
Qed.

Lemma identifiers_kept_witness :
  let d := ToProvisionProduct "t1"
             (Scenario.provisionRequested "CREATED" Scenario.name_n1) in
  ∃ a' : Attrs,
    table (deliver d (Scenario.world {[ Scenario.t1_key := Scenario.ready_item ]})).2
      !! Scenario.t1_key = Some a' ∧
    (a' !! "AwsAccountName" = Scenario.ready_item !! "AwsAccountName" ∨
     ∃ n, signal_accountName d = Some n ∧ a' !! "AwsAccountName" = Some n) ∧
    (a' !! "AwsAccountId" = Scenario.ready_item !! "AwsAccountId" ∨
     ∃ i, signal_accountId d = Some i ∧ a' !! "AwsAccountId" = Some i) ∧
    (carries_accountName d →
     nonempty (Scenario.ready_item !! "AwsAccountName") →
     nonempty (a' !! "AwsAccountName")) ∧
    (carries_accountId d →
     nonempty (Scenario.ready_item !! "AwsAccountId") →
     nonempty (a' !! "AwsAccountId")).
Proof.
  apply (identifiers_kept
           (ToProvisionProduct "t1"
              (Scenario.provisionRequested "CREATED" Scenario.name_n1))
           (Scenario.world {[ Scenario.t1_key := Scenario.ready_item ]})
           Scenario.t1_key Scenario.ready_item).
  reflexivity.
Defined.

(** C5 (as the spec words it) fails on both attributes: a provisioning
    event without an [AccountName] parameter overwrites the account name
    "n1" with the empty string, and an account-creation event without an
    [accountId] overwrites the account identifier "111" with the empty
    string. *)
Lemma identifiers_emptied :
  let w := Scenario.world {[ Scenario.t1_key := Scenario.ready_item ]} in
  let w1 := (deliver (ToProvisionProduct "t4"
                        (Scenario.provisionRequested "CREATED" [])) w).2 in
  let w2 := (deliver (ToCreateAccount "t4"
                        (Scenario.accountCreated None "n1" "FAILED")) w).2 in
  (table w !! Scenario.t1_key ≫= (.!! "AwsAccountName")) = Some "n1" ∧
  (table w1 !! Scenario.t1_key ≫= (.!! "AwsAccountName")) = Some "" ∧
  (table w !! Scenario.t1_key ≫= (.!! "AwsAccountId")) = Some "111" ∧
  (table w2 !! Scenario.t1_key ≫= (.!! "AwsAccountId")) = Some "".
Proof. repeat split; vm_compute; reflexivity. Qed.

(** ** Correlation through the account name *)

Lemma scan_items_singleton (n : string) (t : Table) (k : Key) (a : Attrs) :
  scan_items "AwsAccountName" n t = [(k, a)] →
  t !! k = Some a ∧ a !! "AwsAccountName" = Some n.
Proof.
  intros Hscan.
  assert (E : (k, a) ∈ scan_items "AwsAccountName" n t)
    by (rewrite Hscan; apply elem_of_cons; by left).
  apply scan_items_elem in E as [Hk Hm]. by apply matches_name in Hm.
Qed.



(** The redelivery, evaluated: lookup and scan are the only requests, and
    the handler says it skipped the update. *)
Example ready_redelivery_trace :
  let w := Scenario.world {[ Scenario.t1_key := Scenario.ready_item ]} in
  let r := StacksetStatus.handler "t4"
             (Scenario.roleDeployed Scenario.stack111 "SUCCEEDED") w in
  r.1 = Ok () ∧
  calls r.2 = [DescribeAccountCommand (Some "111");
               ScanCommand "AwsAccountName" "n1"] ∧
  last (console r.2) = Some (LOG, RoleAlreadyDeployed "PS#t1" "ENV#Dev").
Proof. repeat split; vm_compute; reflexivity. Qed.

(** On a table of one page, where the scan returns every match: with two
    (or more) records sharing an account name, an account-creation or
    role-deployment signal correlated through that name sends no write
    request and leaves the table as it is; when the services answer, the
    last thing the invocation does is report that it found several items
    where it expected exactly one. *)
Theorem ambiguous_correlation_withheld d w n (k1 k2 : Key) (a1 a2 : Attrs) :
  k1 ≠ k2 →
  table w !! k1 = Some a1 → a1 !! "AwsAccountName" = Some n →
  table w !! k2 = Some a2 → a2 !! "AwsAccountName" = Some n →
  references w d n →
  let w' := (deliver d w).2 in
  table w' = table w ∧
  writes w' = writes w ∧
  (answered 2 w = true →
   (2 ≤ length (scan_items "AwsAccountName" n (table w)))%nat ∧
   last (console w') =
     Some (ERROR, FoundManyItems
                    (length (scan_items "AwsAccountName" n (table w))) n)).
Proof.
  intros Hne H1 Hn1 H2 Hn2 Href.
  pose proof (scan_items_shared n (table w) k1 k2 a1 a2 Hne H1 Hn1 H2 Hn2) as Hmany.
  destruct d as [now event|now event|now event]; simpl in *; [done| |].
  - destruct Href as ([Hsrc Hname] & d & Hd & <-).
    rewrite Hd in Hname. simpl in Hname.
    assert (Hfx : table (CreateAccount.handler now event w).2 = table w ∧
                  writes (CreateAccount.handler now event w).2 = writes w).
    { destruct (account_effect now event w)
        as [?|(d' & k & a & Hd' & Hscan & _)]; [done|].
      assert (d' = d) as -> by congruence.
      rewrite Hscan in Hmany. simpl in Hmany. lia. }
    destruct Hfx as [Ht Hw]. do 2 (split; [done|]).
    intros Hans. split; [done|].
    unfold CreateAccount.handler, CreateAccount.handleCreateManagedAccount.
    unfold_views. unfold_M. simpl.
    rewrite Hsrc, Hd. simpl. rewrite Hname. simpl.
    use_answered Hans.
    all: destruct (scan_items "AwsAccountName" _ (table w))
           as [|i1 [|i2 rest]]; simpl in *; try lia.
    all: by rewrite last_snoc.
  - destruct Href as ([Hsrc Hty] & d & Hd & Hlen & Hn).
    assert (Hfx : table (StacksetStatus.handler now event w).2 = table w ∧
                  writes (StacksetStatus.handler now event w).2 = writes w).
    { destruct (stackset_effect now event w)
        as [?|(d' & n' & k & a & Hd' & Hn' & Hscan & _)]; [done|].
      assert (d' = d) as -> by congruence.
      assert (n' = n) as -> by congruence.
      rewrite Hscan in Hmany. simpl in Hmany. lia. }
    destruct Hfx as [Ht Hw]. do 2 (split; [done|]).
    intros Hans. split; [done|].
    unfold StacksetStatus.handler, StacksetStatus.handleStackSetInstanceStatusChange.
    unfold_views. unfold_M. simpl in *.
    rewrite Hsrc, Hty, Hd. simpl.
    apply Nat.ltb_ge in Hlen. rewrite Hlen. simpl.
    destruct (option_bind _ _ Name _) as [n'|] eqn:Hn'; [|done].
    destruct (String.eqb n' "") eqn:Hne'; [done|]. injection Hn as ->.
    use_answered Hans; rewrite Hn'; simpl; rewrite Hne'; simpl.
    all: destruct (scan_items "AwsAccountName" _ (table w))
           as [|i1 [|i2 rest]]; simpl in *; try lia.
    all: by rewrite last_snoc.
Qed.

Lemma ambiguous_correlation_withheld_witness :
  let d := ToStacksetStatus "t4" (Scenario.roleDeployed Scenario.stack111 "SUCCEEDED") in
  let w := Scenario.world Scenario.clash in
  let w' := (deliver d w).2 in
  table w' = table w ∧
  writes w' = writes w ∧
  (answered 2 w = true →
   (2 ≤ length (scan_items "AwsAccountName" "n1" (table w)))%nat ∧
   last (console w') =
     Some (ERROR, FoundManyItems
                    (length (scan_items "AwsAccountName" "n1" (table w))) "n1")).
Proof.
  apply (ambiguous_correlation_withheld
           (ToStacksetStatus "t4" (Scenario.roleDeployed Scenario.stack111 "SUCCEEDED"))
           (Scenario.world Scenario.clash) "n1"
           Scenario.t1_key Scenario.t2_key
           Scenario.ready_item Scenario.ready_item).
  - discriminate.
  - vm_compute; reflexivity.
  - reflexivity.
  - vm_compute; reflexivity.
  - reflexivity.
  - split; [split; reflexivity|].
    exists (Scenario.stackSetDetail Scenario.stack111 "SUCCEEDED").
    split; [reflexivity|]. split; [vm_compute; lia | reflexivity].
Defined.

(** The same for the account-creation function, evaluated. *)
Example ambiguous_account_created :
  let d := ToCreateAccount "t4" (Scenario.accountCreated (Some "111") "n1" "SUCCEEDED") in
  let w' := (deliver d (Scenario.world Scenario.clash)).2 in
  table w' = Scenario.clash ∧
  calls w' = [ScanCommand "AwsAccountName" "n1"] ∧
  last (console w') = Some (ERROR, FoundManyItems 2 "n1").
Proof. repeat split; vm_compute; reflexivity. Qed.

(** ** Scans that stop at the first page *)

Ltac unfold_paged :=
  unfold Paged.CreateAccount.handler,
         Paged.CreateAccount.handleCreateManagedAccount,
         Paged.StacksetStatus.handler,
         Paged.StacksetStatus.handleStackSetInstanceStatusChange,
         Paged.dynamo_scan.

(** A table that fits in the page is scanned whole. *)
Lemma scan_page_all (limit : nat) (a v : string) (t : Table) :
  (size t ≤ limit)%nat → Paged.scan_page limit a v t = scan_items a v t.
Proof.
  intros H. unfold Paged.scan_page, scan_items.
  rewrite take_ge; [done|]. by rewrite length_map_to_list.
Qed.

(** What the page returns is in the table and satisfies the filter. *)
Lemma scan_page_elem (limit : nat) (a v : string) (t : Table) (item : Item) :
  item ∈ Paged.scan_page limit a v t → item ∈ scan_items a v t.
Proof.
  unfold Paged.scan_page, scan_items.
  rewrite !list_elem_of_In, !List.filter_In, <- !list_elem_of_In.
  intros [Hin Hm]. split; [|done].
  eapply subseteq_take, Hin.
Qed.

(** On a table of one page the handlers are the ones of [CreateAccount]
    and [StacksetStatus]. *)
Lemma paged_account_one_page limit now event w :
  (size (table w) ≤ limit)%nat →
  Paged.CreateAccount.handler limit now event w
  = CreateAccount.handler now event w.
Proof.
  intros Hfit. unfold_paged.
  unfold CreateAccount.handler, CreateAccount.handleCreateManagedAccount.
  unfold_M. simpl.
  destruct (String.eqb (source event) _); simpl.
  all: destruct (detail event) as [d|]; simpl; [|done..].
  all: try destruct (Js.strict_eq (ca_eventName d) _); simpl; try done.
  by rewrite scan_page_all.
Qed.

Lemma paged_stackset_one_page limit now event w :
  (size (table w) ≤ limit)%nat →
  Paged.StacksetStatus.handler limit now event w
  = StacksetStatus.handler now event w.
Proof.
  intros Hfit. unfold_paged.
  unfold StacksetStatus.handler, StacksetStatus.handleStackSetInstanceStatusChange.
  unfold_M. simpl.
  destruct (_ && _); simpl; [|done].
  destruct (detail event) as [d|]; simpl; [|done].
  destruct (Nat.ltb _ 5); simpl; [done|].
  destruct (faults w) as [|[?|] ?]; simpl; [|done|].
  all: destruct (option_bind _ _ Name _) as [n|]; simpl; [|done].
  all: destruct (String.eqb n ""); simpl; [done|].
  all: by rewrite scan_page_all.
Qed.

(** The handlers decide on the page alone: one match in the page and the
    update is sent, whatever the rest of the table holds. *)
Lemma paged_account_applies limit now event d k a w :
  is_CreateManagedAccount event →
  detail event = Some d →
  Paged.scan_page limit "AwsAccountName" (Signal.createdName d) (table w)
    = [(k, a)] →
  answered 2 w = true →
  let r := Paged.CreateAccount.handler limit now event w in
  let sets := [("AwsAccountId", Signal.awsAccountId d);
               ("AwsAccountStatus", Signal.awsAccountStatus d);
               ("LastModified", now)] in
  r.1 = Ok () ∧
  table r.2 = update_item k sets (table w) ∧
  writes r.2 = (writes w ++ [UpdateCommand k sets])%list.
Proof.
  intros [Hsrc Hname] Hd Hscan Hans. rewrite Hd in Hname. simpl in Hname.
  unfold_paged. unfold_views. unfold_M. simpl.
  rewrite Hsrc, Hd. simpl. rewrite Hname. simpl.
  destruct k as [pk sk].
  use_answered Hans; rewrite Hscan; simpl.
  all: repeat split; norm_writes; done.
Qed.

Lemma paged_stackset_applies limit now event d n k a w :
  is_StackSetStatusChange event →
  detail event = Some d →
  (5 ≤ length (Signal.stackIdParts d))%nat →
  Signal.resolveAccountName w (Signal.cloudAccountId d) = Some n →
  Paged.scan_page limit "AwsAccountName" n (table w) = [(k, a)] →
  String.eqb (Signal.roleStatus d) "READY" && role_ready a && has_roleArn a
    = false →
  answered 3 w = true →
  let r := Paged.StacksetStatus.handler limit now event w in
  let sets :=
    if String.eqb (Signal.roleStatus d) "READY"
    then [("PageSuiteRoleArn", StacksetStatus.roleArn (Signal.cloudAccountId d));
          ("PageSuiteRoleStatus", Signal.roleStatus d);
          ("LastModified", now)]
    else [("PageSuiteRoleStatus", Signal.roleStatus d);
          ("LastModified", now)] in
  r.1 = Ok () ∧
  table r.2 = update_item k sets (table w) ∧
  writes r.2 = (writes w ++ [UpdateCommand k sets])%list.
Proof.
  intros [Hsrc Hty] Hd Hlen Hn Hscan Hguard Hans.
  unfold_paged. unfold_views. unfold_M. simpl in *.
  rewrite Hsrc, Hty, Hd. simpl.
  apply Nat.ltb_ge in Hlen. rewrite Hlen. simpl.
  destruct (option_bind _ _ Name _) as [n'|] eqn:Hn'; [|done].
  destruct (String.eqb n' "") eqn:Hne; [done|]. injection Hn as ->.
  destruct k as [pk sk].
  use_answered Hans; rewrite Hn'; simpl; rewrite Hne; simpl; rewrite Hscan; simpl.
  all: rewrite attr_role_status, attr_role_arn;
       fold (role_ready a); fold (has_roleArn a); rewrite Hguard; simpl.
  all: destruct (String.eqb _ "READY"); simpl.
  all: repeat split; norm_writes; done.
Qed.

(** C3, at a table of more than one page. Tenants t1 and t2 both hold a
    record named "n1"; the page of the scan ends after the first of them.
    The account-creation event and the role-deployment event for "n1"
    each find one item, report nothing, and send their update to the
    record of t1: the second record is never seen. *)
Theorem ambiguity_beyond_first_page_unreported :
  let w := Scenario.world same_name in
  let created :=
    (Paged.CreateAccount.handler 1 "t2"
       (Scenario.accountCreated (Some "111") "n1" "SUCCEEDED") w).2 in
  let deployed :=
    (Paged.StacksetStatus.handler 1 "t3"
       (Scenario.roleDeployed Scenario.stack111 "SUCCEEDED") w).2 in
  (table w !! Scenario.t1_key ≫= (.!! "AwsAccountName")) = Some "n1" ∧
  (table w !! Scenario.t2_key ≫= (.!! "AwsAccountName")) = Some "n1" ∧
  length (scan_items "AwsAccountName" "n1" (table w)) = 2%nat ∧
  Paged.scan_page 1 "AwsAccountName" "n1" (table w)
    = [(Scenario.t1_key, requested_item)] ∧
  calls created
    = [ScanCommand "AwsAccountName" "n1";
       UpdateCommand Scenario.t1_key
         [("AwsAccountId", "111"); ("AwsAccountStatus", "READY");
          ("LastModified", "t2")]] ∧
  console created
    = [(LOG, EventReceived); (LOG, AccountCreationCompleted);
       (LOG, UpdatedAccount "PS#t1" "ENV#Dev" "111" "READY");
       (LOG, AccountCreationProcessed "111" "READY" "n1")] ∧
  (table created !! Scenario.t1_key ≫= (.!! "AwsAccountId")) = Some "111" ∧
  calls deployed
    = [DescribeAccountCommand (Some "111");
       ScanCommand "AwsAccountName" "n1";
       UpdateCommand Scenario.t1_key
         [("PageSuiteRoleArn", "arn:aws:iam::111:role/PageSuiteRole");
          ("PageSuiteRoleStatus", "READY"); ("LastModified", "t3")]] ∧
  console deployed
    = [(LOG, EventReceived); (LOG, StackSetStatusChange);
       (LOG, UpdatedRole "PS#t1" "ENV#Dev" "READY");
       (LOG, StackSetProcessed (Some "111") "n1" "SUCCEEDED" "READY")] ∧
  (table deployed !! Scenario.t1_key ≫= (.!! "PageSuiteRoleStatus"))
    = Some "READY".
Proof. repeat split; vm_compute; reflexivity. Qed.

(** The same table read in one page: both events are withheld. *)
Example ambiguity_within_one_page_reported :
  let w := Scenario.world same_name in
  let created :=
    (Paged.CreateAccount.handler 2 "t2"
       (Scenario.accountCreated (Some "111") "n1" "SUCCEEDED") w).2 in
  let deployed :=
    (Paged.StacksetStatus.handler 2 "t3"
       (Scenario.roleDeployed Scenario.stack111 "SUCCEEDED") w).2 in
  writes created = [] ∧
  last (console created) = Some (ERROR, FoundManyItems 2 "n1") ∧
  writes deployed = [] ∧
  last (console deployed) = Some (ERROR, FoundManyItems 2 "n1").
Proof. repeat split; vm_compute; reflexivity. Qed.

(** ** The frame of a role-status update *)

(** C9. A role-deployment event whose status does not map to [READY],
    correlated to the single record [(k, a)]: the record stays under its
    key, every attribute other than [PageSuiteRoleStatus] and
    [LastModified] keeps its value (absent ones stay absent), every other
    record is untouched, and when the services answer the two attributes
    receive the new status and the time of the write. *)
Theorem role_status_update_frame now event d n (k : Key) (a : Attrs) w :
  is_StackSetStatusChange event →
  detail event = Some d →
  (5 ≤ length (Signal.stackIdParts d))%nat →
  Signal.resolveAccountName w (Signal.cloudAccountId d) = Some n →
  scan_items "AwsAccountName" n (table w) = [(k, a)] →
  Signal.roleStatus d ≠ "READY" →
  let w' := (StacksetStatus.handler now event w).2 in
  ∃ a' : Attrs,
    table w' !! k = Some a' ∧
    (∀ x : string,
       x ≠ "PageSuiteRoleStatus" → x ≠ "LastModified" → a' !! x = a !! x) ∧
    (∀ k' : Key, k' ≠ k → table w' !! k' = table w !! k') ∧
    (answered 3 w = true →
     a' !! "PageSuiteRoleStatus" = Some (Signal.roleStatus d) ∧
     a' !! "LastModified" = Some now).
Proof.
  intros Hev Hd Hlen Hn Hscan Hrs. simpl.
  pose proof Hscan as [Hk Hname]%scan_items_singleton.
  apply String.eqb_neq in Hrs.
  assert (Hguard : String.eqb (Signal.roleStatus d) "READY"
                   && role_ready a && has_roleArn a = false) by by rewrite Hrs.
  set (sets := [("PageSuiteRoleStatus", Signal.roleStatus d); ("LastModified", now)]).
  assert (Hframe : ∀ x : string, x ≠ "PageSuiteRoleStatus" → x ≠ "LastModified" →
                     apply_sets sets a !! x = a !! x).
  { intros x H1 H2. unfold sets. sets_lookup. done. }
  destruct (decide (answered 3 w = true)) as [Hans|Hans].
  - destruct (stackset_applies now event d n k a w Hev Hd Hlen Hn Hscan Hguard Hans)
      as (_ & Ht & _). simpl in Ht. rewrite Hrs in Ht. rewrite Ht.
    exists (apply_sets sets a). rewrite update_item_lookup, Hk. simpl.
    split; [done|]. split; [done|]. split.
    + intros k' Hk'. by rewrite update_item_lookup_ne.
    + intros _. unfold sets. by sets_lookup.
  - destruct (stackset_effect now event w)
      as [[-> _]|(d' & n' & k' & a'' & Hd' & Hn' & Hscan' & _ & _ & [->|Ht])].
    + exists a. done.
    + exists a. done.
    + assert (d' = d) as -> by congruence.
      assert (n' = n) as -> by congruence.
      assert (k' = k ∧ a'' = a) as [-> ->] by (split; congruence).
      simpl in Ht. rewrite Hrs in Ht. rewrite Ht.
      exists (apply_sets sets a). rewrite update_item_lookup, Hk. simpl.
      split; [done|]. split; [done|]. split; [|done].
      intros k' Hk'. by rewrite update_item_lookup_ne.
Qed.

Lemma role_status_update_frame_witness :
  let w := Scenario.world {[ Scenario.t1_key := Scenario.ready_item ]} in
  let w' := (StacksetStatus.handler "t4"
               (Scenario.roleDeployed Scenario.stack111 "FAILED") w).2 in
  ∃ a' : Attrs,
    table w' !! Scenario.t1_key = Some a' ∧
    (∀ x : string,
       x ≠ "PageSuiteRoleStatus" → x ≠ "LastModified" →
       a' !! x = Scenario.ready_item !! x) ∧
    (∀ k' : Key, k' ≠ Scenario.t1_key → table w' !! k' = table w !! k') ∧
    (answered 3 w = true →
     a' !! "PageSuiteRoleStatus" = Some "FAILED" ∧
     a' !! "LastModified" = Some "t4").
Proof.
  apply (role_status_update_frame "t4"
           (Scenario.roleDeployed Scenario.stack111 "FAILED")
           (Scenario.stackSetDetail Scenario.stack111 "FAILED")
           "n1" Scenario.t1_key Scenario.ready_item
           (Scenario.world {[ Scenario.t1_key := Scenario.ready_item ]})).
  - split; reflexivity.
  - reflexivity.
  - vm_compute; lia.
  - reflexivity.
  - vm_compute; reflexivity.
  - discriminate.
Defined.

(** ** Creation of the link entry *)

Lemma creation_condition_fails (k : Key) (a : Attrs) :
  eval_cond (AND (attribute_not_exists "PK") (attribute_not_exists "SK"))
            (Some (k, a)) = false.
Proof. reflexivity. Qed.

(** C8. When the table already holds a record under
    [(PS#id, ENV#Dev)], the creation script run for that [id] fails (its
    promise is rejected) and the table is unchanged; when DynamoDB answers
    the request, the failure is the conditional check of the put. *)
Theorem creation_never_overwrites id now w (a : Attrs) :
  table w !! ("PS#" +:+ id, "ENV#Dev") = Some a →
  let r := AccountCreation.main id now w in
  (∃ e, r.1 = Throw e) ∧
  table r.2 = table w ∧
  (answered 1 w = true → r.1 = Throw "ConditionalCheckFailedException").
Proof.
  intros Hk. unfold AccountCreation.main. unfold_M. simpl.
  change ("ENV#" +:+ "Dev") with "ENV#Dev".
  rewrite Hk. simpl.
  destruct (faults w) as [|[e|] fs] eqn:Hf; simpl.
  - eauto.
  - split; [eauto|]. split; [done|]. unfold answered. by rewrite Hf.
  - eauto.
Qed.

Lemma creation_never_overwrites_witness :
  let r := AccountCreation.main "t1" "t9" (Scenario.world Scenario.created) in
  (∃ e, r.1 = Throw e) ∧
  table r.2 = Scenario.created ∧
  (answered 1 (Scenario.world Scenario.created) = true →
   r.1 = Throw "ConditionalCheckFailedException").
Proof.
  apply (creation_never_overwrites "t1" "t9" (Scenario.world Scenario.created)
           (AccountCreation.initial_item "t0")).
  vm_compute; reflexivity.
Defined.

(** On a free key the put goes through and stores the PENDING/PENDING entry. *)
Lemma creation_inserts id now w :
  table w !! ("PS#" +:+ id, "ENV#Dev") = None →
  answered 1 w = true →
  table (AccountCreation.main id now w).2 =
    <[("PS#" +:+ id, "ENV#Dev") := AccountCreation.initial_item now]> (table w).
Proof.
  intros Hk Hans. unfold AccountCreation.main, AccountCreation.getLatestActiveArtifactId,
    AccountCreation.requestAwsAccount. unfold_M. simpl.
  change ("ENV#" +:+ "Dev") with "ENV#Dev".
  rewrite Hk. simpl.
  destruct (faults w) as [|[e|] fs] eqn:Hf; simpl.
  - repeat (case_match; simpl in *; simplify_eq; try done).
  - unfold answered in Hans. by rewrite Hf in Hans.
  - repeat (case_match; simpl in *; simplify_eq; try done).
Qed.

(** ** No exception escapes a handler *)

Ltac count_calls :=
  simpl; rewrite ?length_app; simpl;
  repeat match goal with
         | |- context [(?a - ?b)%nat] =>
             first [ replace (a - b)%nat with 0%nat by lia
                   | replace (a - b)%nat with 1%nat by lia
                   | replace (a - b)%nat with 2%nat by lia
                   | replace (a - b)%nat with 3%nat by lia ]
         end;
  simpl.

Ltac reported :=
  split; [done|];
  let e := fresh "e" in
  let He := fresh "He" in
  intros e; count_calls; intros He;
  repeat (apply elem_of_cons in He as [->|He]);
  try (by apply elem_of_nil in He);
  by rewrite last_snoc.

(** C10. Whenever the event has a [detail] object, the promise of each of
    the three handlers resolves; and any exception a request threw during
    the invocation is the last thing reported on the console, by the
    [catch] block of the function. *)
Theorem handlers_never_reject d w :
  has_detail d →
  let r := deliver d w in
  r.1 = Ok () ∧
  ∀ e, e ∈ thrown w r.2 → last (console r.2) = Some (caught d e).
Proof.
  unfold thrown.
  destruct d as [now event|now event|now event]; simpl; intros [d Hd].
  - unfold ProvisionProduct.handler, ProvisionProduct.handleProvisionProduct.
    unfold_M. simpl. rewrite Hd. simpl.
    destruct (String.eqb (source event) _); simpl; [|reported].
    destruct (Js.strict_eq (pp_eventName d) _); simpl; [|reported].
    destruct (Js.falsy _ || Js.falsy _); simpl; [reported|].
    cases_faults w; reported.
  - unfold CreateAccount.handler, CreateAccount.handleCreateManagedAccount.
    unfold_M. simpl. rewrite Hd. simpl.
    destruct (String.eqb (source event) _); simpl; [|reported].
    destruct (Js.strict_eq (ca_eventName d) _); simpl; [|reported].
    cases_faults w; try reported.
    all: destruct (scan_items "AwsAccountName" _ (table w))
           as [|i1 [|i2 rest]]; simpl; reported.
  - unfold StacksetStatus.handler, StacksetStatus.handleStackSetInstanceStatusChange.
    unfold_M. simpl. rewrite Hd. simpl.
    destruct (_ && _); simpl; [|reported].
    destruct (Nat.ltb _ 5); simpl; [reported|].
    cases_faults w; try reported.
    all: destruct (option_bind _ _ Name _) as [n|]; simpl; [|reported].
    all: destruct (String.eqb n ""); simpl; try reported.
    all: destruct (scan_items "AwsAccountName" n (table w))
           as [|i1 [|i2 rest]]; simpl; try reported.
    all: destruct (_ && _ && _); simpl; reported.
Qed.

Lemma handlers_never_reject_witness :
  let d := ToStacksetStatus "t3" (Scenario.roleDeployed Scenario.stack111 "SUCCEEDED") in
  let w := Scenario.faulty Scenario.created [None; Some "ThrottlingException"] in
  let r := deliver d w in
  r.1 = Ok () ∧
  ∀ e, e ∈ thrown w r.2 → last (console r.2) = Some (caught d e).
Proof.
  apply (handlers_never_reject
           (ToStacksetStatus "t3" (Scenario.roleDeployed Scenario.stack111 "SUCCEEDED"))
           (Scenario.faulty Scenario.created [None; Some "ThrottlingException"])).
  simpl. by eexists.
Defined.

(** A scan that throws, evaluated: the exception is caught and reported. *)
Example throttled_scan_is_reported :
  let d := ToStacksetStatus "t3" (Scenario.roleDeployed Scenario.stack111 "SUCCEEDED") in
  let w := Scenario.faulty Scenario.created [None; Some "ThrottlingException"] in
  let r := deliver d w in
  r.1 = Ok () ∧
  thrown w r.2 = ["ThrottlingException"] ∧
  last (console r.2) = Some (ERROR, ErrorHandlingStackSet "ThrottlingException") ∧
  table r.2 = Scenario.created.
Proof. repeat split; vm_compute; reflexivity. Qed.

(** Without a [detail] the provisioning and account-creation handlers
    reject, reading [eventName] of [undefined] outside their [try]. *)
Example missing_detail_rejects :
  let w := Scenario.world Scenario.created in
  (ProvisionProduct.handler "t1"
     {| source := "aws.servicecatalog"; detail_type := ""; detail := None |} w).1
    = Throw "TypeError" ∧
  (CreateAccount.handler "t1"
     {| source := "aws.controltower"; detail_type := ""; detail := None |} w).1
    = Throw "TypeError".
Proof. split; reflexivity. Qed.

(** The StackSet handler reads [detail] only inside its [try]. *)
Example stackset_missing_detail_resolves :
  let w := Scenario.world Scenario.created in
  let r := StacksetStatus.handler "t1"
     {| source := "aws.cloudformation";
        detail_type := "CloudFormation StackSet StackInstance Status Change";
        detail := None |} w in
  r.1 = Ok () ∧
  last (console r.2) = Some (ERROR, ErrorHandlingStackSet "TypeError").
Proof. split; reflexivity. Qed.

(** ** The end-to-end scenario *)

Lemma answered_le n m w : (n ≤ m)%nat → answered m w = true → answered n w = true.
Proof.
  unfold answered. rewrite !forallb_forall. intros Hle H x Hx. apply H.
  apply list_elem_of_In. apply list_elem_of_In in Hx.
  apply list_elem_of_lookup in Hx as [i Hi].
  apply list_elem_of_lookup. exists i.
  apply lookup_take_Some in Hi as [Hi Hlt].
  rewrite lookup_take_lt by lia. done.
Qed.

Lemma answered_drop n m w w' :
  faults w' = drop n (faults w) →
  answered (n + m) w = true → answered m w' = true.
Proof.
  unfold answered. rewrite !forallb_forall. intros -> H x Hx. apply H.
  apply list_elem_of_In. apply list_elem_of_In in Hx.
  apply list_elem_of_lookup in Hx as [i Hi].
  apply lookup_take_Some in Hi as [Hi Hlt]. rewrite lookup_drop in Hi.
  apply list_elem_of_lookup. exists (n + i)%nat.
  rewrite lookup_take_lt by lia. done.
Qed.

(** The name stays unique when the record that has it is updated. *)
Lemma unique_name_update (t : Table) (k : Key) (sets : Sets) (n : string) :
  (∀ (k' : Key) (a' : Attrs),
     k' ≠ k → t !! k' = Some a' → a' !! "AwsAccountName" ≠ Some n) →
  ∀ (k' : Key) (a' : Attrs),
    k' ≠ k → update_item k sets t !! k' = Some a' →
    a' !! "AwsAccountName" ≠ Some n.
Proof.
  intros H k' a' Hne. rewrite update_item_lookup_ne by done. by apply H.
Qed.



(** * Further properties of the handlers *)

(** ** A delivery is all or nothing *)

Ltac drop_count :=
  first [ exists 0%nat; split; [lia | reflexivity]
        | exists 1%nat; split; [lia | reflexivity]
        | exists 2%nat; split; [lia | reflexivity]
        | exists 3%nat; split; [lia | reflexivity] ].

Ltac settle :=
  split; [by auto|]; split; [done|]; split; [done|]; drop_count.

(** The table after a delivery is the table before or [transition]; it is
    [transition] when the requests are answered.  The directory is not
    touched and at most three entries of the fault schedule are used. *)
Lemma deliver_table d w :
  let w' := (deliver d w).2 in
  (table w' = table w ∨ table w' = transition d w) ∧
  (answered 3 w = true → table w' = transition d w) ∧
  organizations w' = organizations w ∧
  ∃ m, (m ≤ 3)%nat ∧ faults w' = drop m (faults w).
Proof.
  unfold answered.
  destruct d as [now event|now event|now event]; simpl.
  - unfold ProvisionProduct.handler, ProvisionProduct.handleProvisionProduct.
    unfold_views. unfold_M. simpl.
    destruct (detail event) as [d|] eqn:Hd; simpl.
    2:{ destruct (String.eqb (source event) _); simpl; settle. }
    destruct (String.eqb (source event) _); simpl; [|settle].
    destruct (Js.strict_eq (pp_eventName d) _); simpl; [|settle].
    destruct (Js.falsy _ || Js.falsy _) eqn:Hvalid; simpl; [settle|].
    cases_faults w; settle.
  - unfold CreateAccount.handler, CreateAccount.handleCreateManagedAccount.
    unfold_views. unfold_M. simpl.
    destruct (detail event) as [d|] eqn:Hd; simpl.
    2:{ destruct (String.eqb (source event) _); simpl; settle. }
    destruct (String.eqb (source event) _); simpl; [|settle].
    destruct (Js.strict_eq (ca_eventName d) _); simpl; [|settle].
    cases_faults w.
    all: destruct (scan_items "AwsAccountName" _ (table w))
           as [|[[pk sk] a] [|i2 rest]] eqn:Hscan; simpl; unfold PK, SK; simpl.
    all: settle.
  - unfold StacksetStatus.handler, StacksetStatus.handleStackSetInstanceStatusChange.
    unfold_views. unfold_M. simpl.
    destruct (detail event) as [d|] eqn:Hd; simpl.
    2:{ destruct (_ && _); simpl; settle. }
    destruct (String.eqb (source event) _ && _) eqn:Hev; simpl; [|settle].
    destruct (Nat.ltb _ 5) eqn:Hlen; simpl; [settle|].
    cases_faults w.
    all: destruct (option_bind _ _ Name _) as [n|] eqn:Hn; simpl; [|settle].
    all: destruct (String.eqb n "") eqn:Hne; simpl; [settle|].
    all: destruct (scan_items "AwsAccountName" n (table w))
           as [|[[pk sk] a] [|i2 rest]] eqn:Hscan; simpl; unfold PK, SK; simpl.
    all: try settle.
    all: rewrite ?attr_role_status, ?attr_role_arn;
         fold (role_ready a); fold (has_roleArn a).
    all: destruct (_ && role_ready a && has_roleArn a) eqn:Hguard; simpl.
    all: settle.
Qed.

(** ** Redelivery *)

Lemma apply_sets_lookup_in (sets : Sets) (x : string) :
  x ∈ sets.*1 → ∃ v : string, ∀ a : Attrs, apply_sets sets a !! x = Some v.
Proof.
  unfold apply_sets.
  induction sets as [|[y v] sets IH]; simpl; intros Hx.
  - by apply elem_of_nil in Hx.
  - destruct (decide (x ∈ sets.*1)) as [Hin|Hout].
    + destruct (IH Hin) as [v' Hv']. exists v'. intros a. apply Hv'.
    + apply elem_of_cons in Hx as [->|Hx]; [|done].
      exists v. intros a.
      pose proof (apply_sets_lookup_other sets (<[y:=v]> a) y Hout) as E.
      unfold apply_sets in E. rewrite E. apply lookup_insert_eq.
Qed.

Lemma apply_sets_idem (sets : Sets) (a : Attrs) :
  apply_sets sets (apply_sets sets a) = apply_sets sets a.
Proof.
  apply map_eq. intros x.
  destruct (decide (x ∈ sets.*1)) as [Hin|Hout].
  - destruct (apply_sets_lookup_in sets x Hin) as [v Hv]. by rewrite !Hv.
  - by rewrite !apply_sets_lookup_other.
Qed.

Lemma update_item_idem (k : Key) (sets : Sets) (t : Table) :
  update_item k sets (update_item k sets t) = update_item k sets t.
Proof.
  unfold update_item. rewrite lookup_insert_eq. simpl.
  rewrite apply_sets_idem. apply insert_insert_eq.
Qed.

Lemma scan_items_singleton_others (n : string) (t : Table) (k : Key) (a : Attrs) :
  scan_items "AwsAccountName" n t = [(k, a)] →
  ∀ (k' : Key) (a' : Attrs),
    k' ≠ k → t !! k' = Some a' → a' !! "AwsAccountName" ≠ Some n.
Proof.
  intros Hscan k' a' Hne Hk' Hn.
  assert (E : (k', a') ∈ scan_items "AwsAccountName" n t)
    by (apply scan_items_elem; split; [done | by apply matches_name]).
  rewrite Hscan in E. apply list_elem_of_singleton in E. congruence.
Qed.

(** Updating the scanned record without assigning its name leaves it the
    only record of that name. *)
Lemma scan_items_update (n : string) (t : Table) (k : Key) (a : Attrs) (sets : Sets) :
  scan_items "AwsAccountName" n t = [(k, a)] →
  "AwsAccountName" ∉ sets.*1 →
  scan_items "AwsAccountName" n (update_item k sets t) = [(k, apply_sets sets a)].
Proof.
  intros Hscan Hsets.
  pose proof (scan_items_singleton n t k a Hscan) as [Hk Hn].
  apply scan_items_unique.
  - by rewrite update_item_lookup, Hk.
  - by rewrite apply_sets_lookup_other.
  - apply unique_name_update. by apply (scan_items_singleton_others n t k a).
Qed.

Lemma transition_idem d w w1 :
  table w1 = transition d w →
  organizations w1 = organizations w →
  transition d w1 = table w1.
Proof.
  intros Ht Ho. destruct d as [now event|now event|now event]; simpl in *.
  - destruct (detail event) as [d|]; [|done].
    destruct (_ && _ && _); [|done].
    rewrite Ht. apply update_item_idem.
  - destruct (detail event) as [d|]; [|done].
    destruct (_ && _); [|done].
    destruct (scan_items "AwsAccountName" _ (table w))
      as [|[k a] [|i2 rest]] eqn:Hscan.
    + by rewrite Ht, Hscan.
    + rewrite Ht.
      rewrite (scan_items_update _ _ _ _ _ Hscan) by not_in_list.
      apply update_item_idem.
    + by rewrite Ht, Hscan.
  - destruct (detail event) as [d|]; [|done].
    destruct (_ && _ && _); [|done].
    unfold Signal.resolveAccountName in *. rewrite Ho.
    destruct (organizations w _ ≫= Name) as [n0|]; [|done].
    destruct (String.eqb n0 ""); [done|].
    destruct (scan_items "AwsAccountName" n0 (table w))
      as [|[k a] [|i2 rest]] eqn:Hscan.
    + by rewrite Ht, Hscan.
    + destruct (_ && role_ready a && has_roleArn a) eqn:Hguard.
      { by rewrite Ht, Hscan, Hguard. }
      rewrite Ht.
      destruct (String.eqb (Signal.roleStatus d) "READY") eqn:Hrs.
      * rewrite (scan_items_update _ _ _ _ _ Hscan) by not_in_list.
        assert (G : role_ready (apply_sets
                     [("PageSuiteRoleArn", StacksetStatus.roleArn (Signal.cloudAccountId d));
                      ("PageSuiteRoleStatus", Signal.roleStatus d);
                      ("LastModified", now)] a) = true
                    ∧ has_roleArn (apply_sets
                     [("PageSuiteRoleArn", StacksetStatus.roleArn (Signal.cloudAccountId d));
                      ("PageSuiteRoleStatus", Signal.roleStatus d);
                      ("LastModified", now)] a) = true).
        { unfold role_ready, has_roleArn. split; sets_lookup.
          - unfold Js.strict_eq. done.
          - by rewrite roleArn_nonempty. }
        destruct G as [-> ->]. done.
      * rewrite (scan_items_update _ _ _ _ _ Hscan) by not_in_list.
        simpl. apply update_item_idem.
    + by rewrite Ht, Hscan.
Qed.

(** X1. Delivering the same event twice in a row (same clock reading,
    requests answered) leaves the table as the first delivery left it. *)
Theorem redelivery_idempotent d w :
  answered 6 w = true →
  table (run [d; d] w) = table (run [d] w).
Proof.
  intros Hans. unfold run. simpl.
  destruct (deliver_table d w) as (_ & Ht & Ho & m & Hm & Hf).
  specialize (Ht (answered_le 3 6 w ltac:(lia) Hans)).
  set (w1 := (deliver d w).2) in *.
  destruct (deliver_table d w1) as (_ & Ht1 & _).
  rewrite Ht1.
  - by apply (transition_idem d w w1).
  - apply (answered_drop m 3 w w1 Hf). apply (answered_le (m + 3) 6 w); [lia|done].
Qed.

Lemma redelivery_idempotent_witness :
  let w := run (take 2 Scenario.signals) (Scenario.world Scenario.created) in
  let d := ToStacksetStatus "t3" (Scenario.roleDeployed Scenario.stack111 "SUCCEEDED") in
  table (run [d; d] w) = table (run [d] w).
Proof.
  apply (redelivery_idempotent
           (ToStacksetStatus "t3" (Scenario.roleDeployed Scenario.stack111 "SUCCEEDED"))
           (run (take 2 Scenario.signals) (Scenario.world Scenario.created))).
  vm_compute; reflexivity.
Defined.

(** ** What a delivery can change *)

(** The update a delivery makes, if it makes one: its key and assignments. *)
Lemma transition_cases d w :
  transition d w = table w ∨
  ∃ (k : Key) (sets : Sets),
    transition d w = update_item k sets (table w) ∧
    (sets.*1 ⊆ assigned d) ∧
    (∀ a : Attrs, apply_sets sets a !! "LastModified" = Some (clock d)) ∧
    (is_Some (table w !! k) ∨
     ∃ now event dd, d = ToProvisionProduct now event ∧ detail event = Some dd ∧
       k = ("PS#" +:+ Js.tpl (Signal.psAccountId dd),
            "ENV#" +:+ Js.tpl (Signal.environment dd))).
Proof.
  destruct d as [now event|now event|now event]; simpl.
  - destruct (detail event) as [d|] eqn:Hd; [|by left].
    destruct (_ && _ && _); [|by left].
    right. eexists _, _. split; [done|]. split; [done|].
    split; [intros a; by sets_lookup|].
    right. by eexists _, _, _.
  - destruct (detail event) as [d|] eqn:Hd; [|by left].
    destruct (_ && _); [|by left].
    destruct (scan_items "AwsAccountName" _ (table w))
      as [|[k a] [|i2 rest]] eqn:Hscan; [by left| |by left].
    apply scan_items_singleton in Hscan as [Hk _].
    right. eexists _, _. split; [done|]. split; [done|].
    split; [intros a0; by sets_lookup|].
    left. by eexists.
  - destruct (detail event) as [d|] eqn:Hd; [|by left].
    destruct (_ && _ && _); [|by left].
    destruct (Signal.resolveAccountName w _) as [n|]; [|by left].
    destruct (scan_items "AwsAccountName" n (table w))
      as [|[k a] [|i2 rest]] eqn:Hscan; [by left| |by left].
    apply scan_items_singleton in Hscan as [Hk _].
    destruct (_ && role_ready a && has_roleArn a); [by left|].
    right. eexists _, _. split; [done|].
    destruct (String.eqb (Signal.roleStatus d) "READY").
    + split; [done|]. split; [intros a0; by sets_lookup|].
      left. by eexists.
    + split; [|split; [intros a0; by sets_lookup|left; by eexists]].
      intros x Hx. simpl in *.
      apply elem_of_cons. right. done.
Qed.

(** X2. A delivery changes at most one record, and on a record that
    exists it changes only attributes that the update expression of its
    function assigns: the provisioning function never touches the account
    identifier or the role attributes, the account-creation function never
    touches the account name or the role attributes, and the StackSet
    function never touches the account attributes. *)
Theorem delivery_frame d w :
  let w' := (deliver d w).2 in
  (∀ (k : Key) (a : Attrs),
     table w !! k = Some a →
     ∃ a' : Attrs,
       table w' !! k = Some a' ∧
       ∀ x : string, x ∉ assigned d → a' !! x = a !! x) ∧
  (∀ k1 k2 : Key,
     table w' !! k1 ≠ table w !! k1 →
     table w' !! k2 ≠ table w !! k2 → k1 = k2).
Proof.
  simpl. destruct (deliver_table d w) as ([Ht|Ht] & _); rewrite Ht.
  { split; [eauto|]. intros k1 k2 H. done. }
  destruct (transition_cases d w) as [->|(k0 & sets & -> & Hsub & _)].
  { split; [eauto|]. intros k1 k2 H. done. }
  split.
  - intros k a Hk.
    destruct (update_item_cases (table w) k0 k sets a Hk)
      as (a' & -> & [->|[_ ->]]); [eauto|].
    eexists. split; [done|]. intros x Hx.
    apply apply_sets_lookup_other. intros Hin. by apply Hx, Hsub.
  - intros k1 k2 H1 H2.
    destruct (decide (k0 = k1)) as [<-|N1];
      [|by rewrite update_item_lookup_ne in H1].
    destruct (decide (k0 = k2)) as [<-|N2];
      [done|by rewrite update_item_lookup_ne in H2].
Qed.

(** X3. Whatever a delivery changes in the table it stamps: a record that
    differs after the delivery has [LastModified] equal to the clock
    reading of that invocation. *)
Theorem changed_records_are_stamped d w (k : Key) :
  let w' := (deliver d w).2 in
  table w' !! k ≠ table w !! k →
  ∃ a' : Attrs,
    table w' !! k = Some a' ∧ a' !! "LastModified" = Some (clock d).
Proof.
  simpl. destruct (deliver_table d w) as ([Ht|Ht] & _); rewrite Ht; [done|].
  destruct (transition_cases d w) as [->|(k0 & sets & -> & _ & Hlm & _)]; [done|].
  intros Hne.
  destruct (decide (k0 = k)) as [<-|N];
    [|by rewrite update_item_lookup_ne in Hne].
  rewrite update_item_lookup. eauto.
Qed.

Lemma changed_records_are_stamped_witness :
  let d := ToCreateAccount "t2" (Scenario.accountCreated (Some "111") "n1" "SUCCEEDED") in
  let w := run (take 1 Scenario.signals) (Scenario.world Scenario.created) in
  ∃ a' : Attrs,
    table (deliver d w).2 !! Scenario.t1_key = Some a' ∧
    a' !! "LastModified" = Some "t2".
Proof.
  apply (changed_records_are_stamped
           (ToCreateAccount "t2" (Scenario.accountCreated (Some "111") "n1" "SUCCEEDED"))
           (run (take 1 Scenario.signals) (Scenario.world Scenario.created))
           Scenario.t1_key).
  intros H. apply (f_equal (λ o, o ≫= (.!! "AwsAccountId"))) in H.
  vm_compute in H. discriminate H.
Defined.

(** X4. Records are never deleted, and only the provisioning function can
    create one, under the key its two tags spell: a key that is absent
    before an account-creation or a StackSet delivery is absent after it. *)
Theorem only_provisioning_creates d w (k : Key) :
  let w' := (deliver d w).2 in
  (is_Some (table w !! k) → is_Some (table w' !! k)) ∧
  (table w !! k = None → is_Some (table w' !! k) →
   ∃ now event dd,
     d = ToProvisionProduct now event ∧ detail event = Some dd ∧
     k = ("PS#" +:+ Js.tpl (Signal.psAccountId dd),
          "ENV#" +:+ Js.tpl (Signal.environment dd))).
Proof.
  simpl. destruct (deliver_table d w) as ([Ht|Ht] & _); rewrite Ht.
  { split; [done|]. intros -> [? ?]. done. }
  destruct (transition_cases d w) as [->|(k0 & sets & -> & _ & _ & Hk0)].
  { split; [done|]. intros -> [? ?]. done. }
  split.
  - intros [a Hk].
    destruct (update_item_cases (table w) k0 k sets a Hk) as (a' & -> & _).
    by eexists.
  - intros Hnone Hsome.
    destruct (decide (k0 = k)) as [<-|N].
    + destruct Hk0 as [[a Ha]|?]; [congruence|done].
    + rewrite update_item_lookup_ne, Hnone in Hsome by done.
      by destruct Hsome.
Qed.

(** ** What the correlated functions write *)

(** X5. An account-creation event correlated to the single record
    [(k, a)], requests answered: the record receives the event's account
    identifier, the state with [SUCCEEDED] remapped to [READY] (any other
    state as it is) and the time of the write. *)
Theorem account_created_write now event d (k : Key) (a : Attrs) w :
  is_CreateManagedAccount event →
  detail event = Some d →
  scan_items "AwsAccountName" (Signal.createdName d) (table w) = [(k, a)] →
  answered 2 w = true →
  let w' := (CreateAccount.handler now event w).2 in
  ∃ a' : Attrs,
    table w' !! k = Some a' ∧
    a' !! "AwsAccountId" = Some (Signal.awsAccountId d) ∧
    (Signal.rawState d = "SUCCEEDED" → a' !! "AwsAccountStatus" = Some "READY") ∧
    (Signal.rawState d ≠ "SUCCEEDED" →
       a' !! "AwsAccountStatus" = Some (Signal.rawState d)) ∧
    a' !! "LastModified" = Some now.
Proof.
  intros Hev Hd Hscan Hans.
  destruct (account_applies now event d k a w Hev Hd Hscan Hans) as (_ & Ht & _).
  simpl. rewrite Ht, update_item_lookup. eexists. split; [done|].
  split; [by sets_lookup|]. split; [|split; [|by sets_lookup]].
  - intros E. sets_lookup. unfold Signal.awsAccountStatus. by rewrite E.
  - intros E. sets_lookup. unfold Signal.awsAccountStatus.
    apply String.eqb_neq in E. by rewrite E.
Qed.

Lemma account_created_write_witness :
  let w := run (take 1 Scenario.signals) (Scenario.world Scenario.created) in
  let w' := (CreateAccount.handler "t2"
               (Scenario.accountCreated (Some "111") "n1" "FAILED") w).2 in
  ∃ a' : Attrs,
    table w' !! Scenario.t1_key = Some a' ∧
    a' !! "AwsAccountId" = Some "111" ∧
    ("FAILED" = "SUCCEEDED" → a' !! "AwsAccountStatus" = Some "READY") ∧
    ("FAILED" ≠ "SUCCEEDED" → a' !! "AwsAccountStatus" = Some "FAILED") ∧
    a' !! "LastModified" = Some "t2".
Proof.
  apply (account_created_write "t2"
           (Scenario.accountCreated (Some "111") "n1" "FAILED")
           (Scenario.accountDetail (Some "111") "n1" "FAILED")
           Scenario.t1_key
           (<["LastModified" := "t1"]>
              (<["AwsAccountName" := "n1"]>
                 (<["AwsAccountStatus" := "IN_PROGRESS"]>
                    (AccountCreation.initial_item "t0"))))
           (run (take 1 Scenario.signals) (Scenario.world Scenario.created))).
  - split; reflexivity.
  - reflexivity.
  - vm_compute; reflexivity.
  - vm_compute; reflexivity.
Defined.

Lemma index_4_of_5 (parts : list string) :
  (5 ≤ length parts)%nat → ∃ x, Js.index parts 4 = Some x.
Proof.
  intros H. destruct parts as [|? [|? [|? [|? [|x ?]]]]]; simpl in H; try lia.
  by exists x.
Qed.

(** X6. A role-deployment event whose status maps to [READY], correlated
    to the single record [(k, a)] that is not yet READY with an ARN,
    requests answered: the record becomes READY, its role ARN is
    [arn:aws:iam::<account>:role/PageSuiteRole] for the account identifier
    at the fifth position of the stack-id, and it is stamped. *)
Theorem role_deployed_write now event d n (k : Key) (a : Attrs) w :
  is_StackSetStatusChange event →
  detail event = Some d →
  (5 ≤ length (Signal.stackIdParts d))%nat →
  Signal.resolveAccountName w (Signal.cloudAccountId d) = Some n →
  scan_items "AwsAccountName" n (table w) = [(k, a)] →
  Signal.roleStatus d = "READY" →
  role_ready a && has_roleArn a = false →
  answered 3 w = true →
  let w' := (StacksetStatus.handler now event w).2 in
  ∃ (a' : Attrs) (acct : string),
    Signal.cloudAccountId d = Some acct ∧
    table w' !! k = Some a' ∧
    a' !! "PageSuiteRoleStatus" = Some "READY" ∧
    a' !! "PageSuiteRoleArn" =
      Some ("arn:aws:iam::" +:+ acct +:+ ":role/PageSuiteRole") ∧
    a' !! "LastModified" = Some now.
Proof.
  intros Hev Hd Hlen Hn Hscan Hrs Hnot Hans.
  assert (Hguard : String.eqb (Signal.roleStatus d) "READY"
                   && role_ready a && has_roleArn a = false).
  { rewrite Hrs. simpl. rewrite <- Hnot. by destruct (role_ready a). }
  destruct (stackset_applies now event d n k a w Hev Hd Hlen Hn Hscan Hguard Hans)
    as (_ & Ht & _).
  destruct (index_4_of_5 _ Hlen) as [acct Hacct].
  simpl in *. rewrite Ht, update_item_lookup, Hrs. simpl.
  exists (apply_sets
            [("PageSuiteRoleArn", StacksetStatus.roleArn (Signal.cloudAccountId d));
             ("PageSuiteRoleStatus", "READY"); ("LastModified", now)]
            (default ∅ (table w !! k))), acct.
  split; [done|]. split; [done|].
  split; [by sets_lookup|]. split; [|by sets_lookup].
  sets_lookup. unfold Signal.cloudAccountId in *. by rewrite Hacct.
Qed.

Lemma role_deployed_write_witness :
  let w := run (take 2 Scenario.signals) (Scenario.world Scenario.created) in
  let w' := (StacksetStatus.handler "t3"
               (Scenario.roleDeployed Scenario.stack111 "SUCCEEDED") w).2 in
  ∃ (a' : Attrs) (acct : string),
    Signal.cloudAccountId (Scenario.stackSetDetail Scenario.stack111 "SUCCEEDED")
      = Some acct ∧
    table w' !! Scenario.t1_key = Some a' ∧
    a' !! "PageSuiteRoleStatus" = Some "READY" ∧
    a' !! "PageSuiteRoleArn" =
      Some ("arn:aws:iam::" +:+ acct +:+ ":role/PageSuiteRole") ∧
    a' !! "LastModified" = Some "t3".
Proof.
  apply (role_deployed_write "t3"
           (Scenario.roleDeployed Scenario.stack111 "SUCCEEDED")
           (Scenario.stackSetDetail Scenario.stack111 "SUCCEEDED")
           "n1" Scenario.t1_key
           (<["LastModified" := "t2"]>
              (<["AwsAccountStatus" := "READY"]>
                 (<["AwsAccountId" := "111"]>
                    (<["LastModified" := "t1"]>
                       (<["AwsAccountName" := "n1"]>
                          (<["AwsAccountStatus" := "IN_PROGRESS"]>
                             (AccountCreation.initial_item "t0")))))))
           (run (take 2 Scenario.signals) (Scenario.world Scenario.created))).
  - split; reflexivity.
  - reflexivity.
  - vm_compute; lia.
  - reflexivity.
  - vm_compute; reflexivity.
  - reflexivity.
  - reflexivity.
  - vm_compute; reflexivity.
Defined.

(** ** Signals that find nothing to update *)

Lemma scan_items_none (n : string) (t : Table) :
  (∀ (k : Key) (a : Attrs), t !! k = Some a → a !! "AwsAccountName" ≠ Some n) →
  scan_items "AwsAccountName" n t = [].
Proof.
  intros H. destruct (scan_items "AwsAccountName" n t) as [|[k a] rest] eqn:E; [done|].
  assert (In : (k, a) ∈ scan_items "AwsAccountName" n t)
    by (rewrite E; apply elem_of_cons; by left).
  apply scan_items_elem in In as [Hk Hm]. apply matches_name in Hm.
  by destruct (H k a Hk).
Qed.

(** X7. An account-creation or role-deployment signal correlated through
    a name that no record carries is dropped: no write request, the table
    unchanged; when the requests are answered the invocation ends on the
    "No DynamoDB item found" line, which the account-creation function
    prints as an error and the StackSet function as an ordinary log line. *)
Theorem uncorrelated_signal_dropped d w n :
  references w d n →
  (∀ (k : Key) (a : Attrs),
     table w !! k = Some a → a !! "AwsAccountName" ≠ Some n) →
  let r := deliver d w in
  r.1 = Ok () ∧
  table r.2 = table w ∧
  writes r.2 = writes w ∧
  (answered 2 w = true → last (console r.2) = not_found_line d n).
Proof.
  intros Href Hnone. apply scan_items_none in Hnone.
  destruct d as [now event|now event|now event]; simpl in *; [done| |].
  - destruct Href as ([Hsrc Hname] & d & Hd & <-).
    rewrite Hd in Hname. simpl in Hname.
    unfold CreateAccount.handler, CreateAccount.handleCreateManagedAccount.
    unfold answered. unfold_views. unfold_M. simpl.
    rewrite Hsrc, Hd. simpl. rewrite Hname. simpl.
    cases_faults w; rewrite ?Hnone; simpl; norm_writes.
    all: repeat split; try done; intros _; by rewrite last_snoc.
  - destruct Href as ([Hsrc Hty] & d & Hd & Hlen & Hn).
    unfold StacksetStatus.handler, StacksetStatus.handleStackSetInstanceStatusChange.
    unfold answered. unfold_views. unfold_M. simpl in *.
    rewrite Hsrc, Hty, Hd. simpl.
    apply Nat.ltb_ge in Hlen. rewrite Hlen. simpl.
    destruct (option_bind _ _ Name _) as [n'|] eqn:Hn'; [|done].
    destruct (String.eqb n' "") eqn:Hne'; [done|]. injection Hn as ->.
    cases_faults w; rewrite ?Hn'; simpl; rewrite ?Hne'; simpl;
      rewrite ?Hnone; simpl; norm_writes.
    all: repeat split; try done; intros _; by rewrite last_snoc.
Qed.

Lemma uncorrelated_signal_dropped_witness :
  let d := ToStacksetStatus "t3" (Scenario.roleDeployed Scenario.stack111 "SUCCEEDED") in
  let w := Scenario.world Scenario.created in
  let r := deliver d w in
  r.1 = Ok () ∧
  table r.2 = table w ∧
  writes r.2 = writes w ∧
  (answered 2 w = true →
   last (console r.2) = Some (LOG, NoItemForAccount "n1" (Some "111"))).
Proof.
  apply (uncorrelated_signal_dropped
           (ToStacksetStatus "t3" (Scenario.roleDeployed Scenario.stack111 "SUCCEEDED"))
           (Scenario.world Scenario.created) "n1").
  - split; [split; reflexivity|].
    exists (Scenario.stackSetDetail Scenario.stack111 "SUCCEEDED").
    split; [reflexivity|]. split; [vm_compute; lia | reflexivity].
  - intros k a. simpl. unfold Scenario.created.
    intros [<- <-]%lookup_singleton_Some. discriminate.
Defined.

(** X8. When the directory has no usable name for the account of a
    well-formed role-deployment event (no account, no name, or an empty
    name) and the lookup is answered, the lookup is the only request of
    the invocation: no scan and no update follow, and the failure to
    retrieve the name is the last line printed, as an error. *)
Theorem unresolved_account_dropped now event d w :
  is_StackSetStatusChange event →
  detail event = Some d →
  (5 ≤ length (Signal.stackIdParts d))%nat →
  Signal.resolveAccountName w (Signal.cloudAccountId d) = None →
  answered 1 w = true →
  let r := StacksetStatus.handler now event w in
  r.1 = Ok () ∧
  table r.2 = table w ∧
  calls r.2 = (calls w ++ [DescribeAccountCommand (Signal.cloudAccountId d)])%list ∧
  last (console r.2) = Some (ERROR, NoAccountName (Signal.cloudAccountId d)).
Proof.
  intros [Hsrc Hty] Hd Hlen Hn Hans.
  unfold StacksetStatus.handler, StacksetStatus.handleStackSetInstanceStatusChange.
  unfold_views. unfold_M. simpl in *.
  rewrite Hsrc, Hty, Hd. simpl.
  apply Nat.ltb_ge in Hlen. rewrite Hlen. simpl.
  destruct (option_bind _ _ Name _) as [n'|] eqn:Hn'.
  - destruct (String.eqb n' "") eqn:Hne'; [|done].
    use_answered Hans; rewrite ?Hn'; simpl; rewrite ?Hne'; simpl.
    all: repeat split; try done; by rewrite last_snoc.
  - use_answered Hans; rewrite ?Hn'; simpl.
    all: repeat split; try done; by rewrite last_snoc.
Qed.

Lemma unresolved_account_dropped_witness :
  let d := Scenario.stackSetDetail
             "arn:aws:cloudformation:eu-west-1:222:stack/x" "SUCCEEDED" in
  let w := Scenario.world Scenario.created in
  let r := StacksetStatus.handler "t3"
             (Scenario.roleDeployed
                "arn:aws:cloudformation:eu-west-1:222:stack/x" "SUCCEEDED") w in
  r.1 = Ok () ∧
  table r.2 = table w ∧
  calls r.2 = (calls w ++ [DescribeAccountCommand (Signal.cloudAccountId d)])%list ∧
  last (console r.2) = Some (ERROR, NoAccountName (Signal.cloudAccountId d)).
Proof.
  apply (unresolved_account_dropped "t3"
           (Scenario.roleDeployed
              "arn:aws:cloudformation:eu-west-1:222:stack/x" "SUCCEEDED")
           (Scenario.stackSetDetail
              "arn:aws:cloudformation:eu-west-1:222:stack/x" "SUCCEEDED")
           (Scenario.world Scenario.created)).
  - split; reflexivity.
  - reflexivity.
  - vm_compute; lia.
  - reflexivity.
  - reflexivity.
Defined.

(** ** Events a function does not handle *)

(** X9. An event with a [detail] that fails the test at the top of the
    handler (another source, another event name or detail type) is only
    logged as unexpected: the promise resolves, no request is sent, and
    the table and the fault schedule are as before. *)
Theorem unexpected_event_ignored d w :
  has_detail d →
  ¬ subscribed d →
  let r := deliver d w in
  r.1 = Ok () ∧
  table r.2 = table w ∧
  calls r.2 = calls w ∧
  faults r.2 = faults w ∧
  console r.2 =
    (console w ++ [(LOG, EventReceived);
                   (LOG, UnexpectedEvent (source_of d) (unexpected_what d))])%list.
Proof.
  destruct d as [now event|now event|now event]; simpl; intros [d Hd] Hnot.
  - unfold ProvisionProduct.handler. unfold_M. simpl. rewrite Hd. simpl.
    unfold is_ProvisionProduct in Hnot. rewrite Hd in Hnot. simpl in Hnot.
    destruct (String.eqb (source event) _) eqn:Hsrc; simpl.
    + destruct (Js.strict_eq (pp_eventName d) _) eqn:Hname; simpl.
      * exfalso. apply Hnot. apply String.eqb_eq in Hsrc. split; [done|].
        unfold Js.strict_eq in Hname. destruct (pp_eventName d); [|done].
        by apply String.eqb_eq in Hname as ->.
      * by rewrite <- !app_assoc.
    + by rewrite <- !app_assoc.
  - unfold CreateAccount.handler. unfold_M. simpl. rewrite Hd. simpl.
    unfold is_CreateManagedAccount in Hnot. rewrite Hd in Hnot. simpl in Hnot.
    destruct (String.eqb (source event) _) eqn:Hsrc; simpl.
    + destruct (Js.strict_eq (ca_eventName d) _) eqn:Hname; simpl.
      * exfalso. apply Hnot. apply String.eqb_eq in Hsrc. split; [done|].
        unfold Js.strict_eq in Hname. destruct (ca_eventName d); [|done].
        by apply String.eqb_eq in Hname as ->.
      * by rewrite <- !app_assoc.
    + by rewrite <- !app_assoc.
  - unfold StacksetStatus.handler. unfold_M. simpl.
    unfold is_StackSetStatusChange in Hnot.
    destruct (String.eqb (source event) _) eqn:Hsrc; simpl.
    + destruct (String.eqb (detail_type event) _) eqn:Hty; simpl.
      * exfalso. apply Hnot. by split; apply String.eqb_eq.
      * by rewrite <- !app_assoc.
    + by rewrite <- !app_assoc.
Qed.

Lemma unexpected_event_ignored_witness :
  let d := ToCreateAccount "t2"
             {| source := "aws.controltower"; detail_type := "";
                detail := Some {| ca_eventName := Some "UpdateManagedAccount";
                                  serviceEventDetails := None |} |} in
  let w := Scenario.world Scenario.created in
  let r := deliver d w in
  r.1 = Ok () ∧
  table r.2 = table w ∧
  calls r.2 = calls w ∧
  faults r.2 = faults w ∧
  console r.2 =
    (console w ++ [(LOG, EventReceived);
                   (LOG, UnexpectedEvent "aws.controltower"
                           (Some "UpdateManagedAccount"))])%list.
Proof.
  apply (unexpected_event_ignored
           (ToCreateAccount "t2"
             {| source := "aws.controltower"; detail_type := "";
                detail := Some {| ca_eventName := Some "UpdateManagedAccount";
                                  serviceEventDetails := None |} |})
           (Scenario.world Scenario.created)).
  - simpl. by eexists.
  - simpl. intros [_ H]. discriminate H.
Defined.

(** ** The provisioning function and its tags *)

(** X10. A provisioning event that lacks the [ps:accountId] or the
    [ps:environment] tag (or carries it with an empty value) is reported
    and dropped before any request is made: the promise resolves, the
    table is unchanged, and the console ends with the two error lines. *)
Theorem missing_tags_dropped now event d w :
  is_ProvisionProduct event →
  detail event = Some d →
  Js.falsy (Signal.psAccountId d) = true ∨ Js.falsy (Signal.environment d) = true →
  let r := ProvisionProduct.handler now event w in
  r.1 = Ok () ∧
  table r.2 = table w ∧
  calls r.2 = calls w ∧
  faults r.2 = faults w ∧
  console r.2 =
    (console w ++
     [(LOG, EventReceived); (LOG, ProvisioningStarted);
      (LOG, TagsFound (Signal.tags_of d));
      (LOG, ExtractedAccountId (Signal.psAccountId d));
      (LOG, ExtractedEnvironment (Signal.environment d));
      (ERROR, MissingRequiredTags);
      (ERROR, RequestParametersDump
                (default no_requestParameters (requestParameters d)))])%list.
Proof.
  intros [Hsrc Hname] Hd Hmiss. rewrite Hd in Hname. simpl in Hname.
  unfold ProvisionProduct.handler, ProvisionProduct.handleProvisionProduct.
  unfold_views. unfold_M. simpl.
  rewrite Hsrc, Hd. simpl. rewrite Hname. simpl.
  assert (Hor : Js.falsy
                  (value <$> List.find (λ x, String.eqb (key x) "ps:accountId")
                     (default [] (tags (default no_requestParameters
                                          (requestParameters d)))))
                || Js.falsy
                  (value <$> List.find (λ x, String.eqb (key x) "ps:environment")
                     (default [] (tags (default no_requestParameters
                                          (requestParameters d))))) = true).
  { destruct Hmiss as [-> | ->]; [done|]. by rewrite orb_true_r. }
  rewrite Hor. simpl. repeat split; try done.
  by rewrite <- !app_assoc.
Qed.

Lemma missing_tags_dropped_witness :
  let d := {| pp_eventName := Some "ProvisionProduct";
              requestParameters := Some
                {| tags := Some [ {| key := "ps:accountId"; value := "t1" |} ];
                   provisioningParameters := None |};
              responseElements := None |} in
  let event := {| source := "aws.servicecatalog"; detail_type := "";
                  detail := Some d |} in
  let w := Scenario.world Scenario.created in
  let r := ProvisionProduct.handler "t1" event w in
  r.1 = Ok () ∧
  table r.2 = table w ∧
  calls r.2 = calls w ∧
  faults r.2 = faults w ∧
  console r.2 =
    (console w ++
     [(LOG, EventReceived); (LOG, ProvisioningStarted);
      (LOG, TagsFound (Signal.tags_of d));
      (LOG, ExtractedAccountId (Signal.psAccountId d));
      (LOG, ExtractedEnvironment (Signal.environment d));
      (ERROR, MissingRequiredTags);
      (ERROR, RequestParametersDump
                (default no_requestParameters (requestParameters d)))])%list.
Proof.
  apply (missing_tags_dropped "t1"
          {| source := "aws.servicecatalog"; detail_type := "";
             detail := Some
               {| pp_eventName := Some "ProvisionProduct";
                  requestParameters := Some
                    {| tags := Some [ {| key := "ps:accountId"; value := "t1" |} ];
                       provisioningParameters := None |};
                  responseElements := None |} |}
          {| pp_eventName := Some "ProvisionProduct";
             requestParameters := Some
               {| tags := Some [ {| key := "ps:accountId"; value := "t1" |} ];
                  provisioningParameters := None |};
             responseElements := None |}
          (Scenario.world Scenario.created)).
  - split; reflexivity.
  - reflexivity.
  - right. reflexivity.
Defined.

(** X11. The provisioning function updates by key without looking the
    record up: for a key that is not in the table, an event with both
    tags (request answered) creates a record holding only
    [AwsAccountStatus], [AwsAccountName] and [LastModified], and the
    invocation ends with the ordinary "Updated" line. *)
Theorem provision_creates_missing_record now event d w :
  is_ProvisionProduct event →
  detail event = Some d →
  nonempty (Signal.psAccountId d) →
  nonempty (Signal.environment d) →
  answered 1 w = true →
  let k := ("PS#" +:+ Js.tpl (Signal.psAccountId d),
            "ENV#" +:+ Js.tpl (Signal.environment d)) in
  table w !! k = None →
  let r := ProvisionProduct.handler now event w in
  table r.2 !! k =
    Some (<["LastModified" := now]>
            (<["AwsAccountName" := Signal.provisionedName d]>
               (<["AwsAccountStatus" := Signal.accountStatus d]> ∅))) ∧
  last (console r.2) =
    Some (LOG, UpdatedProvision k.1 k.2 (Signal.accountStatus d)
                                (Signal.provisionedName d)).
Proof.
  intros [Hsrc Hname] Hd Hid Henv Hans k Hk. rewrite Hd in Hname. simpl in Hname.
  unfold k in *. clear k.
  unfold ProvisionProduct.handler, ProvisionProduct.handleProvisionProduct.
  unfold nonempty in *. unfold_views. unfold_M. simpl.
  rewrite Hsrc, Hd. simpl. rewrite Hname. simpl.
  rewrite Hid, Henv. simpl.
  use_answered Hans.
  all: rewrite update_item_lookup, Hk, last_snoc; done.
Qed.

Lemma provision_creates_missing_record_witness :
  let d := Scenario.provisionDetail "CREATED" Scenario.name_n1 in
  let r := ProvisionProduct.handler "t1"
             (Scenario.provisionRequested "CREATED" Scenario.name_n1)
             (Scenario.world ∅) in
  table r.2 !! ("PS#t1", "ENV#Dev") =
    Some (<["LastModified" := "t1"]>
            (<["AwsAccountName" := "n1"]>
               (<["AwsAccountStatus" := "IN_PROGRESS"]> ∅))) ∧
  last (console r.2) =
    Some (LOG, UpdatedProvision "PS#t1" "ENV#Dev" "IN_PROGRESS" "n1").
Proof.
  apply (provision_creates_missing_record "t1"
           (Scenario.provisionRequested "CREATED" Scenario.name_n1)
           (Scenario.provisionDetail "CREATED" Scenario.name_n1)
           (Scenario.world ∅)).
  - split; reflexivity.
  - reflexivity.
  - reflexivity.
  - reflexivity.
  - reflexivity.
  - reflexivity.
Defined.

(** ** The stack-id *)

Lemma split_unfold (c x : Ascii.ascii) (s : string) :
  Js.split c (String x s) =
    if Ascii.eqb x c then "" :: Js.split c s
    else match Js.split c s with
         | seg :: segs => String x seg :: segs
         | [] => [String x ""]
         end.
Proof. reflexivity. Qed.

Lemma split_nonempty (c : Ascii.ascii) (s : string) : Js.split c s ≠ [].
Proof.
  destruct s as [|x s]; [done|]. rewrite split_unfold.
  repeat case_match; done.
Qed.

Lemma split_cons_sep (c : Ascii.ascii) (s : string) :
  Js.split c (String c s) = "" :: Js.split c s.
Proof. by rewrite split_unfold, Ascii.eqb_refl. Qed.

Lemma split_cons_other (c x : Ascii.ascii) (s : string) :
  x ≠ c →
  ∃ seg segs, Js.split c s = seg :: segs ∧
              Js.split c (String x s) = String x seg :: segs.
Proof.
  intros Hne. destruct (Js.split c s) as [|seg segs] eqn:E.
  - by destruct (split_nonempty c s).
  - exists seg, segs. split; [done|].
    apply Ascii.eqb_neq in Hne. by rewrite split_unfold, Hne, E.
Qed.

Lemma split_length (c : Ascii.ascii) (s : string) :
  length (Js.split c s) = S (occurrences c s).
Proof.
  induction s as [|x s IH]; [done|].
  destruct (Ascii.eqb x c) eqn:E.
  - apply Ascii.eqb_eq in E as ->. rewrite split_cons_sep. simpl.
    rewrite Ascii.eqb_refl. simpl. by rewrite IH.
  - apply Ascii.eqb_neq in E.
    destruct (split_cons_other c x s E) as (seg & segs & H1 & ->).
    simpl. apply Ascii.eqb_neq in E. rewrite E. simpl.
    rewrite <- IH, H1. done.
Qed.

(** X12. The stack-id is rejected exactly when it has fewer than four
    colons (an absent stack-id counts as the empty string). *)
Theorem malformed_iff_few_colons (d : StackSetDetail) :
  (length (Signal.stackIdParts d) < 5)%nat ↔
  (occurrences ":" (Signal.stackId d) < 4)%nat.
Proof. unfold Signal.stackIdParts. rewrite split_length. lia. Qed.

Lemma split_prefix (c : Ascii.ascii) (p rest : string) :
  occurrences c p = 0%nat →
  Js.split c (p +:+ String c rest) = p :: Js.split c rest.
Proof.
  induction p as [|x p IH]; intros Hp.
  - apply split_cons_sep.
  - simpl in Hp. destruct (Ascii.eqb x c) eqn:E; [done|].
    apply Ascii.eqb_neq in E.
    change (String x p +:+ String c rest) with (String x (p +:+ String c rest)).
    destruct (split_cons_other c x (p +:+ String c rest) E)
      as (seg & segs & H1 & ->).
    rewrite IH in H1 by done. by injection H1 as <- <-.
Qed.

(** X13. For a stack-id of the documented form
    [p0:p1:p2:p3:ACCOUNT:rest], where the first five fields contain no
    colon, the handler takes [ACCOUNT] as the account identifier (whatever
    follows, further colons included) and does not reject the stack-id. *)
Theorem account_id_of_stack_id (d : StackSetDetail) (p0 p1 p2 p3 acct rest : string) :
  stack_id d =
    Some (p0 +:+ ":" +:+ p1 +:+ ":" +:+ p2 +:+ ":" +:+ p3 +:+ ":" +:+ acct
             +:+ ":" +:+ rest) →
  occurrences ":" p0 = 0%nat → occurrences ":" p1 = 0%nat →
  occurrences ":" p2 = 0%nat → occurrences ":" p3 = 0%nat →
  occurrences ":" acct = 0%nat →
  Signal.cloudAccountId d = Some acct ∧
  (5 ≤ length (Signal.stackIdParts d))%nat ∧
  StacksetStatus.roleArn (Signal.cloudAccountId d) =
    "arn:aws:iam::" +:+ acct +:+ ":role/PageSuiteRole".
Proof.
  intros Hid H0 H1 H2 H3 H4.
  assert (E : ∃ tl, Signal.stackIdParts d = p0 :: p1 :: p2 :: p3 :: acct :: tl).
  { unfold Signal.stackIdParts, Signal.stackId. rewrite Hid.
    assert (Hne : Js.or_else
              (Some (p0 +:+ ":" +:+ p1 +:+ ":" +:+ p2 +:+ ":" +:+ p3 +:+ ":"
                        +:+ acct +:+ ":" +:+ rest)) ""
            = p0 +:+ ":" +:+ p1 +:+ ":" +:+ p2 +:+ ":" +:+ p3 +:+ ":" +:+ acct
                 +:+ ":" +:+ rest).
    { unfold Js.or_else.
      destruct (String.eqb _ "") eqn:Hemp; [|done].
      by apply String.eqb_eq in Hemp. }
    rewrite Hne.
    repeat (change (":" +:+ ?x) with (String ":" x);
            rewrite split_prefix by done).
    by eexists. }
  destruct E as [tl E]. unfold Signal.cloudAccountId. rewrite E.
  split; [done|]. split; [simpl; lia|done].
Qed.

Lemma account_id_of_stack_id_witness :
  let d := Scenario.stackSetDetail Scenario.stack111 "SUCCEEDED" in
  Signal.cloudAccountId d = Some "111" ∧
  (5 ≤ length (Signal.stackIdParts d))%nat ∧
  StacksetStatus.roleArn (Signal.cloudAccountId d) =
    "arn:aws:iam::" +:+ "111" +:+ ":role/PageSuiteRole".
Proof.
  apply (account_id_of_stack_id
           (Scenario.stackSetDetail Scenario.stack111 "SUCCEEDED")
           "arn" "aws" "cloudformation" "eu-west-1" "111"
           "stack/StackSet-PageSuiteRole/0a1b").
  - reflexivity.
  - reflexivity.
  - reflexivity.
  - reflexivity.
  - reflexivity.
  - reflexivity.
Defined.

(** ** The creation script *)

(** X14. [requestAwsAccount] never throws and never touches the table; it
    reports success exactly when the request was answered with the status
    [CREATED] or [IN_PROGRESS]. *)
Theorem requestAwsAccount_outcome params w :
  let r := AccountCreation.requestAwsAccount params w in
  ∃ o : AccountCreation.Outcome,
    r.1 = Ok o ∧
    table r.2 = table w ∧
    (AccountCreation.success o = true ↔
     answered 1 w = true ∧
     (RecordDetailStatus (catalog w) = Some "CREATED" ∨
      RecordDetailStatus (catalog w) = Some "IN_PROGRESS")).
Proof.
  unfold AccountCreation.requestAwsAccount, answered. unfold_M. simpl.
  destruct (faults w) as [|[e|] fs] eqn:Hf; simpl.
  2:{ eexists. split; [done|]. split; [done|]. simpl. split; [done|]. by intros [? _]. }
  all: eexists; split; [done|]; split; [done|]; simpl.
  all: destruct (RecordDetailStatus (catalog w)) as [st|]; unfold Js.or_else.
  all: try (split; [done | intros [_ [?|?]]; done]).
  all: destruct (String.eqb st "") eqn:E0;
       [apply String.eqb_eq in E0 as ->;
        split; [done | intros [_ [?|?]]; done]|].
  all: rewrite orb_true_iff, !String.eqb_eq.
  all: split; [intros [->| ->]; auto | intros [_ [[= ->]|[= ->]]]; auto].
Qed.

(** X15. When [getLatestActiveArtifactId] returns, what it returns is the
    non-empty identifier of an artifact of the product that is marked
    active; it sends one request and never touches the table. *)
Theorem latest_active_artifact_sound w (id : string) :
  let r := AccountCreation.getLatestActiveArtifactId w in
  r.1 = Ok id →
  id ≠ "" ∧
  (∃ (details : list ProvisioningArtifactDetail) (artifact : ProvisioningArtifactDetail),
     ProvisioningArtifactDetails (catalog w) = Some details ∧
     artifact ∈ details ∧
     Active artifact = Some true ∧
     Id artifact = Some id) ∧
  table r.2 = table w ∧
  calls r.2 = (calls w ++ [ListProvisioningArtifactsCommand])%list.
Proof.
  unfold AccountCreation.getLatestActiveArtifactId. unfold_M. simpl.
  destruct (faults w) as [|[e|] fs] eqn:Hf; simpl; [|done|].
  all: destruct (ProvisioningArtifactDetails (catalog w)) as [details|]; simpl; [|done].
  all: destruct (List.find _ details) as [artifact|] eqn:Hfind; simpl; [|done].
  all: destruct (Id artifact) as [i|] eqn:Hi; simpl; [|done].
  all: destruct (String.eqb i "") eqn:Hne; simpl; [done|].
  all: intros [= <-]; apply String.eqb_neq in Hne.
  all: apply List.find_some in Hfind as [Hin Hact].
  all: split; [done|]; split; [|done].
  all: exists details, artifact; split; [done|].
  all: split; [by apply list_elem_of_In|]; split; [|done].
  all: by destruct (Active artifact) as [[|]|].
Qed.

Lemma latest_active_artifact_sound_witness :
  let w := {| table := ∅; organizations := Scenario.directory;
              catalog := {| ProvisioningArtifactDetails := Some
                              [ {| Id := Some "pa-old"; Active := Some false |};
                                {| Id := Some "pa-new"; Active := Some true |} ];
                            RecordDetailStatus := Some "CREATED" |};
              faults := []; calls := []; console := [] |} in
  let r := AccountCreation.getLatestActiveArtifactId w in
  "pa-new" ≠ "" ∧
  (∃ (details : list ProvisioningArtifactDetail) (artifact : ProvisioningArtifactDetail),
     ProvisioningArtifactDetails (catalog w) = Some details ∧
     artifact ∈ details ∧
     Active artifact = Some true ∧
     Id artifact = Some "pa-new") ∧
  table r.2 = table w ∧
  calls r.2 = (calls w ++ [ListProvisioningArtifactsCommand])%list.
Proof.
  apply (latest_active_artifact_sound
           {| table := ∅; organizations := Scenario.directory;
              catalog := {| ProvisioningArtifactDetails := Some
                              [ {| Id := Some "pa-old"; Active := Some false |};
                                {| Id := Some "pa-new"; Active := Some true |} ];
                            RecordDetailStatus := Some "CREATED" |};
              faults := []; calls := []; console := [] |} "pa-new").
  reflexivity.
Defined.

Ltac main_steps :=
  unfold AccountCreation.main, AccountCreation.getLatestActiveArtifactId,
         AccountCreation.requestAwsAccount, activeArtifactId, link_key in *;
  unfold_M; simpl in *;
  change ("ENV#" +:+ "Dev") with "ENV#Dev" in *.

(** X16. The script writes the link entry first and never takes it back:
    on a free key, with the put and the artifact listing answered but no
    active artifact to be found, [main] rejects, the PENDING/PENDING entry
    stays in the table, and no [ProvisionProduct] request is sent. *)
Theorem creation_leaves_orphan_entry id now w :
  table w !! link_key id = None →
  answered 2 w = true →
  activeArtifactId w = None →
  let r := AccountCreation.main id now w in
  r.1 = Throw "No active provisioning artifact found for the product" ∧
  table r.2 = <[link_key id := AccountCreation.initial_item now]> (table w) ∧
  calls r.2 =
    (calls w ++
     [PutCommand (link_key id) (AccountCreation.initial_item now)
        (Some (AND (attribute_not_exists "PK") (attribute_not_exists "SK")));
      ListProvisioningArtifactsCommand])%list.
Proof.
  intros Hk Hans Hnone. main_steps. rewrite Hk. simpl.
  use_answered Hans.
  all: destruct (option_bind _ _ Id _) as [i|]; simpl;
       [destruct (String.eqb i ""); [|done]|]; simpl.
  all: by rewrite <- !app_assoc.
Qed.

Lemma creation_leaves_orphan_entry_witness :
  let r := AccountCreation.main "t7" "t0" (Scenario.world Scenario.created) in
  r.1 = Throw "No active provisioning artifact found for the product" ∧
  table r.2 = <[link_key "t7" := AccountCreation.initial_item "t0"]> Scenario.created ∧
  calls r.2 =
    [PutCommand (link_key "t7") (AccountCreation.initial_item "t0")
       (Some (AND (attribute_not_exists "PK") (attribute_not_exists "SK")));
     ListProvisioningArtifactsCommand].
Proof.
  apply (creation_leaves_orphan_entry "t7" "t0" (Scenario.world Scenario.created)).
  - vm_compute; reflexivity.
  - reflexivity.
  - reflexivity.
Defined.

(** X17. Once the entry is written and an active artifact is found, [main]
    resolves whatever becomes of the [ProvisionProduct] request: an
    exception thrown by it is swallowed by [requestAwsAccount], and [main]
    ignores the outcome it returns.  The entry stays and exactly three
    requests were sent. *)
Theorem provisioning_failure_is_swallowed id now w artifactId :
  table w !! link_key id = None →
  answered 2 w = true →
  activeArtifactId w = Some artifactId →
  let r := AccountCreation.main id now w in
  r.1 = Ok () ∧
  table r.2 = <[link_key id := AccountCreation.initial_item now]> (table w) ∧
  ∃ c, calls r.2 =
         (calls w ++
          [PutCommand (link_key id) (AccountCreation.initial_item now)
             (Some (AND (attribute_not_exists "PK") (attribute_not_exists "SK")));
           ListProvisioningArtifactsCommand; c])%list ∧
       provisioning_event_of c None ≠ None.
Proof.
  intros Hk Hans Hsome. main_steps. rewrite Hk. simpl.
  use_answered Hans.
  all: destruct (option_bind _ _ Id _) as [i|]; simpl; [|done].
  all: destruct (String.eqb i ""); [done|]; simpl.
  all: repeat split; try done.
  all: eexists; rewrite <- !app_assoc; simpl; split; [reflexivity|done].
Qed.

Lemma provisioning_failure_is_swallowed_witness :
  let w := script_world [None; None; Some "AccessDeniedException"] in
  let r := AccountCreation.main "t7" "t0" w in
  r.1 = Ok () ∧
  table r.2 = <[link_key "t7" := AccountCreation.initial_item "t0"]> (table w) ∧
  ∃ c, calls r.2 =
         (calls w ++
          [PutCommand (link_key "t7") (AccountCreation.initial_item "t0")
             (Some (AND (attribute_not_exists "PK") (attribute_not_exists "SK")));
           ListProvisioningArtifactsCommand; c])%list ∧
       provisioning_event_of c None ≠ None.
Proof.
  apply (provisioning_failure_is_swallowed "t7" "t0"
           (script_world [None; None; Some "AccessDeniedException"]) "pa-new").
  - reflexivity.
  - reflexivity.
  - reflexivity.
Defined.

(** What [main] leaves behind when it gets as far as its third request. *)
Lemma main_reaches_provisioning id now w artifactId :
  table w !! link_key id = None →
  answered 2 w = true →
  activeArtifactId w = Some artifactId →
  let r := AccountCreation.main id now w in
  table r.2 = <[link_key id := AccountCreation.initial_item now]> (table w) ∧
  faults r.2 = drop 3 (faults w) ∧
  last (calls r.2) =
    Some (ProvisionProductCommand
            AccountCreation.ACCOUNT_FACTORY_PRODUCT_ID artifactId
            (id +:+ "_" +:+ "Dev")
            [ {| key := "AccountName"; value := id +:+ "_" +:+ "Dev" |};
              {| key := "AccountEmail";
                 value := "clients+" +:+ id +:+ "+root@pagesuite.com" |};
              {| key := "SSOUserEmail";
                 value := "clients+" +:+ id +:+ "+admin@pagesuite.com" |};
              {| key := "SSOUserFirstName"; value := "Admin" |};
              {| key := "SSOUserLastName"; value := "acc_" +:+ id |};
              {| key := "ManagedOrganizationalUnit";
                 value := "Clients-Dev (ou-s4i4-0t2m7sl7)" |} ]
            [ {| key := "ps:accountId"; value := id |};
              {| key := "ps:environment"; value := "Dev" |} ]).
Proof.
  intros Hk Hans Hsome. main_steps. rewrite Hk. simpl.
  use_answered Hans.
  all: destruct (option_bind _ _ Id _) as [i|]; simpl; [|done].
  all: destruct (String.eqb i "") eqn:Hi; [done|]; simpl.
  all: injection Hsome as ->.
  all: repeat split; try done; by rewrite last_snoc.
Qed.

Lemma append_nonempty (s t : string) : t ≠ "" → s +:+ t ≠ "".
Proof. intros Ht. destruct s; [done|]. discriminate. Qed.

(** X18. The script and the provisioning function agree on the record: the
    [ProvisionProduct] request [main] sends carries the tags and the
    account name from which the function, fed the event of that request,
    computes the very key [main] wrote.  The entry then has the account
    name [<id>_Dev] and the remapped status, and keeps the PENDING role
    status and the empty account identifier it was created with. *)
Theorem script_and_handler_agree id now now' st w artifactId :
  id ≠ "" →
  table w !! link_key id = None →
  answered 4 w = true →
  activeArtifactId w = Some artifactId →
  let w1 := (AccountCreation.main id now w).2 in
  ∃ c event,
    last (calls w1) = Some c ∧
    provisioning_event_of c st = Some event ∧
    ∃ a : Attrs,
      table (ProvisionProduct.handler now' event w1).2 !! link_key id = Some a ∧
      a !! "AwsAccountName" = Some (id +:+ "_Dev") ∧
      a !! "AwsAccountStatus" =
        Some (let raw := Js.or_else st "UNKNOWN" in
              if String.eqb raw "CREATED" then "IN_PROGRESS" else raw) ∧
      a !! "LastModified" = Some now' ∧
      a !! "AwsAccountId" = Some "" ∧
      a !! "PageSuiteRoleStatus" = Some "PENDING" ∧
      a !! "PageSuiteRoleArn" = Some "".
Proof.
  intros Hid Hk Hans Hsome.
  destruct (main_reaches_provisioning id now w artifactId Hk
              (answered_le 2 4 w ltac:(lia) Hans) Hsome) as (Ht & Hf & Hc).
  simpl. set (w1 := (AccountCreation.main id now w).2) in *.
  eexists _, _. split; [exact Hc|]. split; [reflexivity|].
  match goal with
  | |- context [ProvisionProduct.handler now' ?ev w1] => set (event := ev)
  end.
  assert (Hname : Js.or_else (Some (id +:+ "_" +:+ "Dev")) "" = id +:+ "_Dev").
  { unfold Js.or_else. destruct (String.eqb _ "") eqn:E; [|done].
    apply String.eqb_eq in E. by apply append_nonempty in E. }
  destruct (provision_applies now' event
              {| pp_eventName := Some "ProvisionProduct";
                 requestParameters := Some
                   {| tags := Some [ {| key := "ps:accountId"; value := id |};
                                     {| key := "ps:environment"; value := "Dev" |} ];
                      provisioningParameters := Some
                        [ {| key := "AccountName"; value := id +:+ "_" +:+ "Dev" |};
                          {| key := "AccountEmail";
                             value := "clients+" +:+ id +:+ "+root@pagesuite.com" |};
                          {| key := "SSOUserEmail";
                             value := "clients+" +:+ id +:+ "+admin@pagesuite.com" |};
                          {| key := "SSOUserFirstName"; value := "Admin" |};
                          {| key := "SSOUserLastName"; value := "acc_" +:+ id |};
                          {| key := "ManagedOrganizationalUnit";
                             value := "Clients-Dev (ou-s4i4-0t2m7sl7)" |} ] |};
                 responseElements := Some
                   {| recordDetail := Some {| status := st |} |} |} w1)
    as (_ & Ht2 & _).
  - split; reflexivity.
  - reflexivity.
  - by apply nonempty_Some.
  - reflexivity.
  - apply (answered_drop 3 1 w w1 Hf). done.
  - rewrite Ht2. unfold link_key.
    change ("PS#" +:+ Js.tpl _) with ("PS#" +:+ id).
    change ("ENV#" +:+ Js.tpl _) with "ENV#Dev".
    rewrite update_item_lookup, Ht. unfold link_key. rewrite lookup_insert_eq. simpl.
    eexists. split; [done|].
    unfold Signal.provisionedName, Signal.accountStatus, Signal.rawStatus,
           Signal.find_value. simpl.
    split; [sets_lookup; by rewrite Hname|].
    repeat split; by sets_lookup.
Qed.

Lemma script_and_handler_agree_witness :
  let w := script_world [] in
  let w1 := (AccountCreation.main "t7" "t0" w).2 in
  ∃ c event,
    last (calls w1) = Some c ∧
    provisioning_event_of c (Some "CREATED") = Some event ∧
    ∃ a : Attrs,
      table (ProvisionProduct.handler "t1" event w1).2 !! link_key "t7" = Some a ∧
      a !! "AwsAccountName" = Some ("t7" +:+ "_Dev") ∧
      a !! "AwsAccountStatus" =
        Some (let raw := Js.or_else (Some "CREATED") "UNKNOWN" in
              if String.eqb raw "CREATED" then "IN_PROGRESS" else raw) ∧
      a !! "LastModified" = Some "t1" ∧
      a !! "AwsAccountId" = Some "" ∧
      a !! "PageSuiteRoleStatus" = Some "PENDING" ∧
      a !! "PageSuiteRoleArn" = Some "".
Proof.
  apply (script_and_handler_agree "t7" "t0" "t1" (Some "CREATED")
           (script_world []) "pa-new").
  - discriminate.
  - reflexivity.
  - reflexivity.
  - reflexivity.
Defined.

(** * The role-chain test script *)

#[local] Arguments RoleChain.includes : simpl never.
#[local] Arguments RoleChain.clientAccessRoleArn : simpl never.
#[local] Arguments RoleChain.of_response : simpl never.
#[local] Arguments RoleChain.ENVIRONMENTS : simpl never.

Ltac unfold_R :=
  unfold RoleChain.testRoleChain, RoleChain.main, RoleChain.chain,
         RoleChain.answered,
         mbind, RoleChain.R_bind, mret, RoleChain.R_ret, RoleChain.try_catch,
         RoleChain.throw, RoleChain.console_log, RoleChain.console_error,
         RoleChain.print, RoleChain.send in *.

Ltac cases_schedule s :=
  destruct (RoleChain.faults s)
    as [|[?|] [|[?|] [|[?|] [|[?|] [|[?|] [|[?|] ?]]]]]] eqn:?; simpl in *.

Lemma R_log_bind {A} (m : RoleChain.Message) (k : unit → RoleChain.R A) s :
  (RoleChain.console_log m ≫= k) s =
  k () {| RoleChain.aws := RoleChain.aws s; RoleChain.faults := RoleChain.faults s;
          RoleChain.sent := RoleChain.sent s;
          RoleChain.console := (RoleChain.console s ++ [(LOG, m)])%list |}.
Proof. reflexivity. Qed.

Lemma R_try_catch_total (body : RoleChain.R unit) (handle : Err → RoleChain.R unit) s :
  (∀ e s', (handle e s').1 = Ok ()) →
  (RoleChain.try_catch body handle s).1 = Ok ().
Proof.
  intros H. unfold RoleChain.try_catch.
  destruct (body s) as [[[]|e] s']; [done|]. apply H.
Qed.

(** X19. [testRoleChain] never rejects, whatever the services answer and
    whichever requests throw: every exception ends in its [catch] block. *)
Theorem testRoleChain_never_rejects environment pageSuiteRoleArn s :
  (RoleChain.testRoleChain environment pageSuiteRoleArn s).1 = Ok ().
Proof.
  unfold RoleChain.testRoleChain. rewrite R_log_bind.
  apply R_try_catch_total. intros e s'.
  unfold mbind, RoleChain.R_bind, RoleChain.console_error, RoleChain.print. simpl.
  by destruct (RoleChain.includes "SSO" e).
Qed.

(** [testRoleChain] with its last part named. *)
Lemma testRoleChain_probes environment pageSuiteRoleArn :
  RoleChain.testRoleChain environment pageSuiteRoleArn =
  (RoleChain.console_log (RoleChain.TestingRoleChain environment pageSuiteRoleArn);;
   RoleChain.try_catch
     (let envConfig := RoleChain.ENVIRONMENTS environment in
      RoleChain.console_log (RoleChain.UsingSsoProfile (RoleChain.ssoProfile envConfig));;
      let stsClient := RoleChain.fromSSO (RoleChain.ssoProfile envConfig) in
      RoleChain.console_log RoleChain.AssumingClientAccessRole;;
      let clientAccessRoleArn := RoleChain.clientAccessRoleArn environment in
      clientAccessResponse ←
        RoleChain.send RoleChain.STS stsClient
          (RoleChain.AssumeRoleCommand clientAccessRoleArn "test-client-access-session")
          (λ a, RoleChain.assumeRole a stsClient clientAccessRoleArn);
      match clientAccessResponse with
      | None => RoleChain.throw "Failed to get credentials from ClientAccessRole"
      | Some clientAccessCredentials =>
        let clientAccessSts := RoleChain.of_response clientAccessCredentials in
        RoleChain.console_log RoleChain.AssumingPageSuiteRole;;
        pageSuiteResponse ←
          RoleChain.send RoleChain.STS clientAccessSts
            (RoleChain.AssumeRoleCommand pageSuiteRoleArn "test-pagesuite-session")
            (λ a, RoleChain.assumeRole a clientAccessSts pageSuiteRoleArn);
        match pageSuiteResponse with
        | None => RoleChain.throw "Failed to get credentials from PageSuiteRole"
        | Some pageSuiteResponseCredentials =>
            RoleChain.probes (RoleChain.of_response pageSuiteResponseCredentials)
        end
      end)
     (λ error,
      RoleChain.console_error (RoleChain.ErrorMessage error);;
      if RoleChain.includes "SSO" error then
        RoleChain.console_log RoleChain.SsoTip;;
        RoleChain.console_log
          (RoleChain.SsoLogin (RoleChain.ssoProfile (RoleChain.ENVIRONMENTS environment)))
      else mret ())).
Proof. reflexivity. Qed.

Lemma runs_log m : RoleChain.runs [] (RoleChain.console_log m).
Proof. intros s. simpl. by rewrite app_nil_r. Qed.

Lemma runs_bind reqs1 reqs2 (m1 m2 : RoleChain.R unit) :
  RoleChain.runs reqs1 m1 → RoleChain.runs reqs2 m2 →
  RoleChain.runs (reqs1 ++ reqs2) (m1 ;; m2).
Proof.
  intros H1 H2 s. unfold mbind, RoleChain.R_bind.
  destruct (H1 s) as (E1 & S1 & F1 & A1).
  destruct (m1 s) as [[[]|e] s1]; simpl in *; [|done].
  destruct (H2 s1) as (E2 & S2 & F2 & A2).
  rewrite E2, S2, F2, A2, S1, F1, A1.
  by rewrite app_assoc, length_app, drop_drop.
Qed.

(** A probe: one request, then only console output, inside its own
    [try]/[catch] that only prints. *)
Lemma runs_probe {A} sv c cmd (answer : RoleChain.Aws → A)
    (next : A → RoleChain.R unit) (failed : Err → RoleChain.Message) :
  (∀ x, RoleChain.runs [] (next x)) →
  RoleChain.runs
    [{| RoleChain.service := sv; RoleChain.credentials := c;
        RoleChain.command := cmd |}]
    (RoleChain.try_catch (x ← RoleChain.send sv c cmd answer; next x)
                         (λ error, RoleChain.console_log (failed error))).
Proof.
  intros Hafter s.
  unfold RoleChain.try_catch, mbind, RoleChain.R_bind, RoleChain.send.
  destruct (RoleChain.faults s) as [|[e|] fs] eqn:Hf; simpl; [|done|].
  all: match goal with
       | |- (let (_, _) := ?t in _).1 = _ ∧ _ =>
           match t with
           | _ ?x ?s0 =>
               destruct (Hafter x s0) as (E & S & F & Aw);
               destruct t as [[[]|e'] s1]; simpl in *; [|done];
               rewrite S, F, Aw, app_nil_r; done
           end
       end.
Qed.

Lemma runs_ret : RoleChain.runs [] (mret ()).
Proof. intros s. simpl. by rewrite app_nil_r. Qed.

(** The four probes are always all made, each exactly once and in order,
    whichever of them throw. *)
Lemma probes_run c :
  RoleChain.runs
    [ {| RoleChain.service := RoleChain.S3; RoleChain.credentials := c;
         RoleChain.command := RoleChain.ListBucketsCommand |};
      {| RoleChain.service := RoleChain.EC2; RoleChain.credentials := c;
         RoleChain.command := RoleChain.DescribeInstancesCommand |};
      {| RoleChain.service := RoleChain.IAM; RoleChain.credentials := c;
         RoleChain.command := RoleChain.ListUsersCommand |};
      {| RoleChain.service := RoleChain.STS; RoleChain.credentials := c;
         RoleChain.command := RoleChain.GetCallerIdentityCommand |} ]
    (RoleChain.probes c).
Proof.
  unfold RoleChain.probes.
  apply (runs_bind [] _), (runs_bind [] _); try apply runs_log.
  apply (runs_bind [_] [_; _; _]).
  { apply runs_probe. intros x. apply (runs_bind [] []); [apply runs_log|].
    destruct x as [[|b bs]|]; [apply runs_ret|apply runs_log|apply runs_ret]. }
  apply (runs_bind [] _); [apply runs_log|].
  apply (runs_bind [_] [_; _]).
  { apply runs_probe. intros x. apply runs_log. }
  apply (runs_bind [] _); [apply runs_log|].
  apply (runs_bind [_] [_]).
  { apply runs_probe. intros x. apply runs_log. }
  apply (runs_bind [] _); [apply runs_log|].
  apply (runs_bind [_] []); [|apply runs_log].
  apply runs_probe. intros x. apply runs_log.
Qed.

Lemma ends_bind reqs (m1 m2 : RoleChain.R unit) (l : Level * RoleChain.Message) :
  RoleChain.runs reqs m1 →
  (∀ s, last (RoleChain.console (m2 s).2) = Some l) →
  ∀ s, last (RoleChain.console ((m1 ;; m2) s).2) = Some l.
Proof.
  intros H1 H2 s. unfold mbind, RoleChain.R_bind.
  destruct (H1 s) as (E1 & _).
  destruct (m1 s) as [[[]|e] s1]; simpl in *; [|done]. apply H2.
Qed.

Lemma probes_summary c s :
  last (RoleChain.console (RoleChain.probes c s).2) = Some (LOG, RoleChain.Summary).
Proof.
  revert s. unfold RoleChain.probes.
  eapply ends_bind; [apply runs_log|].
  eapply ends_bind; [apply runs_log|].
  eapply ends_bind.
  { apply runs_probe. intros x. apply (runs_bind [] []); [apply runs_log|].
    destruct x as [[|b bs]|]; [apply runs_ret|apply runs_log|apply runs_ret]. }
  eapply ends_bind; [apply runs_log|].
  eapply ends_bind; [apply runs_probe; intros x; apply runs_log|].
  eapply ends_bind; [apply runs_log|].
  eapply ends_bind; [apply runs_probe; intros x; apply runs_log|].
  eapply ends_bind; [apply runs_log|].
  eapply ends_bind; [apply runs_probe; intros x; apply runs_log|].
  intros s. simpl. apply last_snoc.
Qed.

#[local] Arguments RoleChain.probes : simpl never.

Ltac close_R :=
  try match goal with
      | |- context [RoleChain.includes ?a ?b] => destruct (RoleChain.includes a b)
      end;
  simpl; by rewrite <- ?app_assoc.

(** How far a run gets: the first request only, the first two, or all six. *)
Lemma role_chain_sent_cases environment pageSuiteRoleArn s :
  let s' := (RoleChain.testRoleChain environment pageSuiteRoleArn s).2 in
  let sso := RoleChain.fromSSO (RoleChain.ssoProfile (RoleChain.ENVIRONMENTS environment)) in
  let first := RoleChain.assumeRole (RoleChain.aws s) sso
                 (RoleChain.clientAccessRoleArn environment) in
  ((RoleChain.answered 1 s = false ∨ first = None) ∧
   ∃ c, RoleChain.sent s' =
        (RoleChain.sent s ++ take 1 (RoleChain.chain environment pageSuiteRoleArn c c))%list) ∨
  (∃ c1, RoleChain.answered 1 s = true ∧ first = Some c1 ∧
     (RoleChain.answered 2 s = false ∨
      RoleChain.assumeRole (RoleChain.aws s) (RoleChain.of_response c1)
        pageSuiteRoleArn = None) ∧
     RoleChain.sent s' =
       (RoleChain.sent s ++ take 2 (RoleChain.chain environment pageSuiteRoleArn c1 c1))%list) ∨
  (∃ c1 c2, RoleChain.answered 2 s = true ∧ first = Some c1 ∧
     RoleChain.assumeRole (RoleChain.aws s) (RoleChain.of_response c1) pageSuiteRoleArn
       = Some c2 ∧
     RoleChain.sent s' =
       (RoleChain.sent s ++ RoleChain.chain environment pageSuiteRoleArn c1 c2)%list ∧
     RoleChain.faults s' = drop 6 (RoleChain.faults s) ∧
     last (RoleChain.console s') = Some (LOG, RoleChain.Summary)).
Proof.
  rewrite testRoleChain_probes.
  unfold RoleChain.chain, RoleChain.answered,
         mbind, RoleChain.R_bind, mret, RoleChain.R_ret, RoleChain.try_catch,
         RoleChain.throw, RoleChain.console_log, RoleChain.console_error,
         RoleChain.print, RoleChain.send.
  simpl.
  set (dummy := {| RoleChain.AccessKeyId := None; RoleChain.SecretAccessKey := None;
                   RoleChain.SessionToken := None |}).
  destruct (RoleChain.faults s) as [|[e1|] fs1] eqn:Hf; simpl.
  2:{ left. split; [by left|]. exists dummy. close_R. }
  all: destruct (RoleChain.assumeRole (RoleChain.aws s) _ _) as [c1|] eqn:H1; simpl.
  2,4: left; split; [by right|]; exists dummy; close_R.
  all: right.
  all: try (destruct fs1 as [|[e2|] fs2]; simpl;
            [| left; exists c1; split; [done|]; split; [done|];
               split; [by left|]; close_R |]).
  all: destruct (RoleChain.assumeRole (RoleChain.aws s) _ pageSuiteRoleArn)
         as [c2|] eqn:H2; simpl.
  2,4,6: left; exists c1; split; [done|]; split; [done|]; split; [by right|]; close_R.
  all: right; exists c1, c2; split; [done|]; split; [done|]; split; [done|].
  all: match goal with
       | |- context [RoleChain.probes ?c ?s0] =>
           pose proof (probes_run c s0) as (E & S & F & _);
           pose proof (probes_summary c s0) as L;
           destruct (RoleChain.probes c s0) as [[[]|e'] s1]; simpl in *; [|done];
           rewrite S, F, L, <- !app_assoc; simpl; rewrite ?Hf; done
       end.
Qed.

(** X20. Once both role assumptions have returned credentials, the run is
    complete whatever the four probes do: exactly the six requests of the
    chain are sent, in order, each probe whether or not an earlier one
    threw, and the run ends on the summary line. *)
Theorem role_chain_complete environment pageSuiteRoleArn s c1 c2 :
  RoleChain.answered 2 s = true →
  RoleChain.assumeRole (RoleChain.aws s)
    (RoleChain.fromSSO (RoleChain.ssoProfile (RoleChain.ENVIRONMENTS environment)))
    (RoleChain.clientAccessRoleArn environment) = Some c1 →
  RoleChain.assumeRole (RoleChain.aws s) (RoleChain.of_response c1) pageSuiteRoleArn
    = Some c2 →
  let s' := (RoleChain.testRoleChain environment pageSuiteRoleArn s).2 in
  RoleChain.sent s' =
    (RoleChain.sent s ++ RoleChain.chain environment pageSuiteRoleArn c1 c2)%list ∧
  RoleChain.faults s' = drop 6 (RoleChain.faults s) ∧
  last (RoleChain.console s') = Some (LOG, RoleChain.Summary).
Proof.
  intros Hans H1 H2.
  assert (Hans1 : RoleChain.answered 1 s = true).
  { unfold RoleChain.answered in *.
    destruct (RoleChain.faults s) as [|[?|] ?]; simpl in *; done. }
  destruct (role_chain_sent_cases environment pageSuiteRoleArn s)
    as [[[?|?] _]|[(c1' & _ & E1 & [?|?] & _)|(c1' & c2' & _ & E1 & E2 & ?)]];
    simpl in *; congruence.
Qed.

Lemma role_chain_complete_witness :
  let s := RoleChain.granting [None; None; Some "AccessDenied"; None; Some "AccessDenied"] in
  let c1 := {| RoleChain.AccessKeyId :=
                 Some ("AKIA-" +:+ RoleChain.clientAccessRoleArn RoleChain.Dev);
               RoleChain.SecretAccessKey := Some "secret";
               RoleChain.SessionToken := Some "token" |} in
  let c2 := {| RoleChain.AccessKeyId := Some ("AKIA-" +:+ "arn:aws:iam::1:role/PageSuiteRole");
               RoleChain.SecretAccessKey := Some "secret";
               RoleChain.SessionToken := Some "token" |} in
  let s' := (RoleChain.testRoleChain RoleChain.Dev "arn:aws:iam::1:role/PageSuiteRole" s).2 in
  RoleChain.sent s' =
    (RoleChain.sent s ++
     RoleChain.chain RoleChain.Dev "arn:aws:iam::1:role/PageSuiteRole" c1 c2)%list ∧
  RoleChain.faults s' = drop 6 (RoleChain.faults s) ∧
  last (RoleChain.console s') = Some (LOG, RoleChain.Summary).
Proof.
  apply (role_chain_complete RoleChain.Dev "arn:aws:iam::1:role/PageSuiteRole"
           (RoleChain.granting [None; None; Some "AccessDenied"; None; Some "AccessDenied"])).
  - reflexivity.
  - reflexivity.
  - reflexivity.
Defined.

(** X21. Credentials are chained and never reused out of place: every
    request of a run other than the two role assumptions is sent with the
    credentials that assuming the PageSuite role returned, and that
    assumption was made with the credentials that assuming the client
    access role returned.  No probe goes out with the SSO credentials or
    with those of the client access role. *)
Theorem probes_use_chained_credentials environment pageSuiteRoleArn s r :
  let s' := (RoleChain.testRoleChain environment pageSuiteRoleArn s).2 in
  r ∈ drop (length (RoleChain.sent s)) (RoleChain.sent s') →
  (∀ arn session, RoleChain.command r ≠ RoleChain.AssumeRoleCommand arn session) →
  ∃ c1 c2,
    RoleChain.assumeRole (RoleChain.aws s)
      (RoleChain.fromSSO (RoleChain.ssoProfile (RoleChain.ENVIRONMENTS environment)))
      (RoleChain.clientAccessRoleArn environment) = Some c1 ∧
    RoleChain.assumeRole (RoleChain.aws s) (RoleChain.of_response c1) pageSuiteRoleArn
      = Some c2 ∧
    RoleChain.credentials r = RoleChain.of_response c2.
Proof.
  simpl. intros Hin Hcmd.
  destruct (role_chain_sent_cases environment pageSuiteRoleArn s)
    as [[_ [c E]]|[(c1 & _ & _ & _ & E)|(c1 & c2 & _ & E1 & E2 & E & _)]];
    simpl in E; rewrite E, drop_app_length in Hin.
  - apply list_elem_of_singleton in Hin as ->.
    exfalso. by eapply Hcmd.
  - repeat (apply elem_of_cons in Hin as [->|Hin]; [exfalso; by eapply Hcmd|]).
    by apply elem_of_nil in Hin.
  - exists c1, c2. split; [done|]. split; [done|].
    unfold RoleChain.chain in Hin.
    repeat (apply elem_of_cons in Hin as [->|Hin];
            [first [done | exfalso; by eapply Hcmd]|]).
    by apply elem_of_nil in Hin.
Qed.

Lemma probes_use_chained_credentials_witness :
  let s := RoleChain.granting [] in
  let r := {| RoleChain.service := RoleChain.EC2;
              RoleChain.credentials :=
                RoleChain.static (Some ("AKIA-" +:+ "arn:aws:iam::1:role/PageSuiteRole"))
                                 (Some "secret") (Some "token");
              RoleChain.command := RoleChain.DescribeInstancesCommand |} in
  ∃ c1 c2,
    RoleChain.assumeRole (RoleChain.aws s)
      (RoleChain.fromSSO (RoleChain.ssoProfile (RoleChain.ENVIRONMENTS RoleChain.Dev)))
      (RoleChain.clientAccessRoleArn RoleChain.Dev) = Some c1 ∧
    RoleChain.assumeRole (RoleChain.aws s) (RoleChain.of_response c1)
      "arn:aws:iam::1:role/PageSuiteRole" = Some c2 ∧
    RoleChain.credentials r = RoleChain.of_response c2.
Proof.
  apply (probes_use_chained_credentials RoleChain.Dev "arn:aws:iam::1:role/PageSuiteRole"
           (RoleChain.granting [])
           {| RoleChain.service := RoleChain.EC2;
              RoleChain.credentials :=
                RoleChain.static (Some ("AKIA-" +:+ "arn:aws:iam::1:role/PageSuiteRole"))
                                 (Some "secret") (Some "token");
              RoleChain.command := RoleChain.DescribeInstancesCommand |}).
  - vm_compute. apply elem_of_cons. right. apply elem_of_cons. right.
    apply elem_of_cons. right. apply elem_of_cons. by left.
  - intros arn session. discriminate.
Defined.

(** X22. When the first request throws, nothing else is sent and the
    [catch] block prints the message as an error; it adds the two lines
    of the SSO login tip exactly when the message contains "SSO". *)
Theorem role_chain_first_failure environment pageSuiteRoleArn s e fs :
  RoleChain.faults s = Some e :: fs →
  let s' := (RoleChain.testRoleChain environment pageSuiteRoleArn s).2 in
  let profile := RoleChain.ssoProfile (RoleChain.ENVIRONMENTS environment) in
  RoleChain.sent s' =
    (RoleChain.sent s ++
     [{| RoleChain.service := RoleChain.STS;
         RoleChain.credentials := RoleChain.fromSSO profile;
         RoleChain.command :=
           RoleChain.AssumeRoleCommand (RoleChain.clientAccessRoleArn environment)
                                       "test-client-access-session" |}])%list ∧
  RoleChain.console s' =
    (RoleChain.console s ++
     [(LOG, RoleChain.TestingRoleChain environment pageSuiteRoleArn);
      (LOG, RoleChain.UsingSsoProfile profile);
      (LOG, RoleChain.AssumingClientAccessRole);
      (ERROR, RoleChain.ErrorMessage e)] ++
     (if RoleChain.includes "SSO" e
      then [(LOG, RoleChain.SsoTip); (LOG, RoleChain.SsoLogin profile)]
      else []))%list.
Proof.
  intros Hf. rewrite testRoleChain_probes.
  unfold mbind, RoleChain.R_bind, mret, RoleChain.R_ret, RoleChain.try_catch,
         RoleChain.throw, RoleChain.console_log, RoleChain.console_error,
         RoleChain.print, RoleChain.send.
  simpl. rewrite Hf. simpl.
  destruct (RoleChain.includes "SSO" e); simpl; by rewrite <- !app_assoc.
Qed.

Lemma role_chain_first_failure_witness :
  let s := RoleChain.granting [Some "The SSO session associated with this profile has expired"] in
  let s' := (RoleChain.testRoleChain RoleChain.Dev "arn" s).2 in
  RoleChain.sent s' =
    (RoleChain.sent s ++
     [{| RoleChain.service := RoleChain.STS;
         RoleChain.credentials := RoleChain.fromSSO "development";
         RoleChain.command :=
           RoleChain.AssumeRoleCommand (RoleChain.clientAccessRoleArn RoleChain.Dev)
                                       "test-client-access-session" |}])%list ∧
  RoleChain.console s' =
    (RoleChain.console s ++
     [(LOG, RoleChain.TestingRoleChain RoleChain.Dev "arn");
      (LOG, RoleChain.UsingSsoProfile "development");
      (LOG, RoleChain.AssumingClientAccessRole);
      (ERROR, RoleChain.ErrorMessage
                "The SSO session associated with this profile has expired")] ++
     [(LOG, RoleChain.SsoTip); (LOG, RoleChain.SsoLogin "development")])%list.
Proof.
  apply (role_chain_first_failure RoleChain.Dev "arn"
           (RoleChain.granting
              [Some "The SSO session associated with this profile has expired"])
           "The SSO session associated with this profile has expired" []).
  reflexivity.
Defined.

(** ** One write at most *)

(** X23. An invocation sends at most one write request, always an update
    and never a put, and the update assigns only attributes of its
    function. *)
Theorem at_most_one_write d w :
  let w' := (deliver d w).2 in
  writes w' = writes w ∨
  ∃ (k : Key) (sets : Sets),
    writes w' = (writes w ++ [UpdateCommand k sets])%list ∧
    (sets.*1 ⊆ assigned d).
Proof.
  destruct d as [now event|now event|now event]; simpl.
  - destruct (provision_effect now event w) as [[_ ?]|(d & _ & Hw & _)]; [by left|].
    right. eexists _, _. split; [exact Hw|]. done.
  - destruct (account_effect now event w)
      as [[_ ?]|(d & k & a & _ & _ & Hw & _)]; [by left|].
    right. eexists _, _. split; [exact Hw|]. done.
  - destruct (stackset_effect now event w)
      as [[_ ?]|(d & n & k & a & _ & _ & _ & _ & Hw & _)]; [by left|].
    right. eexists _, _. split; [exact Hw|].
    destruct (String.eqb _ "READY"); [done|].
    intros x Hx. simpl in *. apply elem_of_cons. by right.
Qed.

(** ** Order of the account-creation and role-deployment signals *)

Lemma scan_items_singleton_iff (n : string) (t : Table) (k : Key) (a : Attrs) :
  scan_items "AwsAccountName" n t = [(k, a)] ↔
  t !! k = Some a ∧ a !! "AwsAccountName" = Some n ∧
  ∀ (k' : Key) (a' : Attrs),
    k' ≠ k → t !! k' = Some a' → a' !! "AwsAccountName" ≠ Some n.
Proof.
  split.
  - intros H. destruct (scan_items_singleton n t k a H) as [? ?].
    repeat split; try done. by apply (scan_items_singleton_others n t k a).
  - intros (? & ? & ?). by apply scan_items_unique.
Qed.

(** A scan by name sees through an update that does not assign the name:
    it returns a single record after the update exactly when it did
    before, and that record is the same one, updated if it is [k1]. *)
Lemma scan_items_through_update (n : string) (t : Table) (k1 : Key) (a1 : Attrs)
    (sets : Sets) (k : Key) (a' : Attrs) :
  t !! k1 = Some a1 →
  "AwsAccountName" ∉ sets.*1 →
  scan_items "AwsAccountName" n (update_item k1 sets t) = [(k, a')] ↔
  ∃ a : Attrs,
    scan_items "AwsAccountName" n t = [(k, a)] ∧
    a' = if decide (k = k1) then apply_sets sets a else a.
Proof.
  intros Hk1 Hsets. rewrite scan_items_singleton_iff. split.
  - intros (Hk & Hn & Hothers).
    destruct (decide (k = k1)) as [->|Hne].
    + rewrite update_item_lookup, Hk1 in Hk. simpl in Hk. injection Hk as <-.
      exists a1. split; [|done]. apply scan_items_singleton_iff.
      split; [done|]. split; [by rewrite apply_sets_lookup_other in Hn|].
      intros k' a0 Hk' Hl. apply (Hothers k' a0 Hk').
      by rewrite update_item_lookup_ne.
    + rewrite update_item_lookup_ne in Hk by done.
      exists a'. split; [|done]. apply scan_items_singleton_iff.
      split; [done|]. split; [done|].
      intros k' a0 Hk' Hl.
      destruct (decide (k' = k1)) as [->|Hne1].
      * assert (a0 = a1) as -> by congruence.
        specialize (Hothers k1 (apply_sets sets a1) Hk').
        rewrite update_item_lookup, Hk1, apply_sets_lookup_other in Hothers by done.
        by apply Hothers.
      * apply (Hothers k' a0 Hk'). by rewrite update_item_lookup_ne.
  - intros (a & (Hk & Hn & Hothers)%scan_items_singleton_iff & ->).
    destruct (decide (k = k1)) as [->|Hne].
    + assert (a = a1) as -> by congruence.
      split; [by rewrite update_item_lookup, Hk1|].
      split; [by rewrite apply_sets_lookup_other|].
      intros k' a0 Hk'. rewrite update_item_lookup_ne by done. by apply Hothers.
    + split; [by rewrite update_item_lookup_ne|]. split; [done|].
      intros k' a0 Hk'.
      destruct (decide (k' = k1)) as [->|Hne1].
      * rewrite update_item_lookup, Hk1. intros [= <-].
        rewrite apply_sets_lookup_other by done. by apply (Hothers k1 a1).
      * rewrite update_item_lookup_ne by done. by apply Hothers.
Qed.

Lemma scan_match_update {X : Type} (n : string) (t : Table) (k1 : Key) (a1 : Attrs)
    (sets : Sets) (f : Key → Attrs → X) (dflt : X) :
  t !! k1 = Some a1 →
  "AwsAccountName" ∉ sets.*1 →
  match scan_items "AwsAccountName" n (update_item k1 sets t) with
  | [(k, a)] => f k a
  | _ => dflt
  end =
  match scan_items "AwsAccountName" n t with
  | [(k, a)] => f k (if decide (k = k1) then apply_sets sets a else a)
  | _ => dflt
  end.
Proof.
  intros Hk1 Hsets.
  destruct (scan_items "AwsAccountName" n t) as [|[k a] [|i2 rest]] eqn:E.
  - destruct (scan_items "AwsAccountName" n (update_item k1 sets t))
      as [|[k' a'] [|i2' rest']] eqn:E'; try done.
    apply (scan_items_through_update n t k1 a1 sets k' a' Hk1 Hsets) in E'
      as (a0 & E0 & _). congruence.
  - assert (E' : scan_items "AwsAccountName" n (update_item k1 sets t)
                 = [(k, if decide (k = k1) then apply_sets sets a else a)]).
    { apply (scan_items_through_update n t k1 a1 sets k _ Hk1 Hsets). eauto. }
    by rewrite E'.
  - destruct (scan_items "AwsAccountName" n (update_item k1 sets t))
      as [|[k' a'] [|i2' rest']] eqn:E'; try done.
    apply (scan_items_through_update n t k1 a1 sets k' a' Hk1 Hsets) in E'
      as (a0 & E0 & _). congruence.
Qed.

Lemma apply_sets_comm_lookup (s1 s2 : Sets) (a : Attrs) (x : string) :
  (x ∈ s1.*1 → x ∉ s2.*1) →
  apply_sets s2 (apply_sets s1 a) !! x = apply_sets s1 (apply_sets s2 a) !! x.
Proof.
  intros Hdisj.
  destruct (decide (x ∈ s1.*1)) as [H1|H1].
  - destruct (apply_sets_lookup_in s1 x H1) as [v Hv].
    by rewrite (apply_sets_lookup_other s2) by auto; rewrite !Hv.
  - rewrite (apply_sets_lookup_other s1 (apply_sets s2 a)) by done.
    destruct (decide (x ∈ s2.*1)) as [H2|H2].
    + destruct (apply_sets_lookup_in s2 x H2) as [v Hv]. by rewrite !Hv.
    + by rewrite !apply_sets_lookup_other.
Qed.

Lemma update_update_agree (t : Table) (k1 k2 : Key) (s1 s2 : Sets) (a1 a2 : Attrs) :
  t !! k1 = Some a1 → t !! k2 = Some a2 →
  (∀ x, x ≠ "LastModified" → x ∈ s1.*1 → x ∉ s2.*1) →
  agree_but "LastModified"
    (update_item k2 s2 (update_item k1 s1 t))
    (update_item k1 s1 (update_item k2 s2 t)).
Proof.
  intros H1 H2 Hdisj k.
  destruct (decide (k = k1)) as [Ek1|N1]; destruct (decide (k = k2)) as [Ek2|N2].
  - assert (k2 = k1) as -> by congruence. rewrite Ek1.
    assert (a2 = a1) as -> by congruence.
    rewrite !update_item_lookup, H1. simpl. split; [done|].
    intros x Hx. simpl. apply apply_sets_comm_lookup. auto.
  - rewrite Ek1 in *.
    rewrite (update_item_lookup_ne k2 k1) by done.
    rewrite !update_item_lookup.
    rewrite (update_item_lookup_ne k2 k1) by done. rewrite H1. done.
  - rewrite Ek2 in *.
    rewrite (update_item_lookup_ne k1 k2) by done.
    rewrite !update_item_lookup.
    rewrite (update_item_lookup_ne k1 k2) by done. rewrite H2. done.
  - rewrite !update_item_lookup_ne by done. done.
Qed.

Lemma agree_but_refl (x0 : string) (t : Table) : agree_but x0 t t.
Proof. intros k. done. Qed.

Lemma guard_through_update (sets : Sets) (a : Attrs) (b : bool) :
  "PageSuiteRoleStatus" ∉ sets.*1 → "PageSuiteRoleArn" ∉ sets.*1 →
  b && role_ready (apply_sets sets a) && has_roleArn (apply_sets sets a)
  = b && role_ready a && has_roleArn a.
Proof.
  intros H1 H2. by destruct (apply_sets_role_untouched sets a H1 H2) as [-> ->].
Qed.

(** The two transitions in either order, on tables. *)
Lemma account_role_transitions_commute now1 event1 now2 event2 w w1 w2 :
  let d1 := ToCreateAccount now1 event1 in
  let d2 := ToStacksetStatus now2 event2 in
  table w1 = transition d1 w → organizations w1 = organizations w →
  table w2 = transition d2 w → organizations w2 = organizations w →
  agree_but "LastModified" (transition d2 w1) (transition d1 w2).
Proof.
  simpl. intros T1 O1 T2 O2.
  unfold Signal.resolveAccountName in *. rewrite O1, T1, T2.
  destruct (detail event1) as [dd1|]; [|by apply agree_but_refl].
  destruct (_ && Js.strict_eq (ca_eventName dd1) _);
    [|by apply agree_but_refl].
  destruct (detail event2) as [dd2|]; [|by apply agree_but_refl].
  destruct (_ && _ && negb _); [|by apply agree_but_refl].
  destruct (organizations w _ ≫= Name) as [n0|]; [|by apply agree_but_refl].
  destruct (String.eqb n0 ""); [by apply agree_but_refl|].
  set (s1 := [("AwsAccountId", Signal.awsAccountId dd1);
              ("AwsAccountStatus", Signal.awsAccountStatus dd1);
              ("LastModified", now1)]).
  set (s2 := if String.eqb (Signal.roleStatus dd2) "READY"
             then [("PageSuiteRoleArn", StacksetStatus.roleArn (Signal.cloudAccountId dd2));
                   ("PageSuiteRoleStatus", Signal.roleStatus dd2);
                   ("LastModified", now2)]
             else [("PageSuiteRoleStatus", Signal.roleStatus dd2);
                   ("LastModified", now2)]).
  assert (Hs1 : "AwsAccountName" ∉ s1.*1) by (unfold s1; not_in_list).
  assert (Hs1r : "PageSuiteRoleStatus" ∉ s1.*1) by (unfold s1; not_in_list).
  assert (Hs1a : "PageSuiteRoleArn" ∉ s1.*1) by (unfold s1; not_in_list).
  assert (Hs2 : "AwsAccountName" ∉ s2.*1)
    by (unfold s2; destruct (String.eqb _ "READY"); not_in_list).
  assert (Hdisj : ∀ x, x ≠ "LastModified" → x ∈ s1.*1 → x ∉ s2.*1).
  { intros x Hx Hin. unfold s1 in Hin. simpl in Hin.
    repeat (apply elem_of_cons in Hin as [->|Hin]); try done;
      try (by apply elem_of_nil in Hin).
    all: unfold s2; destruct (String.eqb _ "READY"); not_in_list. }
  destruct (scan_items "AwsAccountName" (Signal.createdName dd1) (table w))
    as [|[k1 a1] [|i rest]] eqn:E1.
  1,3: destruct (scan_items "AwsAccountName" n0 (table w))
         as [|[k2 a2] [|i' rest']] eqn:E2; try (rewrite E1; by apply agree_but_refl);
       destruct (_ && role_ready a2 && has_roleArn a2);
         [rewrite E1; by apply agree_but_refl|];
       pose proof (scan_items_singleton n0 (table w) k2 a2 E2) as [Hk2 _];
       rewrite (scan_match_update _ _ _ _ _ _ _ Hk2 Hs2), E1;
       by apply agree_but_refl.
  pose proof (scan_items_singleton _ (table w) k1 a1 E1) as [Hk1 _].
  rewrite (scan_match_update _ _ _ _ _ _ _ Hk1 Hs1).
  destruct (scan_items "AwsAccountName" n0 (table w))
    as [|[k2 a2] [|i' rest']] eqn:E2; try (rewrite E1; by apply agree_but_refl).
  pose proof (scan_items_singleton n0 (table w) k2 a2 E2) as [Hk2 _].
  assert (G : String.eqb (Signal.roleStatus dd2) "READY"
              && role_ready (if decide (k2 = k1) then apply_sets s1 a2 else a2)
              && has_roleArn (if decide (k2 = k1) then apply_sets s1 a2 else a2)
              = String.eqb (Signal.roleStatus dd2) "READY"
                && role_ready a2 && has_roleArn a2).
  { destruct (decide (k2 = k1)); [|done]. by apply guard_through_update. }
  rewrite G.
  destruct (_ && role_ready a2 && has_roleArn a2).
  - rewrite E1. by apply agree_but_refl.
  - rewrite (scan_match_update _ _ _ _ _ _ _ Hk2 Hs2), E1.
    by apply (update_update_agree (table w) k1 k2 s1 s2 a1 a2).
Qed.

(** X24. The account-creation and the role-deployment signal can arrive
    in either order: with the requests answered, the two orders leave
    tables with the same records that agree on every attribute except
    [LastModified] (which holds the clock reading of whichever came last). *)
Theorem account_and_role_order_irrelevant now1 event1 now2 event2 w :
  let d1 := ToCreateAccount now1 event1 in
  let d2 := ToStacksetStatus now2 event2 in
  answered 6 w = true →
  agree_but "LastModified" (table (run [d1; d2] w)) (table (run [d2; d1] w)).
Proof.
  simpl. intros Hans. unfold run. simpl.
  assert (Hans3 : answered 3 w = true) by (by apply (answered_le 3 6 w); [lia|]).
  destruct (deliver_table (ToCreateAccount now1 event1) w)
    as (_ & T1 & O1 & m1 & Hm1 & F1). specialize (T1 Hans3).
  destruct (deliver_table (ToStacksetStatus now2 event2) w)
    as (_ & T2 & O2 & m2 & Hm2 & F2). specialize (T2 Hans3).
  simpl in *.
  set (w1 := (CreateAccount.handler now1 event1 w).2) in *.
  set (w2 := (StacksetStatus.handler now2 event2 w).2) in *.
  destruct (deliver_table (ToStacksetStatus now2 event2) w1) as (_ & T12 & _).
  destruct (deliver_table (ToCreateAccount now1 event1) w2) as (_ & T21 & _).
  simpl in *. rewrite T12, T21.
  - by apply (account_role_transitions_commute now1 event1 now2 event2 w w1 w2).
  - apply (answered_drop m2 3 w w2 F2). apply (answered_le (m2 + 3) 6 w); [lia|done].
  - apply (answered_drop m1 3 w w1 F1). apply (answered_le (m1 + 3) 6 w); [lia|done].
Qed.

Lemma account_and_role_order_irrelevant_witness :
  let d1 := ToCreateAccount "t2" (Scenario.accountCreated (Some "111") "n1" "SUCCEEDED") in
  let d2 := ToStacksetStatus "t3" (Scenario.roleDeployed Scenario.stack111 "SUCCEEDED") in
  let w := run (take 1 Scenario.signals) (Scenario.world Scenario.created) in
  agree_but "LastModified" (table (run [d1; d2] w)) (table (run [d2; d1] w)).
Proof.
  apply (account_and_role_order_irrelevant
           "t2" (Scenario.accountCreated (Some "111") "n1" "SUCCEEDED")
           "t3" (Scenario.roleDeployed Scenario.stack111 "SUCCEEDED")
           (run (take 1 Scenario.signals) (Scenario.world Scenario.created))).
  vm_compute; reflexivity.
Defined.

(** The two orders, evaluated: the records differ in [LastModified] only. *)
Example account_and_role_orders :
  let d1 := ToCreateAccount "t2" (Scenario.accountCreated (Some "111") "n1" "SUCCEEDED") in
  let d2 := ToStacksetStatus "t3" (Scenario.roleDeployed Scenario.stack111 "SUCCEEDED") in
  let w := run (take 1 Scenario.signals) (Scenario.world Scenario.created) in
  (table (run [d1; d2] w) !! Scenario.t1_key ≫= (.!! "LastModified")) = Some "t3" ∧
  (table (run [d2; d1] w) !! Scenario.t1_key ≫= (.!! "LastModified")) = Some "t2" ∧
  (table (run [d2; d1] w) !! Scenario.t1_key ≫= (.!! "PageSuiteRoleArn"))
    = Some "arn:aws:iam::111:role/PageSuiteRole" ∧
  (table (run [d2; d1] w) !! Scenario.t1_key ≫= (.!! "AwsAccountId")) = Some "111".
Proof. repeat split; vm_compute; reflexivity. Qed.
